(** * DelayShield: a shallow embedding of the worker
      ([services/worker/src/tasks.py]) and of the façade
      ([services/api/src/main.py])

    The recalculation engine of the worker is embedded function by function:
    the quota ledger ([_consume_budget]), the forecast selection and severity
    formula ([_forecast]), the risk model ([_risk], [_recommend_depart],
    [_next_interval_seconds]), the recalculator ([recalc_trip]) and the
    scanner ([scan_due_trips]); of the façade, the handlers that read or write
    the store ([create_trip], [get_trip], [recalc_now], [patch_policy]).

    Modelling choices, all of them visible in the definitions below:
    - a Python [float] is an IEEE binary64 number: Rocq's primitive [float];
    - a Python [int] is a [Z]; a [str] is a [string] holding the UTF-8 bytes;
    - an aware UTC [datetime] is the number of microseconds since the epoch,
      a [date] the number of days since the epoch (the range check of the
      [datetime] type, years 1..9999, and the range of an [Integer] column
      are not modelled);
    - the database is a record of finite maps and an append-only list, seen
      through a session that separates committed rows from the rows of the
      transaction in flight;
    - the clock, the two HTTP providers, the task queue and the failures of
      the event-log insert are inputs of a run ([Env], [Broker]);
    - one session runs at a time: the row locks of [with_for_update()] have
      no counterpart here. *)

From Stdlib Require Import ZArith String Ascii List Lia Floats DecimalString.
From stdpp Require Import gmap strings sorting.
Import ListNotations.

#[local] Set Warnings "-inexact-float,-register-all".
#[local] Open Scope string_scope.
#[local] Open Scope Z_scope.

(** ** Python numbers *)

Module PyFloat.

(** [min(a, b)] and [max(a, b)] on two floats: the first argument is kept
    unless the second is strictly smaller (larger). *)
Definition py_min (a b : float) : float := if PrimFloat.ltb b a then b else a.
Definition py_max (a b : float) : float := if PrimFloat.ltb a b then b else a.

(** [a / b] rounded to the nearest integer, ties to even ([0 <= a], [0 < b]). *)
Definition div_half_even (a b : Z) : Z :=
  let q := a / b in
  let r := a mod b in
  match 2 * r ?= b with
  | Lt => q
  | Gt => q + 1
  | Eq => if Z.even q then q else q + 1
  end.

(** The magnitude [m * 2^e] rounded to the nearest integer, ties to even. *)
Definition round_mag (m : positive) (e : Z) : Z :=
  if 0 <=? e then Zpos m * 2 ^ e else div_half_even (Zpos m) (2 ^ (- e)).

(** [round(x)] with one argument: the nearest integer, ties to even. Python
    raises on an infinity or a NaN; the value 0 stands for that case here. *)
Definition py_round (x : float) : Z :=
  match Prim2SF x with
  | S754_finite s m e => if s then - round_mag m e else round_mag m e
  | _ => 0
  end.

(** [a / b] for two [int]s with [0 < b]: the quotient correctly rounded. The
    numerator is scaled until the integer quotient has 56 bits or more, and a
    sticky bit records a remainder. *)
Definition truediv (a b : Z) : float :=
  if a =? 0 then 0%float else
  let sh := Z.max 0 (Z.log2 b + 56 - Z.log2 (Z.abs a)) in
  let num := Z.abs a * 2 ^ sh in
  let m := 2 * (num / b) + (if num mod b =? 0 then 0 else 1) in
  SF2Prim (binary_normalize prec emax (if a <? 0 then - m else m) (- sh - 1) false).

(** The truth value of a float: false for both zeros. *)
Definition truthy (x : float) : bool := negb (PrimFloat.eqb x 0).

End PyFloat.

(** ** Printing *)

Module PyFormat.

(** [str(n)] for an [int]. *)
Definition str_int (n : Z) : string := NilZero.string_of_int (Z.to_int n).

(** A non-negative [n] in decimal, padded with zeros to [w] digits. *)
Fixpoint zeros (k : nat) : string :=
  match k with
  | O => ""
  | S k' => "0" ++ zeros k'
  end.

Definition pad (w : nat) (n : Z) : string :=
  let s := str_int n in zeros (w - String.length s)%nat ++ s.

(** [f"{x:.2f}"]: two decimals, the exact binary value rounded half to even. *)
Definition fmt_2f (x : float) : string :=
  match Prim2SF x with
  | S754_nan => "nan"
  | S754_infinity s => if s then "-inf" else "inf"
  | S754_zero s => if s then "-0.00" else "0.00"
  | S754_finite s m e =>
      let n := if 0 <=? e then Zpos m * 2 ^ e * 100
               else PyFloat.div_half_even (Zpos m * 100) (2 ^ (- e)) in
      ((if s then "-" else "") ++ str_int (n / 100) ++ "." ++ pad 2 (n mod 100))
  end.

End PyFormat.

(** ** Time *)

(** Microseconds since 1970-01-01T00:00:00Z. *)
Definition datetime := Z.
(** Days since 1970-01-01. *)
Definition date := Z.
(** A [timedelta], in microseconds. *)
Definition timedelta := Z.

Definition timedelta_seconds (s : Z) : timedelta := s * 1000000.
Definition timedelta_minutes (m : Z) : timedelta := m * 60000000.

(** [td.total_seconds()]. *)
Definition total_seconds (td : timedelta) : float := PyFloat.truediv td 1000000.

(** [datetime.fromtimestamp(ts, tz=timezone.utc)] for an integer [ts]. *)
Definition fromtimestamp (ts : Z) : datetime := ts * 1000000.

Definition _minute_bucket (dt : datetime) : datetime := dt - dt mod 60000000.

Module Calendar.

(** The civil date [(year, month, day)] of a day number. *)
Definition civil_of_days (days : Z) : Z * Z * Z :=
  let z := days + 719468 in
  let era := z / 146097 in
  let doe := z - era * 146097 in
  let yoe := (doe - doe / 1460 + doe / 36524 - doe / 146096) / 365 in
  let doy := doe - (365 * yoe + yoe / 4 - yoe / 100) in
  let mp := (5 * doy + 2) / 153 in
  let d := doy - (153 * mp + 2) / 5 + 1 in
  let m := if mp <? 10 then mp + 3 else mp - 9 in
  ((if m <=? 2 then yoe + era * 400 + 1 else yoe + era * 400), m, d).

Definition ymd (dt : datetime) : string :=
  let '(y, m, d) := civil_of_days (dt / 86400000000) in
  PyFormat.pad 4 y ++ "-" ++ PyFormat.pad 2 m ++ "-" ++ PyFormat.pad 2 d.

Definition hour (dt : datetime) : Z := (dt mod 86400000000) / 3600000000.
Definition minute (dt : datetime) : Z := (dt mod 3600000000) / 60000000.
Definition second (dt : datetime) : Z := (dt mod 60000000) / 1000000.
Definition microsecond (dt : datetime) : Z := dt mod 1000000.

(** [dt.isoformat()] of an aware UTC datetime. *)
Definition isoformat (dt : datetime) : string :=
  ymd dt ++ "T" ++ PyFormat.pad 2 (hour dt) ++ ":" ++ PyFormat.pad 2 (minute dt)
    ++ ":" ++ PyFormat.pad 2 (second dt)
    ++ (if microsecond dt =? 0 then "" else "." ++ PyFormat.pad 6 (microsecond dt))
    ++ "+00:00".

(** [dt.astimezone(timezone.utc).strftime("%Y-%m-%d %H:%M UTC")]. *)
Definition strftime_minute_utc (dt : datetime) : string :=
  ymd dt ++ " " ++ PyFormat.pad 2 (hour dt) ++ ":" ++ PyFormat.pad 2 (minute dt) ++ " UTC".

End Calendar.

(** ** The risk model *)

(** The three status glyphs, as the UTF-8 text the store holds. *)
Definition GREEN : string := "🟢".
Definition YELLOW : string := "🟡".
Definition RED : string := "🔴".

Definition SUGG_GREEN : string := "Manter rota. Recalcular mais perto do prazo.".
Definition SUGG_YELLOW : string :=
  "Considere antecipar saída e avisar cliente sobre possível variação.".
Definition SUGG_RED : string :=
  "ALTO risco: antecipar/alternar rota e ALERTAR cliente agora.".

(** The [base] of [_risk], by slack band. *)
Definition risk_base (slack_s : float) : float :=
  if PrimFloat.leb 14400 slack_s then 0.10%float
  else if PrimFloat.leb 7200 slack_s then 0.20%float
  else if PrimFloat.leb 0 slack_s then 0.40%float
  else if PrimFloat.leb (-7200) slack_s then 0.70%float
  else 0.85%float.

Definition status_of_pct (pct : Z) : string :=
  if pct <? 34 then GREEN else if pct <? 67 then YELLOW else RED.

Definition _risk (deadline eta : datetime) (sev : float)
  : Z * string * Z * string * string :=
  let slack_s := total_seconds (deadline - eta) in
  let base := risk_base slack_s in
  let risk := PyFloat.py_min 0.99 (PyFloat.py_max 0.0 (base + 0.25 * sev)) in
  let pct := PyFloat.py_round (risk * 100) in
  let status := status_of_pct pct in
  let buffer_minutes := PyFloat.py_round (slack_s / 60.0) in
  let why := "buffer=" ++ PyFormat.str_int buffer_minutes ++ "min, weather_sev="
               ++ PyFormat.fmt_2f sev in
  let sugg := if String.eqb status GREEN then SUGG_GREEN
              else if String.eqb status YELLOW then SUGG_YELLOW
              else SUGG_RED in
  (pct, status, buffer_minutes, why, sugg).

Definition _recommend_depart (now : datetime) (status : string) (buffer_minutes : Z)
  : datetime :=
  if String.eqb status GREEN then now
  else if String.eqb status YELLOW then
    now - timedelta_minutes (if buffer_minutes <? 120 then 30 else 15)
  else now - timedelta_minutes (if buffer_minutes <? 60 then 60 else 30).

Definition _customer_message (status : string) (eta deadline : datetime)
    (why suggestion : string) : string :=
  let eta_s := Calendar.strftime_minute_utc eta in
  let dl_s := Calendar.strftime_minute_utc deadline in
  "Atualização: status " ++ status ++ ". ETA " ++ eta_s ++ " (deadline " ++ dl_s
    ++ "). Motivo: " ++ why ++ ". Ação: " ++ suggestion.

Definition _next_interval_seconds (mode status : string) (budget_limited : bool) : Z :=
  if budget_limited then 45 * 60
  else if String.eqb mode "conservative" then
    if String.eqb status GREEN then 60 * 60
    else if String.eqb status YELLOW then 25 * 60 else 8 * 60
  else if String.eqb mode "aggressive" then
    if String.eqb status GREEN then 20 * 60
    else if String.eqb status YELLOW then 8 * 60 else 2 * 60
  else
    if String.eqb status GREEN then 40 * 60
    else if String.eqb status YELLOW then 15 * 60 else 5 * 60.

(** ** JSON values, as the payloads and the provider answers hold them *)

Inductive json : Type :=
| JNull
| JBool (b : bool)
| JInt (n : Z)
| JFloat (x : float)
| JStr (s : string)
| JList (items : list json)
| JDict (fields : list (string * json)).

(** [d.get(key)] on a JSON object. *)
Fixpoint assoc_get (key : string) (fields : list (string * json)) : option json :=
  match fields with
  | [] => None
  | (k, v) :: rest => if String.eqb k key then Some v else assoc_get key rest
  end.

Definition json_get (key : string) (j : json) : option json :=
  match j with
  | JDict fields => assoc_get key fields
  | _ => None
  end.

(** ** Results of fallible code *)

Inductive outcome (A : Type) : Type :=
| Ok (a : A)
| Raised (msg : string).

Arguments Ok {A} a.
Arguments Raised {A} msg.

(** ** The forecast client *)

(** One entry of the provider's ["list"]: the timestamp ["dt"] (seconds) and
    the optional readings ["wind"]["speed"], ["rain"]["3h"], ["snow"]["3h"],
    ["clouds"]["all"] and ["weather"][0]["main"]. *)
Record slot : Type := {
  dt : Z;
  wind_speed : option float;
  rain_3h : option float;
  snow_3h : option float;
  clouds_all : option float;
  weather_main : option string
}.

(** [abs((dt - eta_dt).total_seconds())] for the slot [item]. *)
Definition slot_diff (eta_dt : datetime) (item : slot) : float :=
  PrimFloat.abs (total_seconds (fromtimestamp (dt item) - eta_dt)).

(** One turn of the selection loop over [(best, best_diff)]. *)
Definition nearest_step (eta_dt : datetime) (acc : option (slot * float)) (item : slot)
  : option (slot * float) :=
  let diff := slot_diff eta_dt item in
  match acc with
  | None => Some (item, diff)
  | Some (_, best_diff) => if PrimFloat.ltb diff best_diff then Some (item, diff) else acc
  end.

Definition nearest_slot (eta_dt : datetime) (items : list slot) : option (slot * float) :=
  fold_left (nearest_step eta_dt) items None.

(** [float(d.get(k, 0.0))] and [float(d.get(k, 0.0) or 0.0)]. *)
Definition reading (v : option float) : float := default 0%float v.
Definition reading_or_zero (v : option float) : float :=
  match v with
  | Some x => if PyFloat.truthy x then x else 0%float
  | None => 0%float
  end.

(** The severity of a slot from its four readings. *)
Definition severity (wind rain snow clouds : float) : float :=
  let sev := 0.0%float in
  let sev := (sev + PyFloat.py_min 1.0 (rain / 10.0) * 0.5)%float in
  let sev := (sev + PyFloat.py_min 1.0 (snow / 5.0) * 0.6)%float in
  let sev := (sev + PyFloat.py_min 1.0 (wind / 15.0) * 0.4)%float in
  let sev := (sev + (clouds / 100.0) * 0.1)%float in
  PyFloat.py_max 0.0 (PyFloat.py_min 1.0 sev).

(** [_forecast] after the HTTP exchange: [key] is the secret read from its
    file and [resp] the provider's answer, its ["list"] decoded, or the network
    or HTTP error raised instead. *)
Definition _forecast (key : option string) (resp : outcome (list slot))
    (eta_dt : datetime) : outcome (float * json) :=
  match key with
  | None => Raised "OpenWeather key missing"
  | Some _ =>
    match resp with
    | Raised e => Raised e
    | Ok items =>
      match nearest_slot eta_dt items with
      | None => Ok (0.0%float, JDict [("summary", JStr "no-forecast"); ("severity", JFloat 0.0)])
      | Some (best, _) =>
        let wind := reading (wind_speed best) in
        let rain := reading_or_zero (rain_3h best) in
        let snow := reading_or_zero (snow_3h best) in
        let clouds := reading (clouds_all best) in
        let wx := default "Unknown" (weather_main best) in
        let sev := severity wind rain snow clouds in
        Ok (sev, JDict [("severity", JFloat sev); ("wx", JStr wx);
                        ("wind_mps", JFloat wind); ("rain_3h_mm", JFloat rain);
                        ("snow_3h_mm", JFloat snow); ("clouds_pct", JFloat clouds);
                        ("forecast_dt", JStr (Calendar.isoformat (fromtimestamp (dt best))))])
      end
    end
  end.

(** ** The persisted rows *)

Definition uuid := N.

(** A waypoint of [waypoints["points"]]: [(lat, lon)]. *)
Definition point : Type := float * float.

Module Trip.

Record t : Type := mk {
  id : uuid;
  deadline_at : datetime;
  waypoints : list point;
  eta_at : option datetime;
  route_distance_m : option Z;
  route_duration_s : option Z;
  route_geojson : option json;
  buffer_minutes : option Z;
  delay_risk_pct : option Z;
  status : option string;
  suggestion : option string;
  recommended_depart_at : option datetime;
  why : option string;
  customer_message : option string;
  policy_mode : string;
  trip_owm_daily_cap : Z;
  trip_route_daily_cap : Z;
  next_calc_at : option datetime;
  last_calc_at : option datetime;
  calc_state : string
}.

(** [.values(calc_state=s)] *)
Definition set_calc_state (s : string) (x : t) : t :=
  mk (id x) (deadline_at x) (waypoints x) (eta_at x) (route_distance_m x)
     (route_duration_s x) (route_geojson x) (buffer_minutes x) (delay_risk_pct x)
     (status x) (suggestion x) (recommended_depart_at x) (why x) (customer_message x)
     (policy_mode x) (trip_owm_daily_cap x) (trip_route_daily_cap x)
     (next_calc_at x) (last_calc_at x) s.

(** [.values(next_calc_at=next, last_calc_at=last)] *)
Definition set_schedule (next last : datetime) (x : t) : t :=
  mk (id x) (deadline_at x) (waypoints x) (eta_at x) (route_distance_m x)
     (route_duration_s x) (route_geojson x) (buffer_minutes x) (delay_risk_pct x)
     (status x) (suggestion x) (recommended_depart_at x) (why x) (customer_message x)
     (policy_mode x) (trip_owm_daily_cap x) (trip_route_daily_cap x)
     (Some next) (Some last) (calc_state x).

(** The [.values(...)] of the closing update of a recalculation. *)
Definition set_results (eta : datetime) (dist_m dur_s : option Z) (geom : option json)
    (buffer pct : Z) (st sugg : string) (rec_depart : datetime) (w msg : string)
    (last next : datetime) (state : string) (x : t) : t :=
  mk (id x) (deadline_at x) (waypoints x) (Some eta) dist_m dur_s geom
     (Some buffer) (Some pct) (Some st) (Some sugg) (Some rec_depart) (Some w) (Some msg)
     (policy_mode x) (trip_owm_daily_cap x) (trip_route_daily_cap x)
     (Some next) (Some last) state.

End Trip.

Module TripUpdate.

(** A row of [trip_updates]; its [id] is its position in the table and its
    [at] the server's clock, neither of which the worker reads. *)
Record t : Type := mk {
  trip_id : uuid;
  kind : string;
  payload : json
}.

End TripUpdate.

Module TripApiUsageDaily.

Record t : Type := mk {
  owm_calls : Z;
  route_calls : Z
}.

End TripApiUsageDaily.

(** The five tables. *)
Record DB : Type := {
  trips : gmap uuid Trip.t;
  trip_updates : list TripUpdate.t;
  trip_api_usage_daily : gmap (uuid * date) TripApiUsageDaily.t;
  api_usage_daily : gmap (string * date) Z;
  api_usage_minute : gmap (string * datetime) Z
}.

(** ** Configuration and environment *)

Record Config : Type := {
  OWM_DAILY_LIMIT : Z;
  ROUTE_DAILY_LIMIT : Z;
  OWM_PER_MIN_LIMIT : Z;
  ROUTE_PER_MIN_LIMIT : Z
}.

(** The values used when the environment sets none. *)
Definition default_config : Config :=
  {| OWM_DAILY_LIMIT := 800; ROUTE_DAILY_LIMIT := 400;
     OWM_PER_MIN_LIMIT := 30; ROUTE_PER_MIN_LIMIT := 20 |}.

(** A call that leaves the worker. *)
Inductive ext_call : Type :=
| CallRoute (coords : list (float * float))
| CallForecast (lat lon : float) (eta : datetime).

(** What one run of [recalc_trip] meets outside the worker. *)
Record Env : Type := {
  (** [datetime.now(timezone.utc)] at the start of [recalc_trip] *)
  now : datetime;
  (** [datetime.now(timezone.utc)] and [date.today()] inside
      [_consume_budget], by [api_name] *)
  budget_clock : string -> datetime * date;
  (** the answer of [asyncio.run(_route(coords))] *)
  route_answer : list (float * float) -> outcome (Z * Z * json * string);
  (** the secret [_read_secret(OPENWEATHER_API_KEY_FILE)] *)
  owm_key : option string;
  (** the forecast provider's answer for a coordinate *)
  owm_answer : float -> float -> outcome (list slot);
  (** whether [insert(TripUpdate)] of this row raises *)
  update_insert_fails : TripUpdate.t -> bool
}.

(** ** Sessions and transactions *)

(** The committed rows, the rows as the open transaction sees them, and the
    calls made to the providers so far. *)
Record World : Type := {
  committed : DB;
  working : DB;
  ext_calls : list ext_call
}.

(** A computation over the session that returns or raises. *)
Definition M (A : Type) : Type := World -> outcome A * World.

#[global] Instance M_ret : MRet M := fun A a w => (Ok a, w).
#[global] Instance M_bind : MBind M := fun A B f m w =>
  match m w with
  | (Ok a, w') => f a w'
  | (Raised e, w') => (Raised e, w')
  end.

Definition raise {A : Type} (e : string) : M A := fun w => (Raised e, w).

Definition read_db : M DB := fun w => (Ok (working w), w).
Definition write_db (db : DB) : M unit := fun w =>
  (Ok tt, {| committed := committed w; working := db; ext_calls := ext_calls w |}).

(** [db.commit()] *)
Definition commit : M unit := fun w =>
  (Ok tt, {| committed := working w; working := working w; ext_calls := ext_calls w |}).

(** [with Session() as db: body]: a session of its own over the committed
    rows; what it has not committed when it closes is rolled back, on a
    normal exit or on an exception, and the enclosing session's transaction
    is left as it was. *)
Definition with_session {A : Type} (body : M A) : M A := fun w =>
  let '(r, w') := body {| committed := committed w; working := committed w;
                          ext_calls := ext_calls w |} in
  (r, {| committed := committed w'; working := working w; ext_calls := ext_calls w' |}).

(** The outermost [with Session() as db: body] of a task: the session opens on
    the committed rows and leaves nothing but them behind. *)
Definition run_session {A : Type} (body : M A) : M A := fun w =>
  let '(r, w') := body {| committed := committed w; working := committed w;
                          ext_calls := ext_calls w |} in
  (r, {| committed := committed w'; working := committed w'; ext_calls := ext_calls w' |}).

Definition log_call (c : ext_call) : M unit := fun w =>
  (Ok tt, {| committed := committed w; working := working w;
             ext_calls := (ext_calls w ++ [c])%list |}).

(** [db.scalar(select(Trip).where(Trip.id == tid))] *)
Definition select_trip (tid : uuid) : M (option Trip.t) :=
  db ← read_db; mret (trips db !! tid).

(** The table [trips] after [update(Trip).where(Trip.id == tid).values(...)]. *)
Definition alter_trip (tid : uuid) (values : Trip.t -> Trip.t) (db : DB) : DB :=
  {| trips := alter values tid (trips db); trip_updates := trip_updates db;
     trip_api_usage_daily := trip_api_usage_daily db;
     api_usage_daily := api_usage_daily db;
     api_usage_minute := api_usage_minute db |}.

(** The table [trip_updates] after [insert(TripUpdate).values(...)]. *)
Definition add_update (row : TripUpdate.t) (db : DB) : DB :=
  {| trips := trips db; trip_updates := (trip_updates db ++ [row])%list;
     trip_api_usage_daily := trip_api_usage_daily db;
     api_usage_daily := api_usage_daily db;
     api_usage_minute := api_usage_minute db |}.

(** [db.execute(update(Trip).where(Trip.id == tid).values(...))] *)
Definition update_trip (tid : uuid) (values : Trip.t -> Trip.t) : M unit :=
  db ← read_db; write_db (alter_trip tid values db).

(** [db.execute(insert(TripUpdate).values(trip_id=..., kind=..., payload=...))] *)
Definition insert_update (env : Env) (tid : uuid) (kind : string) (payload : json)
  : M unit :=
  let row := TripUpdate.mk tid kind payload in
  if update_insert_fails env row then raise "insert into trip_updates failed"
  else db ← read_db; write_db (add_update row db).

(** ** The quota ledger *)

Definition put_api_usage_daily (key : string * date) (calls : Z) (db : DB) : DB :=
  {| trips := trips db; trip_updates := trip_updates db;
     trip_api_usage_daily := trip_api_usage_daily db;
     api_usage_daily := <[key := calls]> (api_usage_daily db);
     api_usage_minute := api_usage_minute db |}.

Definition put_api_usage_minute (key : string * datetime) (calls : Z) (db : DB) : DB :=
  {| trips := trips db; trip_updates := trip_updates db;
     trip_api_usage_daily := trip_api_usage_daily db;
     api_usage_daily := api_usage_daily db;
     api_usage_minute := <[key := calls]> (api_usage_minute db) |}.

Definition put_trip_usage_daily (key : uuid * date) (row : TripApiUsageDaily.t) (db : DB)
  : DB :=
  {| trips := trips db; trip_updates := trip_updates db;
     trip_api_usage_daily := <[key := row]> (trip_api_usage_daily db);
     api_usage_daily := api_usage_daily db;
     api_usage_minute := api_usage_minute db |}.

Definition _ensure_usage_row_daily (api_name : string) (d : date) : M unit :=
  db ← read_db;
  match api_usage_daily db !! (api_name, d) with
  | Some _ => mret tt
  | None => write_db (put_api_usage_daily (api_name, d) 0 db)
  end.

Definition _ensure_usage_row_minute (api_name : string) (mb : datetime) : M unit :=
  db ← read_db;
  match api_usage_minute db !! (api_name, mb) with
  | Some _ => mret tt
  | None => write_db (put_api_usage_minute (api_name, mb) 0 db)
  end.

Definition _ensure_trip_usage_daily (trip_id : uuid) (d : date) : M unit :=
  db ← read_db;
  match trip_api_usage_daily db !! (trip_id, d) with
  | Some _ => mret tt
  | None => write_db (put_trip_usage_daily (trip_id, d) (TripApiUsageDaily.mk 0 0) db)
  end.

(** An attribute read on the result of [db.scalar(...)], which is [None] when
    no row matches. *)
Definition attr {A : Type} (row : option A) : M A :=
  match row with
  | Some r => mret r
  | None => raise "AttributeError: 'NoneType' object has no attribute"
  end.

Definition _consume_budget (cfg : Config) (env : Env) (trip : Trip.t)
    (api_name kind : string) (amount : Z) : M (bool * string) :=
  let '(now, d) := budget_clock env api_name in
  let mb := _minute_bucket now in
  let '(daily_limit, per_min, trip_cap) :=
    if String.eqb api_name "owm"
    then (OWM_DAILY_LIMIT cfg, OWM_PER_MIN_LIMIT cfg, Trip.trip_owm_daily_cap trip)
    else (ROUTE_DAILY_LIMIT cfg, ROUTE_PER_MIN_LIMIT cfg, Trip.trip_route_daily_cap trip) in
  _ensure_usage_row_daily api_name d;;
  _ensure_usage_row_minute api_name mb;;
  _ensure_trip_usage_daily (Trip.id trip) d;;
  commit;;
  db ← read_db;
  gd ← attr (api_usage_daily db !! (api_name, d));
  gm ← attr (api_usage_minute db !! (api_name, mb));
  tu ← attr (trip_api_usage_daily db !! (Trip.id trip, d));
  if gd + amount >? daily_limit then
    mret (false, "global_daily_limit " ++ api_name ++ " " ++ PyFormat.str_int gd
                   ++ "/" ++ PyFormat.str_int daily_limit)
  else if gm + amount >? per_min then
    mret (false, "per_min_limit " ++ api_name ++ " " ++ PyFormat.str_int gm
                   ++ "/" ++ PyFormat.str_int per_min ++ " bucket=" ++ Calendar.isoformat mb)
  else if String.eqb api_name "owm" && (TripApiUsageDaily.owm_calls tu + amount >? trip_cap) then
    mret (false, "trip_daily_cap owm " ++ PyFormat.str_int (TripApiUsageDaily.owm_calls tu)
                   ++ "/" ++ PyFormat.str_int trip_cap)
  else if String.eqb api_name "route"
          && (TripApiUsageDaily.route_calls tu + amount >? trip_cap) then
    mret (false, "trip_daily_cap route " ++ PyFormat.str_int (TripApiUsageDaily.route_calls tu)
                   ++ "/" ++ PyFormat.str_int trip_cap)
  else
    write_db
      (put_trip_usage_daily (Trip.id trip, d)
         (if String.eqb api_name "owm"
          then TripApiUsageDaily.mk (TripApiUsageDaily.owm_calls tu + amount)
                                    (TripApiUsageDaily.route_calls tu)
          else TripApiUsageDaily.mk (TripApiUsageDaily.owm_calls tu)
                                    (TripApiUsageDaily.route_calls tu + amount))
         (put_api_usage_minute (api_name, mb) (gm + amount)
            (put_api_usage_daily (api_name, d) (gd + amount) db)));;
    commit;;
    insert_update env (Trip.id trip) "budget_consume"
      (JDict [("api", JStr api_name); ("kind", JStr kind); ("amount", JInt amount)]);;
    commit;;
    mret (true, "ok").

(** ** The recalculator *)

(** [t.status or "🟡"] *)
Definition status_or_yellow (t : Trip.t) : string :=
  match Trip.status t with
  | Some s => if String.eqb s "" then YELLOW else s
  | None => YELLOW
  end.

(** [now + timedelta(seconds=s)] *)
Definition plus_seconds (now : datetime) (s : Z) : datetime := now + timedelta_seconds s.

(** A JSON value as a nullable column holds it: a stored [route_geojson] is
    never [Some JNull]. *)
Definition nullable (j : json) : option json :=
  match j with
  | JNull => None
  | _ => Some j
  end.

Definition json_of_option {A : Type} (f : A -> json) (o : option A) : json :=
  match o with
  | Some a => f a
  | None => JNull
  end.

(** The weather stage of [recalc_trip]: one unit of the [owm] budget, then the
    forecast for the destination at [eta]; it yields
    [(sev, wx, budget_limited)]. *)
Definition recalc_weather (cfg : Config) (env : Env) (tid : uuid) (t : Trip.t)
    (dest_lat dest_lon : float) (eta : datetime) : M (float * json * bool) :=
  '(ok, reason) ← _consume_budget cfg env t "owm" "weather_forecast" 1;
  if negb ok then
    insert_update env tid "budget_denied"
      (JDict [("api", JStr "owm"); ("reason", JStr reason)]);;
    commit;;
    mret (0.0%float,
          JDict [("severity", JFloat 0.0); ("budget_denied", JBool true);
                 ("reason", JStr reason)],
          true)
  else
    log_call (CallForecast dest_lat dest_lon eta);;
    match _forecast (owm_key env) (owm_answer env dest_lat dest_lon) eta with
    | Ok (sev, wx) => mret (sev, wx, false)
    | Raised e => mret (0.0%float, JDict [("severity", JFloat 0.0); ("error", JStr e)], false)
    end.

(** The [payload] of the [recalc_done] row. *)
Definition done_payload (env : Env) (dist_m : option Z) (dur_s : Z) (geom : json)
    (provider : string) (wx : json) (buffer_minutes : Z) (why : string) : json :=
  JDict [("route", JDict [("distance_m", json_of_option JInt dist_m);
                          ("duration_s", JInt dur_s); ("geometry", geom);
                          ("provider", JStr provider)]);
         ("weather", wx);
         ("buffer_minutes", JInt buffer_minutes);
         ("computed_at", JStr (Calendar.isoformat (now env)));
         ("why", JStr why)].

(** The [.values(...)] of the closing update, from the route, the weather
    severity and whether the budget limited the run. *)
Definition done_values (env : Env) (t : Trip.t) (dist_m : option Z) (dur_s : Z)
    (geom : json) (sev : float) (budget_limited : bool) : Trip.t -> Trip.t :=
  let deadline := Trip.deadline_at t in
  let eta := plus_seconds (now env) dur_s in
  let '(risk_pct, status, buffer_minutes, why, suggestion) := _risk deadline eta sev in
  let rec_depart := _recommend_depart (now env) status buffer_minutes in
  let cust_msg := _customer_message status eta deadline why suggestion in
  let next_s := _next_interval_seconds (Trip.policy_mode t) status budget_limited in
  let next_at := plus_seconds (now env) next_s in
  Trip.set_results eta dist_m (Some dur_s) (nullable geom) buffer_minutes risk_pct
    status suggestion rec_depart why cust_msg (now env) next_at
    (if budget_limited then "budget_limited" else "done").

(** [recalc_trip] from the computation of [eta] onwards, once the route
    [(dist_m, dur_s, geom, provider)] is at hand. *)
Definition recalc_finish (cfg : Config) (env : Env) (tid : uuid) (t : Trip.t)
    (dist_m : option Z) (dur_s : Z) (geom : json) (provider : string) : M json :=
  let points := Trip.waypoints t in
  let deadline := Trip.deadline_at t in
  let '(dest_lat, dest_lon) := List.last points (0%float, 0%float) in
  let eta := plus_seconds (now env) dur_s in
  '(sev, wx, budget_limited) ← recalc_weather cfg env tid t dest_lat dest_lon eta;
  let '(risk_pct, status, buffer_minutes, why, suggestion) := _risk deadline eta sev in
  let payload := done_payload env dist_m dur_s geom provider wx buffer_minutes why in
  with_session (
    update_trip tid (done_values env t dist_m dur_s geom sev budget_limited);;
    insert_update env tid "recalc_done" payload;;
    commit);;
  mret (JDict [("ok", JBool true); ("risk_pct", JInt risk_pct); ("status", JStr status);
               ("budget_limited", JBool budget_limited)]).

(** [need_route] of [recalc_trip]. *)
Definition need_route (t : Trip.t) : bool :=
  match Trip.route_duration_s t, Trip.route_geojson t with
  | Some _, Some _ => false
  | _, _ => true
  end.

(** [recalc_trip] once the trip [t] is loaded and marked as running: the
    validation of the waypoints and the route stage. *)
Definition recalc_loaded (cfg : Config) (env : Env) (tid : uuid) (t : Trip.t) : M json :=
  let points := Trip.waypoints t in
  if (length points <? 2)%nat then
    update_trip tid (Trip.set_calc_state "error");;
    insert_update env tid "recalc_error"
      (JDict [("stage", JStr "validate"); ("error", JStr "need >=2 points")]);;
    commit;;
    mret (JDict [("ok", JBool false); ("error", JStr "bad-waypoints")])
  else
    let coords := map (fun p : point => (snd p, fst p)) points in
    if need_route t then
      '(ok, reason) ← _consume_budget cfg env t "route" "route_calc" 1;
      if negb ok then
        update_trip tid (Trip.set_calc_state "budget_limited");;
        insert_update env tid "budget_denied"
          (JDict [("api", JStr "route"); ("reason", JStr reason)]);;
        commit;;
        let next_s := _next_interval_seconds (Trip.policy_mode t) (status_or_yellow t) true in
        update_trip tid (Trip.set_schedule (plus_seconds (now env) next_s) (now env));;
        commit;;
        mret (JDict [("ok", JBool false); ("error", JStr "budget_denied_route");
                     ("reason", JStr reason)])
      else
        log_call (CallRoute coords);;
        match route_answer env coords with
        | Raised e =>
          update_trip tid (Trip.set_calc_state "error");;
          insert_update env tid "recalc_error"
            (JDict [("stage", JStr "route"); ("error", JStr e)]);;
          commit;;
          let next_s :=
            _next_interval_seconds (Trip.policy_mode t) (status_or_yellow t) false in
          update_trip tid (Trip.set_schedule (plus_seconds (now env) next_s) (now env));;
          commit;;
          mret (JDict [("ok", JBool false); ("error", JStr ("route: " ++ e))])
        | Ok (dist_m, dur_s, geom, provider) =>
          recalc_finish cfg env tid t (Some dist_m) dur_s geom provider
        end
    else
      match Trip.route_duration_s t with
      | Some dur_s =>
        recalc_finish cfg env tid t (Trip.route_distance_m t) dur_s
          (json_of_option (fun g => g) (Trip.route_geojson t)) "cached"
      | None => raise "TypeError: int() argument must be a number, not 'NoneType'"
      end.

(** The body of [recalc_trip] under its session [db]. *)
Definition recalc_body (cfg : Config) (env : Env) (tid : uuid) : M json :=
  o ← select_trip tid;
  match o with
  | None => mret (JDict [("ok", JBool false); ("error", JStr "not-found")])
  | Some t =>
    update_trip tid (Trip.set_calc_state "running");;
    insert_update env tid "recalc_running" (JDict [("at", JStr (Calendar.isoformat (now env)))]);;
    commit;;
    recalc_loaded cfg env tid t
  end.

(** The task [worker.tasks.recalc_trip], for a parsed trip identity. *)
Definition recalc_trip (cfg : Config) (env : Env) (tid : uuid) : M json :=
  run_session (recalc_body cfg env tid).

(** ** Reading the counters *)

(** A counter whose row does not exist yet reads 0, as the façade's
    [usage_today] reads it. *)
Definition daily_calls (db : DB) (api_name : string) (d : date) : Z :=
  default 0 (api_usage_daily db !! (api_name, d)).

Definition minute_calls (db : DB) (api_name : string) (mb : datetime) : Z :=
  default 0 (api_usage_minute db !! (api_name, mb)).

Definition trip_owm_calls (db : DB) (tid : uuid) (d : date) : Z :=
  from_option TripApiUsageDaily.owm_calls 0 (trip_api_usage_daily db !! (tid, d)).

Definition trip_route_calls (db : DB) (tid : uuid) (d : date) : Z :=
  from_option TripApiUsageDaily.route_calls 0 (trip_api_usage_daily db !! (tid, d)).

(** The per-trip column that [api_name] selects in [_consume_budget]. *)
Definition trip_calls (db : DB) (tid : uuid) (d : date) (api_name : string) : Z :=
  if String.eqb api_name "owm" then trip_owm_calls db tid d else trip_route_calls db tid d.

(** The limits [_consume_budget] picks for [api_name]. *)
Definition daily_limit_of (cfg : Config) (api_name : string) : Z :=
  if String.eqb api_name "owm" then OWM_DAILY_LIMIT cfg else ROUTE_DAILY_LIMIT cfg.

Definition per_min_limit_of (cfg : Config) (api_name : string) : Z :=
  if String.eqb api_name "owm" then OWM_PER_MIN_LIMIT cfg else ROUTE_PER_MIN_LIMIT cfg.

Definition trip_cap_of (trip : Trip.t) (api_name : string) : Z :=
  if String.eqb api_name "owm" then Trip.trip_owm_daily_cap trip
  else Trip.trip_route_daily_cap trip.

(** One of the three caps would be exceeded by [amount] more calls. *)
Definition cap_exceeded (cfg : Config) (trip : Trip.t) (api_name : string) (amount : Z)
    (d : date) (mb : datetime) (db : DB) : Prop :=
  daily_calls db api_name d + amount > daily_limit_of cfg api_name
  \/ minute_calls db api_name mb + amount > per_min_limit_of cfg api_name
  \/ trip_calls db (Trip.id trip) d api_name + amount > trip_cap_of trip api_name.

(** The rows [_consume_budget] makes sure of before it takes its locks. *)
Definition ensure_rows (api_name : string) (d : date) (mb : datetime) (tid : uuid) (db : DB)
  : DB :=
  put_trip_usage_daily (tid, d)
    (TripApiUsageDaily.mk (trip_owm_calls db tid d) (trip_route_calls db tid d))
    (put_api_usage_minute (api_name, mb) (minute_calls db api_name mb)
       (put_api_usage_daily (api_name, d) (daily_calls db api_name d) db)).

(** The three counters after an approved [_consume_budget]. *)
Definition add_calls (api_name : string) (d : date) (mb : datetime) (tid : uuid)
    (amount : Z) (db : DB) : DB :=
  put_trip_usage_daily (tid, d)
    (if String.eqb api_name "owm"
     then TripApiUsageDaily.mk (trip_owm_calls db tid d + amount) (trip_route_calls db tid d)
     else TripApiUsageDaily.mk (trip_owm_calls db tid d) (trip_route_calls db tid d + amount))
    (put_api_usage_minute (api_name, mb) (minute_calls db api_name mb + amount)
       (put_api_usage_daily (api_name, d) (daily_calls db api_name d + amount) db)).

Definition budget_consume_row (trip : Trip.t) (api_name kind : string) (amount : Z)
  : TripUpdate.t :=
  TripUpdate.mk (Trip.id trip) "budget_consume"
    (JDict [("api", JStr api_name); ("kind", JStr kind); ("amount", JInt amount)]).

(** A session with nothing in flight over the rows [db]. *)
Definition settled (db : DB) (calls : list ext_call) : World :=
  {| committed := db; working := db; ext_calls := calls |}.

(** The four tests of [_consume_budget], in its order: some test fails. *)
Definition budget_denied (cfg : Config) (trip : Trip.t) (api_name : string) (amount : Z)
    (d : date) (mb : datetime) (db : DB) : bool :=
  (daily_calls db api_name d + amount >? daily_limit_of cfg api_name)
  || (minute_calls db api_name mb + amount >? per_min_limit_of cfg api_name)
  || (String.eqb api_name "owm"
      && (trip_owm_calls db (Trip.id trip) d + amount >? trip_cap_of trip api_name))
  || (String.eqb api_name "route"
      && (trip_route_calls db (Trip.id trip) d + amount >? trip_cap_of trip api_name)).

(** The reason [_consume_budget] gives for the first test that fails. *)
Definition denial_reason (cfg : Config) (trip : Trip.t) (api_name : string) (amount : Z)
    (d : date) (mb : datetime) (db : DB) : string :=
  if daily_calls db api_name d + amount >? daily_limit_of cfg api_name then
    "global_daily_limit " ++ api_name ++ " " ++ PyFormat.str_int (daily_calls db api_name d)
      ++ "/" ++ PyFormat.str_int (daily_limit_of cfg api_name)
  else if minute_calls db api_name mb + amount >? per_min_limit_of cfg api_name then
    "per_min_limit " ++ api_name ++ " " ++ PyFormat.str_int (minute_calls db api_name mb)
      ++ "/" ++ PyFormat.str_int (per_min_limit_of cfg api_name)
      ++ " bucket=" ++ Calendar.isoformat mb
  else if String.eqb api_name "owm"
          && (trip_owm_calls db (Trip.id trip) d + amount >? trip_cap_of trip api_name) then
    "trip_daily_cap owm " ++ PyFormat.str_int (trip_owm_calls db (Trip.id trip) d)
      ++ "/" ++ PyFormat.str_int (trip_cap_of trip api_name)
  else
    "trip_daily_cap route " ++ PyFormat.str_int (trip_route_calls db (Trip.id trip) d)
      ++ "/" ++ PyFormat.str_int (trip_cap_of trip api_name).

(** The day and the minute bucket of a call of [_consume_budget]. *)
Definition budget_day (env : Env) (api_name : string) : date := snd (budget_clock env api_name).
Definition budget_minute (env : Env) (api_name : string) : datetime :=
  _minute_bucket (fst (budget_clock env api_name)).

(** What a call of [_consume_budget] returns and leaves, in closed form: a
    denial leaves the ensured rows, an approval the advanced counters, with
    the audit row unless its insert raises. *)
Definition consume_outcome (cfg : Config) (env : Env) (trip : Trip.t)
    (api_name kind : string) (amount : Z) (w : World) : outcome (bool * string) * World :=
  let d := budget_day env api_name in
  let mb := budget_minute env api_name in
  let db := working w in
  if budget_denied cfg trip api_name amount d mb db then
    (Ok (false, denial_reason cfg trip api_name amount d mb db),
     settled (ensure_rows api_name d mb (Trip.id trip) db) (ext_calls w))
  else if update_insert_fails env (budget_consume_row trip api_name kind amount) then
    (Raised "insert into trip_updates failed",
     settled (add_calls api_name d mb (Trip.id trip) amount db) (ext_calls w))
  else
    (Ok (true, "ok"),
     settled (add_update (budget_consume_row trip api_name kind amount)
                (add_calls api_name d mb (Trip.id trip) amount db))
       (ext_calls w)).

(** ** Statements about the ledger *)

(** Every counter reads the same in [db'] as in [db]. *)
Definition same_counters (db db' : DB) : Prop :=
  (forall a d, daily_calls db' a d = daily_calls db a d)
  /\ (forall a mb, minute_calls db' a mb = minute_calls db a mb)
  /\ (forall tid d, trip_owm_calls db' tid d = trip_owm_calls db tid d)
  /\ (forall tid d, trip_route_calls db' tid d = trip_route_calls db tid d).


(** The arguments of one call of [_consume_budget], with what it meets. *)
Record consume_args : Type := {
  ca_env : Env;
  ca_trip : Trip.t;
  ca_api_name : string;
  ca_kind : string;
  ca_amount : Z
}.

(** One call made under a session of its own, whatever it returns or raises. *)
Definition consume_call (cfg : Config) (w : World) (c : consume_args) : World :=
  snd (run_session
         (_consume_budget cfg (ca_env c) (ca_trip c) (ca_api_name c) (ca_kind c) (ca_amount c))
         w).

Definition consume_calls (cfg : Config) (calls : list consume_args) (w : World) : World :=
  fold_left (consume_call cfg) calls w.


(** ** Statements about the recalculator *)

(** The audit rows a recalculation appends. *)
Definition running_row (env : Env) (tid : uuid) : TripUpdate.t :=
  TripUpdate.mk tid "recalc_running" (JDict [("at", JStr (Calendar.isoformat (now env)))]).

Definition validate_error_row (tid : uuid) : TripUpdate.t :=
  TripUpdate.mk tid "recalc_error"
    (JDict [("stage", JStr "validate"); ("error", JStr "need >=2 points")]).

Definition budget_denied_row (tid : uuid) (api_name reason : string) : TripUpdate.t :=
  TripUpdate.mk tid "budget_denied" (JDict [("api", JStr api_name); ("reason", JStr reason)]).

(** [kind] is the kind of the row [u]. *)
Definition has_kind (kind : string) (u : TripUpdate.t) : bool :=
  String.eqb (TripUpdate.kind u) kind.

(** The rows of kind [kind] among [rows]. *)
Definition rows_of_kind (kind : string) (rows : list TripUpdate.t) : list TripUpdate.t :=
  List.filter (has_kind kind) rows.

(** What the forecast client yields to the recalculator: its answer, or
    severity 0 with the error it raised. *)
Definition weather_of_forecast (env : Env) (lat lon : float) (eta : datetime)
  : float * json * bool :=
  match _forecast (owm_key env) (owm_answer env lat lon) eta with
  | Ok (sev, wx) => (sev, wx, false)
  | Raised e => (0.0%float, JDict [("severity", JFloat 0.0); ("error", JStr e)], false)
  end.

(** [recalc_weather] in closed form. *)
Definition weather_outcome (cfg : Config) (env : Env) (tid : uuid) (t : Trip.t)
    (dest_lat dest_lon : float) (eta : datetime) (w : World)
  : outcome (float * json * bool) * World :=
  let d := budget_day env "owm" in
  let mb := budget_minute env "owm" in
  let db := working w in
  if budget_denied cfg t "owm" 1 d mb db then
    let reason := denial_reason cfg t "owm" 1 d mb db in
    if update_insert_fails env (budget_denied_row tid "owm" reason) then
      (Raised "insert into trip_updates failed",
       settled (ensure_rows "owm" d mb (Trip.id t) db) (ext_calls w))
    else
      (Ok (0.0%float,
           JDict [("severity", JFloat 0.0); ("budget_denied", JBool true);
                  ("reason", JStr reason)],
           true),
       settled (add_update (budget_denied_row tid "owm" reason)
                  (ensure_rows "owm" d mb (Trip.id t) db))
         (ext_calls w))
  else if update_insert_fails env (budget_consume_row t "owm" "weather_forecast" 1) then
    (Raised "insert into trip_updates failed",
     settled (add_calls "owm" d mb (Trip.id t) 1 db) (ext_calls w))
  else
    (Ok (weather_of_forecast env dest_lat dest_lon eta),
     settled (add_update (budget_consume_row t "owm" "weather_forecast" 1)
                (add_calls "owm" d mb (Trip.id t) 1 db))
       (ext_calls w ++ [CallForecast dest_lat dest_lon eta])%list).

(** The [recalc_done] row of a run. *)
Definition done_row (env : Env) (tid : uuid) (t : Trip.t) (dist_m : option Z) (dur_s : Z)
    (geom : json) (provider : string) (sev : float) (wx : json) : TripUpdate.t :=
  let '(_, _, buffer_minutes, why, _) :=
    _risk (Trip.deadline_at t) (plus_seconds (now env) dur_s) sev in
  TripUpdate.mk tid "recalc_done"
    (done_payload env dist_m dur_s geom provider wx buffer_minutes why).

(** The value a completed run returns. *)
Definition done_result (env : Env) (t : Trip.t) (dur_s : Z) (sev : float)
    (budget_limited : bool) : json :=
  let '(risk_pct, status, _, _, _) :=
    _risk (Trip.deadline_at t) (plus_seconds (now env) dur_s) sev in
  JDict [("ok", JBool true); ("risk_pct", JInt risk_pct); ("status", JStr status);
         ("budget_limited", JBool budget_limited)].

(** [recalc_finish] in closed form. *)
Definition finish_outcome (cfg : Config) (env : Env) (tid : uuid) (t : Trip.t)
    (dist_m : option Z) (dur_s : Z) (geom : json) (provider : string) (w : World)
  : outcome json * World :=
  let dest := List.last (Trip.waypoints t) (0%float, 0%float) in
  let eta := plus_seconds (now env) dur_s in
  match weather_outcome cfg env tid t (fst dest) (snd dest) eta w with
  | (Raised e, w1) => (Raised e, w1)
  | (Ok (sev, wx, budget_limited), w1) =>
    let row := done_row env tid t dist_m dur_s geom provider sev wx in
    if update_insert_fails env row then (Raised "insert into trip_updates failed", w1)
    else
      (Ok (done_result env t dur_s sev budget_limited),
       {| committed :=
            add_update row
              (alter_trip tid (done_values env t dist_m dur_s geom sev budget_limited)
                 (committed w1));
          working := working w1; ext_calls := ext_calls w1 |})
  end.

Definition route_error_row (tid : uuid) (e : string) : TripUpdate.t :=
  TripUpdate.mk tid "recalc_error" (JDict [("stage", JStr "route"); ("error", JStr e)]).

(** The session of [w] with the rows [db] in flight. *)
Definition pending (db : DB) (w : World) : World :=
  {| committed := committed w; working := db; ext_calls := ext_calls w |}.

(** [recalc_loaded] in closed form. *)
Definition loaded_outcome (cfg : Config) (env : Env) (tid : uuid) (t : Trip.t) (w : World)
  : outcome json * World :=
  let db := working w in
  if (length (Trip.waypoints t) <? 2)%nat then
    if update_insert_fails env (validate_error_row tid) then
      (Raised "insert into trip_updates failed",
       pending (alter_trip tid (Trip.set_calc_state "error") db) w)
    else
      (Ok (JDict [("ok", JBool false); ("error", JStr "bad-waypoints")]),
       settled (add_update (validate_error_row tid)
                  (alter_trip tid (Trip.set_calc_state "error") db))
         (ext_calls w))
  else if need_route t then
    let d := budget_day env "route" in
    let mb := budget_minute env "route" in
    if budget_denied cfg t "route" 1 d mb db then
      let reason := denial_reason cfg t "route" 1 d mb db in
      let db0 := ensure_rows "route" d mb (Trip.id t) db in
      let db1 := alter_trip tid (Trip.set_calc_state "budget_limited") db0 in
      if update_insert_fails env (budget_denied_row tid "route" reason) then
        (Raised "insert into trip_updates failed",
         {| committed := db0; working := db1; ext_calls := ext_calls w |})
      else
        (Ok (JDict [("ok", JBool false); ("error", JStr "budget_denied_route");
                    ("reason", JStr reason)]),
         settled
           (alter_trip tid
              (Trip.set_schedule
                 (plus_seconds (now env)
                    (_next_interval_seconds (Trip.policy_mode t) (status_or_yellow t) true))
                 (now env))
              (add_update (budget_denied_row tid "route" reason) db1))
           (ext_calls w))
    else if update_insert_fails env (budget_consume_row t "route" "route_calc" 1) then
      (Raised "insert into trip_updates failed",
       settled (add_calls "route" d mb (Trip.id t) 1 db) (ext_calls w))
    else
      let db1 := add_update (budget_consume_row t "route" "route_calc" 1)
                   (add_calls "route" d mb (Trip.id t) 1 db) in
      let coords := map (fun p : point => (snd p, fst p)) (Trip.waypoints t) in
      let calls := (ext_calls w ++ [CallRoute coords])%list in
      match route_answer env coords with
      | Raised e =>
        let db2 := alter_trip tid (Trip.set_calc_state "error") db1 in
        if update_insert_fails env (route_error_row tid e) then
          (Raised "insert into trip_updates failed",
           {| committed := db1; working := db2; ext_calls := calls |})
        else
          (Ok (JDict [("ok", JBool false); ("error", JStr ("route: " ++ e))]),
           settled
             (alter_trip tid
                (Trip.set_schedule
                   (plus_seconds (now env)
                      (_next_interval_seconds (Trip.policy_mode t) (status_or_yellow t)
                         false))
                   (now env))
                (add_update (route_error_row tid e) db2))
             calls)
      | Ok (dist_m, dur_s, geom, provider) =>
        finish_outcome cfg env tid t (Some dist_m) dur_s geom provider (settled db1 calls)
      end
  else
    match Trip.route_duration_s t with
    | Some dur_s =>
      finish_outcome cfg env tid t (Trip.route_distance_m t) dur_s
        (json_of_option (fun g => g) (Trip.route_geojson t)) "cached" w
    | None => (Raised "TypeError: int() argument must be a number, not 'NoneType'", w)
    end.

(** [recalc_trip] in closed form. *)
Definition recalc_outcome (cfg : Config) (env : Env) (tid : uuid) (w : World)
  : outcome json * World :=
  let db := committed w in
  match trips db !! tid with
  | None =>
    (Ok (JDict [("ok", JBool false); ("error", JStr "not-found")]), settled db (ext_calls w))
  | Some t =>
    if update_insert_fails env (running_row env tid) then
      (Raised "insert into trip_updates failed", settled db (ext_calls w))
    else
      let '(r, w') :=
        loaded_outcome cfg env tid t
          (settled (add_update (running_row env tid)
                      (alter_trip tid (Trip.set_calc_state "running") db))
             (ext_calls w)) in
      (r, settled (committed w') (ext_calls w'))
  end.

(** The calls to the Route Client among [calls]. *)
Definition is_route_call (c : ext_call) : bool :=
  match c with
  | CallRoute _ => true
  | CallForecast _ _ _ => false
  end.

Definition route_calls_made (calls : list ext_call) : list ext_call :=
  List.filter is_route_call calls.

(** The rows that record a consumed unit of the route budget. *)
Definition consumes_route (u : TripUpdate.t) : bool :=
  has_kind "budget_consume" u
  && match json_get "api" (TripUpdate.payload u) with
     | Some (JStr a) => String.eqb a "route"
     | _ => false
     end.

(** No route counter reads differently in [db'] than in [db], and no row
    records a consumed route unit in [db'] that [db] does not hold. *)
Definition route_budget_untouched (db db' : DB) : Prop :=
  (forall d, daily_calls db' "route" d = daily_calls db "route" d)
  /\ (forall mb, minute_calls db' "route" mb = minute_calls db "route" mb)
  /\ (forall tid d, trip_route_calls db' tid d = trip_route_calls db tid d)
  /\ List.filter consumes_route (trip_updates db')
     = List.filter consumes_route (trip_updates db).

(** ** Statements about the risk model and the forecast *)







(** ** A trip, a store and an environment to run the definitions on *)

(** 2026-11-04T00:00:00Z *)
Definition demo_now : datetime := 20761 * 86400000000.

(** A trip as the façade creates it: two waypoints, the deadline six hours
    away, the default policy and caps, no route yet. *)
Definition demo_trip : Trip.t :=
  Trip.mk 7%N (demo_now + 6 * 3600 * 1000000) [(1.0, 2.0); (3.0, 4.0)]%float
    None None None None None None None None None None None
    "balanced" 30 15 (Some demo_now) None "queued".

Definition demo_db : DB :=
  {| trips := {[ 7%N := demo_trip ]}; trip_updates := []; trip_api_usage_daily := ∅;
     api_usage_daily := ∅; api_usage_minute := ∅ |}.

Definition demo_slot (ts : Z) : slot :=
  {| dt := ts; wind_speed := Some 1.5%float; rain_3h := None; snow_3h := None;
     clouds_all := Some 50%float; weather_main := Some "Clouds" |}.

(** Both providers answer and every insert succeeds. *)
Definition demo_env : Env :=
  {| now := demo_now;
     budget_clock := fun _ => (demo_now + 5, 20761);
     route_answer := fun _ => Ok (1000, 3600, JDict [("type", JStr "LineString")], "osrm");
     owm_key := Some "k";
     owm_answer := fun _ _ => Ok [demo_slot 1793750000; demo_slot 1793760000];
     update_insert_fails := fun _ => false |}.

(** One call of [_consume_budget] for the trip, one unit of [api_name]. *)
Definition demo_call (api_name : string) : consume_args :=
  {| ca_env := demo_env; ca_trip := demo_trip; ca_api_name := api_name;
     ca_kind := "demo"; ca_amount := 1 |}.

(** The store with the route counter of the current minute at its limit. *)
Definition demo_db_route_minute_full : DB :=
  {| trips := {[ 7%N := demo_trip ]}; trip_updates := []; trip_api_usage_daily := ∅;
     api_usage_daily := ∅;
     api_usage_minute := {[ ("route", demo_now) := 20 ]} |}.

(** A trip with a single waypoint, scheduled by the scanner one minute ahead. *)
Definition demo_trip_one_point : Trip.t :=
  Trip.mk 7%N (demo_now + 6 * 3600 * 1000000) [(1.0, 2.0)]%float
    None None None None None None None None None None None
    "balanced" 30 15 (Some (demo_now + 60 * 1000000)) None "queued".

Definition demo_db_one_point : DB :=
  {| trips := {[ 7%N := demo_trip_one_point ]}; trip_updates := [];
     trip_api_usage_daily := ∅; api_usage_daily := ∅; api_usage_minute := ∅ |}.

(** The environment in which the insert of a [budget_consume] row raises. *)
Definition demo_env_audit_fails : Env :=
  {| now := demo_now;
     budget_clock := fun _ => (demo_now + 5, 20761);
     route_answer := fun _ => Ok (1000, 3600, JDict [("type", JStr "LineString")], "osrm");
     owm_key := Some "k";
     owm_answer := fun _ _ => Ok [demo_slot 1793750000; demo_slot 1793760000];
     update_insert_fails := has_kind "budget_consume" |}.

(** The trip after a first recalculation: its route is stored. *)
Definition demo_trip_cached : Trip.t :=
  Trip.mk 7%N (demo_now + 6 * 3600 * 1000000) [(1.0, 2.0); (3.0, 4.0)]%float
    None (Some 1000) (Some 3600) (Some (JDict [("type", JStr "LineString")]))
    None None None None None None None
    "balanced" 30 15 (Some demo_now) None "queued".

Definition demo_db_cached : DB :=
  {| trips := {[ 7%N := demo_trip_cached ]}; trip_updates := [];
     trip_api_usage_daily := ∅; api_usage_daily := ∅; api_usage_minute := ∅ |}.

(** The store with the [owm] counter of the current minute at its limit. *)
Definition demo_db_owm_minute_full : DB :=
  {| trips := {[ 7%N := demo_trip_cached ]}; trip_updates := [];
     trip_api_usage_daily := ∅; api_usage_daily := ∅;
     api_usage_minute := {[ ("owm", demo_now) := 30 ]} |}.

(** A run reports that the budget limited it: [budget_limited] is true in
    what it returns, or its error is [budget_denied_route]. *)
Definition budget_limited_result (r : json) : Prop :=
  json_get "budget_limited" r = Some (JBool true)
  \/ json_get "error" r = Some (JStr "budget_denied_route").

(** ** The task queue and the scanner *)

(** The scanner [scan_due_trips] and the handlers of the façade send jobs to
    the queue of the worker; a job is kept by the identity of its trip. *)

(** [SCAN_INTERVAL_SECONDS] when the environment sets none. *)
Definition default_scan_interval : Z := 60.

(** The broker of the task queue: whether [celery.send_task] raises for the
    job of a trip. *)
Record Broker : Type := {
  send_task_fails : uuid -> bool
}.

(** The session, and the jobs [worker.tasks.recalc_trip] sent to the queue so
    far, each by its argument. *)
Record System : Type := {
  world : World;
  jobs : list uuid
}.

(** A task or a handler: a computation over the session and the queue. *)
Definition Proc (A : Type) : Type := System -> outcome A * System.

#[global] Instance Proc_ret : MRet Proc := fun A a s => (Ok a, s).
#[global] Instance Proc_bind : MBind Proc := fun A B f m s =>
  match m s with
  | (Ok a, s') => f a s'
  | (Raised e, s') => (Raised e, s')
  end.

(** A statement on the session [db]. *)
Definition on_db {A : Type} (m : M A) : Proc A := fun s =>
  let '(r, w) := m (world s) in (r, {| world := w; jobs := jobs s |}).

(** [with Session() as db: body] at the top of a task or a handler: as
    [run_session], around a body that also sends jobs. *)
Definition in_session {A : Type} (body : Proc A) : Proc A := fun s =>
  let w := world s in
  let '(r, s') := body {| world := {| committed := committed w; working := committed w;
                                      ext_calls := ext_calls w |};
                          jobs := jobs s |} in
  (r, {| world := settled (committed (world s')) (ext_calls (world s')); jobs := jobs s' |}).

(** [celery.send_task("worker.tasks.recalc_trip", args=[str(tid)])] *)
Definition send_task (broker : Broker) (tid : uuid) : Proc unit := fun s =>
  if send_task_fails broker tid then (Raised "send_task failed", s)
  else (Ok tt, {| world := world s; jobs := (jobs s ++ [tid])%list |}).

(** [.values(calc_state="queued", next_calc_at=next)] *)
Definition set_queued (next : datetime) (x : Trip.t) : Trip.t :=
  Trip.mk (Trip.id x) (Trip.deadline_at x) (Trip.waypoints x) (Trip.eta_at x)
    (Trip.route_distance_m x) (Trip.route_duration_s x) (Trip.route_geojson x)
    (Trip.buffer_minutes x) (Trip.delay_risk_pct x) (Trip.status x) (Trip.suggestion x)
    (Trip.recommended_depart_at x) (Trip.why x) (Trip.customer_message x)
    (Trip.policy_mode x) (Trip.trip_owm_daily_cap x) (Trip.trip_route_daily_cap x)
    (Some next) (Trip.last_calc_at x) "queued".

(** The states a trip is picked up from. *)
Definition scan_states : list string := ["idle"; "done"; "budget_limited"; "error"].

(** The [where] clause of the scanner's query. *)
Definition is_due (now : datetime) (t : Trip.t) : bool :=
  match Trip.next_calc_at t with
  | Some next => (next <=? now) && existsb (String.eqb (Trip.calc_state t)) scan_states
  | None => false
  end.

(** The order of [order_by(Trip.next_calc_at.asc())] on rows that have a
    [next_calc_at]. *)
Definition calc_time (t : Trip.t) : datetime := default 0 (Trip.next_calc_at t).
Definition calc_before (t1 t2 : Trip.t) : Prop := calc_time t1 <= calc_time t2.

#[global] Instance calc_before_dec : RelDecision calc_before :=
  fun t1 t2 => decide (calc_time t1 <= calc_time t2).

(** The rows of the scanner's query: the due trips, the oldest
    [next_calc_at] first, 50 at most. Rows with the same [next_calc_at] come
    in the order of the table, which the database leaves open. *)
Definition select_due (now : datetime) (db : DB) : list Trip.t :=
  take 50 (merge_sort calc_before (List.filter (is_due now) (map snd (map_to_list (trips db))))).

(** One turn of the scanner's loop for the row [t]. *)
Definition queue_trip (env : Env) (broker : Broker) (interval : Z) (t : Trip.t) : Proc unit :=
  on_db (update_trip (Trip.id t) (set_queued (plus_seconds (now env) interval));;
         insert_update env (Trip.id t) "recalc_queued" (JDict [("by", JStr "scheduler")]);;
         commit);;
  send_task broker (Trip.id t).

Fixpoint scan_rows (env : Env) (broker : Broker) (interval : Z) (rows : list Trip.t)
  : Proc unit :=
  match rows with
  | [] => mret tt
  | t :: rest => queue_trip env broker interval t;; scan_rows env broker interval rest
  end.

(** The task [worker.tasks.scan_due_trips]; [interval] is
    [SCAN_INTERVAL_SECONDS]. *)
Definition scan_due_trips (env : Env) (broker : Broker) (interval : Z) : Proc json :=
  rows ← in_session (
    rows ← on_db (db ← read_db; mret (select_due (now env) db));
    scan_rows env broker interval rows;;
    mret rows);
  mret (JDict [("ok", JBool true); ("queued", JInt (Z.of_nat (length rows)))]).

(** ** The façade ([services/api/src/main.py])

    The handlers that read or write the store are embedded over the rows of
    the worker: the columns [created_at] and [updated_at], which no statement
    sets, are left out, and a handler returns the row that [_to_out] renders.
    The body of a request is what its pydantic model has accepted. *)

(** [HTTPException(status_code, detail)], by its text. *)
Definition http_exception (status : Z) (detail : string) : string :=
  PyFormat.str_int status ++ ": " ++ detail.

Definition policy_modes : list string := ["conservative"; "balanced"; "aggressive"].

Definition _validate_mode (m : string) : outcome unit :=
  if existsb (String.eqb m) policy_modes then Ok tt
  else Raised (http_exception 400 "policy_mode must be conservative|balanced|aggressive").

(** A result or an exception, inside a session and outside. *)
Definition db_result {A : Type} (o : outcome A) : M A := fun w => (o, w).
Definition result {A : Type} (o : outcome A) : Proc A := fun s => (o, s).

Module TripCreateIn.

Record t : Type := mk {
  deadline_at : datetime;
  waypoints : list point;
  policy_mode : string;
  trip_owm_daily_cap : Z;
  trip_route_daily_cap : Z
}.

(** What the model accepts: [waypoints] has [min_length=2]. *)
Definition valid (body : t) : Prop := (2 <= length (waypoints body))%nat.

End TripCreateIn.

Module TripPolicyPatch.

Record t : Type := mk {
  policy_mode : option string;
  trip_owm_daily_cap : option Z;
  trip_route_daily_cap : option Z
}.

End TripPolicyPatch.

(** The table [trips] with one row more. *)
Definition put_trip (row : Trip.t) (db : DB) : DB :=
  {| trips := <[Trip.id row := row]> (trips db); trip_updates := trip_updates db;
     trip_api_usage_daily := trip_api_usage_daily db;
     api_usage_daily := api_usage_daily db;
     api_usage_minute := api_usage_minute db |}.

(** [db.execute(insert(Trip).values(...))]: the primary key must be new. *)
Definition insert_trip (row : Trip.t) : M unit :=
  db ← read_db;
  match trips db !! Trip.id row with
  | Some _ => raise "IntegrityError: duplicate key value violates unique constraint"
  | None => write_db (put_trip row db)
  end.

(** The row [create_trip] inserts; the columns it does not name take their
    defaults. *)
Definition created_trip (env : Env) (tid : uuid) (body : TripCreateIn.t) : Trip.t :=
  Trip.mk tid (TripCreateIn.deadline_at body) (TripCreateIn.waypoints body)
    None None None None None None None None None None None
    (TripCreateIn.policy_mode body) (TripCreateIn.trip_owm_daily_cap body)
    (TripCreateIn.trip_route_daily_cap body) (Some (now env)) None "queued".

Definition created_payload (body : TripCreateIn.t) : json :=
  JDict [("deadline_at", JStr (Calendar.isoformat (TripCreateIn.deadline_at body)));
         ("waypoints_n", JInt (Z.of_nat (length (TripCreateIn.waypoints body))));
         ("policy_mode", JStr (TripCreateIn.policy_mode body))].

(** The closing [with Session() as db] of a handler: the row as it is now. *)
Definition read_back (trip_id : uuid) : Proc Trip.t :=
  in_session (on_db (t ← select_trip trip_id; attr t)).

(** [POST /api/trips]; [tid] is the identity [uuid.uuid4()] draws. *)
Definition create_trip (env : Env) (broker : Broker) (tid : uuid) (body : TripCreateIn.t)
  : Proc Trip.t :=
  result (_validate_mode (TripCreateIn.policy_mode body));;
  in_session (on_db (
    insert_trip (created_trip env tid body);;
    insert_update env tid "created" (created_payload body);;
    insert_update env tid "recalc_queued" (JDict [("by", JStr "create")]);;
    commit));;
  send_task broker tid;;
  read_back tid.

(** [POST /api/trips/{trip_id}/recalc] *)
Definition recalc_now (env : Env) (broker : Broker) (trip_id : uuid) : Proc Trip.t :=
  in_session (on_db (
    t ← select_trip trip_id;
    match t with
    | None => raise (http_exception 404 "not found")
    | Some _ =>
      update_trip trip_id (set_queued (now env));;
      insert_update env trip_id "recalc_queued" (JDict [("by", JStr "user")]);;
      commit
    end));;
  send_task broker trip_id;;
  read_back trip_id.

(** [vals] of [patch_policy], as the payload of the [policy_updated] row. *)
Definition patch_vals (body : TripPolicyPatch.t) : list (string * json) :=
  (match TripPolicyPatch.policy_mode body with
   | Some m => [("policy_mode", JStr m)]
   | None => []
   end
   ++ match TripPolicyPatch.trip_owm_daily_cap body with
      | Some c => [("trip_owm_daily_cap", JInt c)]
      | None => []
      end
   ++ match TripPolicyPatch.trip_route_daily_cap body with
      | Some c => [("trip_route_daily_cap", JInt c)]
      | None => []
      end)%list.

(** The [.values] of the update: the fields the request gives. *)
Definition set_policy (body : TripPolicyPatch.t) (x : Trip.t) : Trip.t :=
  Trip.mk (Trip.id x) (Trip.deadline_at x) (Trip.waypoints x) (Trip.eta_at x)
    (Trip.route_distance_m x) (Trip.route_duration_s x) (Trip.route_geojson x)
    (Trip.buffer_minutes x) (Trip.delay_risk_pct x) (Trip.status x) (Trip.suggestion x)
    (Trip.recommended_depart_at x) (Trip.why x) (Trip.customer_message x)
    (default (Trip.policy_mode x) (TripPolicyPatch.policy_mode body))
    (default (Trip.trip_owm_daily_cap x) (TripPolicyPatch.trip_owm_daily_cap body))
    (default (Trip.trip_route_daily_cap x) (TripPolicyPatch.trip_route_daily_cap body))
    (Trip.next_calc_at x) (Trip.last_calc_at x) (Trip.calc_state x).

(** [PATCH /api/trips/{trip_id}/policy] *)
Definition patch_policy (env : Env) (trip_id : uuid) (body : TripPolicyPatch.t)
  : Proc Trip.t :=
  unchanged ← in_session (on_db (
    t ← select_trip trip_id;
    match t with
    | None => raise (http_exception 404 "not found")
    | Some t =>
      db_result (match TripPolicyPatch.policy_mode body with
                 | Some m => _validate_mode m
                 | None => Ok tt
                 end);;
      match patch_vals body with
      | [] => mret (Some t)
      | vals =>
        update_trip trip_id (set_policy body);;
        insert_update env trip_id "policy_updated" (JDict vals);;
        commit;;
        mret None
      end
    end));
  match unchanged with
  | Some t => mret t
  | None => read_back trip_id
  end.

(** [GET /api/trips/{trip_id}]: the row, its 60 latest events, the latest
    first, and the usage of the day [today] of the façade's clock: the two
    counters of the trip and its two caps. The events are ordered by their
    [at], the time of their transaction; the two events that [create_trip]
    inserts in one transaction come here the later insert first. *)
Definition get_trip (today : date) (trip_id : uuid)
  : Proc (Trip.t * list TripUpdate.t * (Z * Z * Z * Z)) :=
  in_session (on_db (
    t ← select_trip trip_id;
    match t with
    | None => raise (http_exception 404 "not found")
    | Some t =>
      db ← read_db;
      let ups := take 60 (rev (List.filter (fun u => N.eqb (TripUpdate.trip_id u) trip_id)
                                 (trip_updates db))) in
      let u := trip_api_usage_daily db !! (trip_id, today) in
      mret (t, ups,
            (from_option TripApiUsageDaily.owm_calls 0 u,
             from_option TripApiUsageDaily.route_calls 0 u,
             Trip.trip_owm_daily_cap t, Trip.trip_route_daily_cap t))
    end)).

(** ** Further statements about the ledger and the forecast *)

(** No counter reads less in [db'] than in [db]. *)
Definition counters_le (db db' : DB) : Prop :=
  (forall a d, daily_calls db a d <= daily_calls db' a d)
  /\ (forall a mb, minute_calls db a mb <= minute_calls db' a mb)
  /\ (forall tid d, trip_owm_calls db tid d <= trip_owm_calls db' tid d)
  /\ (forall tid d, trip_route_calls db tid d <= trip_route_calls db' tid d).

(** [x] is a number of [[0, 1]]; a NaN is not. *)
Definition in_unit_interval (x : float) : Prop :=
  PrimFloat.leb 0 x = true /\ PrimFloat.leb x 1 = true.

(** ** Further statements about the recalculator *)

(** The identity of a row of [trips] is its key. *)
Definition keyed (db : DB) : Prop :=
  forall k t, trips db !! k = Some t -> Trip.id t = k.

(** The fields of a trip that its owner sets, and a recalculation reads. *)
Definition same_request (t t' : Trip.t) : Prop :=
  Trip.id t' = Trip.id t
  /\ Trip.deadline_at t' = Trip.deadline_at t
  /\ Trip.waypoints t' = Trip.waypoints t
  /\ Trip.policy_mode t' = Trip.policy_mode t
  /\ Trip.trip_owm_daily_cap t' = Trip.trip_owm_daily_cap t
  /\ Trip.trip_route_daily_cap t' = Trip.trip_route_daily_cap t.

(** From [db] to [db'] no trip but [tid] has changed, none has appeared or
    gone, the trip [tid] has kept what its owner set, and the event log has
    grown by rows of the trip [tid]. *)
Definition touches_only (tid : uuid) (db db' : DB) : Prop :=
  (forall k, k <> tid -> trips db' !! k = trips db !! k)
  /\ match trips db !! tid, trips db' !! tid with
     | Some t, Some t' => same_request t t'
     | None, None => True
     | _, _ => False
     end
  /\ exists rows, trip_updates db' = (trip_updates db ++ rows)%list
                  /\ Forall (fun u => TripUpdate.trip_id u = tid) rows.

(** The calls to the Forecast Client among [calls]. *)
Definition is_forecast_call (c : ext_call) : bool :=
  match c with
  | CallRoute _ => false
  | CallForecast _ _ _ => true
  end.

Definition forecast_calls_made (calls : list ext_call) : list ext_call :=
  List.filter is_forecast_call calls.

(** From the rows [db] and the calls [calls] to the rows [db'] and the calls
    [calls'], the run has made [new] calls more, one to each provider at
    most, and for each call the daily and the minute counter of its API, read
    at the day and the minute of the ledger's clock, have advanced. *)
Definition calls_paid_for (env : Env) (db : DB) (calls : list ext_call)
    (db' : DB) (calls' : list ext_call) : Prop :=
  exists new,
    calls' = (calls ++ new)%list
    /\ (length (route_calls_made new) <= 1)%nat
    /\ (length (forecast_calls_made new) <= 1)%nat
    /\ Z.of_nat (length (route_calls_made new))
       <= daily_calls db' "route" (budget_day env "route")
          - daily_calls db "route" (budget_day env "route")
    /\ Z.of_nat (length (route_calls_made new))
       <= minute_calls db' "route" (budget_minute env "route")
          - minute_calls db "route" (budget_minute env "route")
    /\ Z.of_nat (length (forecast_calls_made new))
       <= daily_calls db' "owm" (budget_day env "owm")
          - daily_calls db "owm" (budget_day env "owm")
    /\ Z.of_nat (length (forecast_calls_made new))
       <= minute_calls db' "owm" (budget_minute env "owm")
          - minute_calls db "owm" (budget_minute env "owm").


(** ** Statements about the scanner and the façade *)

(** The audit row of a trip the scanner queues. *)
Definition scan_row (t : Trip.t) : TripUpdate.t :=
  TripUpdate.mk (Trip.id t) "recalc_queued" (JDict [("by", JStr "scheduler")]).

(** The rows after the scanner has queued the trips [rows], due at [next]. *)
Definition queued_db (next : datetime) (rows : list Trip.t) (db : DB) : DB :=
  fold_left (fun db t => add_update (scan_row t) (alter_trip (Trip.id t) (set_queued next) db))
    rows db.

(** The audit rows of the façade. *)
Definition created_row (tid : uuid) (body : TripCreateIn.t) : TripUpdate.t :=
  TripUpdate.mk tid "created" (created_payload body).

Definition queued_by_row (tid : uuid) (who : string) : TripUpdate.t :=
  TripUpdate.mk tid "recalc_queued" (JDict [("by", JStr who)]).

Definition policy_row (tid : uuid) (body : TripPolicyPatch.t) : TripUpdate.t :=
  TripUpdate.mk tid "policy_updated" (JDict (patch_vals body)).

(** The system with nothing in flight and the jobs [js] sent. *)
Definition at_rest (db : DB) (calls : list ext_call) (js : list uuid) : System :=
  {| world := settled db calls; jobs := js |}.

(** A trip as the façade accepts it: one of the three policy modes, two
    waypoints or more. *)
Definition well_formed (t : Trip.t) : Prop :=
  List.In (Trip.policy_mode t) policy_modes /\ (2 <= length (Trip.waypoints t))%nat.

Definition all_well_formed (db : DB) : Prop :=
  forall k t, trips db !! k = Some t -> well_formed t.

(** The worker takes the jobs [runs] off the queue, the oldest first; each
    comes with what its run meets. *)
Definition run_jobs (cfg : Config) (runs : list (Env * uuid)) (w : World) : World :=
  fold_left (fun w run => snd (recalc_trip cfg (fst run) (snd run) w)) runs w.

(** The trip as a run that returned at [now env] leaves it: stamped, in a
    state the scanner picks up, and due again within the hour. *)
Definition rescheduled (env : Env) (t : Trip.t) : Prop :=
  Trip.last_calc_at t = Some (now env)
  /\ (Trip.calc_state t = "done" \/ Trip.calc_state t = "budget_limited"
      \/ Trip.calc_state t = "error")
  /\ exists next,
       Trip.next_calc_at t = Some next
       /\ now env + timedelta_seconds 120 <= next <= now env + timedelta_seconds 3600.

(** ** More stores, environments and requests to run the definitions on *)

(** The store in which the trip has used its 15 route calls of the day. *)
Definition demo_db_trip_route_full : DB :=
  {| trips := {[ 7%N := demo_trip ]}; trip_updates := [];
     trip_api_usage_daily := {[ (7%N, 20761) := TripApiUsageDaily.mk 0 15 ]};
     api_usage_daily := ∅; api_usage_minute := ∅ |}.

(** The environment in which the insert of a [recalc_done] row raises. *)
Definition demo_env_done_fails : Env :=
  {| now := demo_now;
     budget_clock := fun _ => (demo_now + 5, 20761);
     route_answer := fun _ => Ok (1000, 3600, JDict [("type", JStr "LineString")], "osrm");
     owm_key := Some "k";
     owm_answer := fun _ _ => Ok [demo_slot 1793750000; demo_slot 1793760000];
     update_insert_fails := has_kind "recalc_done" |}.

(** The environment in which the route provider fails. *)
Definition demo_env_route_down : Env :=
  {| now := demo_now;
     budget_clock := fun _ => (demo_now + 5, 20761);
     route_answer := fun _ => Raised "503 Service Unavailable";
     owm_key := Some "k";
     owm_answer := fun _ _ => Ok [demo_slot 1793750000; demo_slot 1793760000];
     update_insert_fails := fun _ => false |}.

(** The environment in which the forecast secret is missing. *)
Definition demo_env_no_key : Env :=
  {| now := demo_now;
     budget_clock := fun _ => (demo_now + 5, 20761);
     route_answer := fun _ => Ok (1000, 3600, JDict [("type", JStr "LineString")], "osrm");
     owm_key := None;
     owm_answer := fun _ _ => Ok [demo_slot 1793750000; demo_slot 1793760000];
     update_insert_fails := fun _ => false |}.

(** A store of six trips: three are due, one is running, one is due a
    microsecond from now, one has no date. *)
Definition demo_trip_at (i : uuid) (next : option datetime) (state : string) : Trip.t :=
  Trip.mk i (demo_now + 6 * 3600 * 1000000) [(1.0, 2.0); (3.0, 4.0)]%float
    None None None None None None None None None None None
    "balanced" 30 15 next None state.

Definition demo_db_six : DB :=
  {| trips := {[ 1%N := demo_trip_at 1%N (Some (demo_now - 5)) "done";
                 2%N := demo_trip_at 2%N (Some (demo_now - 9)) "idle";
                 3%N := demo_trip_at 3%N (Some (demo_now - 7)) "running";
                 4%N := demo_trip_at 4%N (Some (demo_now + 1)) "done";
                 5%N := demo_trip_at 5%N None "idle";
                 6%N := demo_trip_at 6%N (Some demo_now) "error" ]};
     trip_updates := []; trip_api_usage_daily := ∅;
     api_usage_daily := ∅; api_usage_minute := ∅ |}.

(** The queue answers. *)
Definition demo_broker : Broker := {| send_task_fails := fun _ => false |}.


(** A request as the form of the interface sends it. *)
Definition demo_body : TripCreateIn.t :=
  TripCreateIn.mk (demo_now + 6 * 3600 * 1000000) [(1.0, 2.0); (3.0, 4.0)]%float
    "balanced" 30 15.

Definition demo_patch : TripPolicyPatch.t :=
  TripPolicyPatch.mk (Some "aggressive") None (Some 3).

(** A trip with a single waypoint that a run has refused, due again. *)
Definition demo_trip_refused : Trip.t :=
  Trip.mk 7%N (demo_now + 6 * 3600 * 1000000) [(1.0, 2.0)]%float
    None None None None None None None None None None None
    "aggressive" 30 15 (Some (demo_now - 1)) None "error".

Definition demo_db_refused : DB :=
  {| trips := {[ 7%N := demo_trip_refused ]}; trip_updates := []; trip_api_usage_daily := ∅;
     api_usage_daily := ∅; api_usage_minute := ∅ |}.

(** * Properties *)

(** ** Running the session monad *)

Lemma bind_ok {A B : Type} (m : M A) (k : A -> M B) (w w1 : World) (a : A) :
  m w = (Ok a, w1) -> (m ≫= k) w = k a w1.
Proof. intros H. unfold mbind, M_bind. rewrite H. reflexivity. Qed.

Lemma bind_raised {A B : Type} (m : M A) (k : A -> M B) (w w1 : World) (e : string) :
  m w = (Raised e, w1) -> (m ≫= k) w = (Raised e, w1).
Proof. intros H. unfold mbind, M_bind. rewrite H. reflexivity. Qed.

Lemma bind_run {A B : Type} (m : M A) (k : A -> M B) (w : World) :
  (m ≫= k) w = match m w with
               | (Ok a, w') => k a w'
               | (Raised e, w') => (Raised e, w')
               end.
Proof. reflexivity. Qed.

Lemma commit_run w :
  commit w = (Ok tt, settled (working w) (ext_calls w)).
Proof. reflexivity. Qed.

Lemma read_db_run w : read_db w = (Ok (working w), w).
Proof. reflexivity. Qed.

Lemma write_db_run db w :
  write_db db w = (Ok tt, {| committed := committed w; working := db; ext_calls := ext_calls w |}).
Proof. reflexivity. Qed.

Lemma attr_run {A : Type} (o : option A) (a : A) (w : World) :
  o = Some a -> attr o w = (Ok a, w).
Proof. intros ->. reflexivity. Qed.

Lemma select_trip_run tid w :
  select_trip tid w = (Ok (trips (working w) !! tid), w).
Proof. reflexivity. Qed.

Lemma update_trip_run tid values w :
  update_trip tid values w =
  (Ok tt, {| committed := committed w; working := alter_trip tid values (working w);
             ext_calls := ext_calls w |}).
Proof. reflexivity. Qed.

Lemma log_call_run c w :
  log_call c w = (Ok tt, {| committed := committed w; working := working w;
                            ext_calls := (ext_calls w ++ [c])%list |}).
Proof. reflexivity. Qed.

Lemma insert_update_run env tid kind payload w :
  insert_update env tid kind payload w =
  if update_insert_fails env (TripUpdate.mk tid kind payload)
  then (Raised "insert into trip_updates failed", w)
  else (Ok tt, {| committed := committed w;
                  working := add_update (TripUpdate.mk tid kind payload) (working w);
                  ext_calls := ext_calls w |}).
Proof.
  unfold insert_update. destruct (update_insert_fails env _); reflexivity.
Qed.

Lemma insert_update_ok env tid kind payload w :
  update_insert_fails env (TripUpdate.mk tid kind payload) = false ->
  insert_update env tid kind payload w =
  (Ok tt, {| committed := committed w;
             working := add_update (TripUpdate.mk tid kind payload) (working w);
             ext_calls := ext_calls w |}).
Proof. intros H. rewrite insert_update_run, H. reflexivity. Qed.

Lemma insert_update_raised env tid kind payload w :
  update_insert_fails env (TripUpdate.mk tid kind payload) = true ->
  insert_update env tid kind payload w = (Raised "insert into trip_updates failed", w).
Proof. intros H. rewrite insert_update_run, H. reflexivity. Qed.

(** One step of a run: the first action of a sequence is executed. *)
Ltac mstep :=
  first
    [ rewrite (bind_ok _ _ _ _ _ (commit_run _))
    | rewrite (bind_ok _ _ _ _ _ (read_db_run _))
    | rewrite (bind_ok _ _ _ _ _ (write_db_run _ _))
    | rewrite (bind_ok _ _ _ _ _ (update_trip_run _ _ _))
    | rewrite (bind_ok _ _ _ _ _ (select_trip_run _ _))
    | rewrite (bind_ok _ _ _ _ _ (log_call_run _ _))
    | rewrite (bind_ok _ _ _ _ _ (insert_update_ok _ _ _ _ _ ltac:(auto))) ];
  cbn [working committed ext_calls settled].

(** The table [trips] seen through the updates of a run. *)
Ltac trips_simpl :=
  cbn [trips alter_trip add_update ensure_rows add_calls put_trip_usage_daily
       put_api_usage_minute put_api_usage_daily working committed ext_calls settled].

(** ** The ledger in closed form *)

Lemma ensure_daily_run api d w :
  _ensure_usage_row_daily api d w =
  (Ok tt, {| committed := committed w;
             working := put_api_usage_daily (api, d) (daily_calls (working w) api d) (working w);
             ext_calls := ext_calls w |}).
Proof.
  unfold _ensure_usage_row_daily, read_db, write_db, mbind, M_bind, mret, M_ret, daily_calls.
  destruct (api_usage_daily (working w) !! (api, d)) as [v|] eqn:E; cbn [default].
  - f_equal. destruct w as [c [t u a1 a2 a3] e]; cbn in *. unfold put_api_usage_daily; cbn.
    f_equal. f_equal. symmetry. apply insert_id. exact E.
  - reflexivity.
Qed.

Lemma ensure_minute_run api mb w :
  _ensure_usage_row_minute api mb w =
  (Ok tt, {| committed := committed w;
             working := put_api_usage_minute (api, mb) (minute_calls (working w) api mb) (working w);
             ext_calls := ext_calls w |}).
Proof.
  unfold _ensure_usage_row_minute, read_db, write_db, mbind, M_bind, mret, M_ret, minute_calls.
  destruct (api_usage_minute (working w) !! (api, mb)) as [v|] eqn:E; cbn [default].
  - f_equal. destruct w as [c [t u a1 a2 a3] e]; cbn in *. unfold put_api_usage_minute; cbn.
    f_equal. f_equal. symmetry. apply insert_id. exact E.
  - reflexivity.
Qed.

Lemma ensure_trip_run tid d w :
  _ensure_trip_usage_daily tid d w =
  (Ok tt, {| committed := committed w;
             working := put_trip_usage_daily (tid, d)
                          (TripApiUsageDaily.mk (trip_owm_calls (working w) tid d)
                                                (trip_route_calls (working w) tid d))
                          (working w);
             ext_calls := ext_calls w |}).
Proof.
  unfold _ensure_trip_usage_daily, read_db, write_db, mbind, M_bind, mret, M_ret,
    trip_owm_calls, trip_route_calls.
  destruct (trip_api_usage_daily (working w) !! (tid, d)) as [[o r]|] eqn:E; cbn [from_option].
  - f_equal. destruct w as [c [t u a1 a2 a3] e]; cbn in *. unfold put_trip_usage_daily; cbn.
    f_equal. f_equal. symmetry. apply insert_id. exact E.
  - reflexivity.
Qed.

Lemma ensure_rows_daily api d mb tid db :
  api_usage_daily (ensure_rows api d mb tid db) !! (api, d) = Some (daily_calls db api d).
Proof. unfold ensure_rows; cbn. apply lookup_insert_eq. Qed.

Lemma ensure_rows_minute api d mb tid db :
  api_usage_minute (ensure_rows api d mb tid db) !! (api, mb) = Some (minute_calls db api mb).
Proof. unfold ensure_rows; cbn. apply lookup_insert_eq. Qed.

Lemma ensure_rows_trip api d mb tid db :
  trip_api_usage_daily (ensure_rows api d mb tid db) !! (tid, d)
  = Some (TripApiUsageDaily.mk (trip_owm_calls db tid d) (trip_route_calls db tid d)).
Proof. unfold ensure_rows; cbn. apply lookup_insert_eq. Qed.

Lemma add_calls_ensure api d mb tid amount db :
  put_trip_usage_daily (tid, d)
    (if String.eqb api "owm"
     then TripApiUsageDaily.mk (trip_owm_calls db tid d + amount) (trip_route_calls db tid d)
     else TripApiUsageDaily.mk (trip_owm_calls db tid d) (trip_route_calls db tid d + amount))
    (put_api_usage_minute (api, mb) (minute_calls db api mb + amount)
       (put_api_usage_daily (api, d) (daily_calls db api d + amount)
          (ensure_rows api d mb tid db)))
  = add_calls api d mb tid amount db.
Proof.
  unfold add_calls, ensure_rows, put_trip_usage_daily, put_api_usage_minute,
    put_api_usage_daily; cbn.
  f_equal; apply insert_insert_eq.
Qed.

(** [_consume_budget] in closed form. Whatever the case, the call ends with
    nothing in flight. *)
Lemma consume_budget_run cfg env trip api kind amount w :
  _consume_budget cfg env trip api kind amount w
  = consume_outcome cfg env trip api kind amount w.
Proof.
  unfold _consume_budget, consume_outcome, budget_day, budget_minute.
  destruct (budget_clock env api) as [now d]. cbn [fst snd].
  set (mb := _minute_bucket now).
  cbv zeta.
  set (lims := if String.eqb api "owm" then _ else _).
  assert (Hl : lims = (daily_limit_of cfg api, per_min_limit_of cfg api, trip_cap_of trip api)).
  { unfold lims, daily_limit_of, per_min_limit_of, trip_cap_of.
    destruct (String.eqb api "owm"); reflexivity. }
  rewrite Hl. clear Hl lims.
  rewrite (bind_ok _ _ _ _ _ (ensure_daily_run api d w)).
  rewrite (bind_ok _ _ _ _ _ (ensure_minute_run api mb _)).
  rewrite (bind_ok _ _ _ _ _ (ensure_trip_run (Trip.id trip) d _)).
  cbn [working committed ext_calls].
  match goal with
  | |- context [{| committed := _; working := ?x; ext_calls := _ |}] =>
      change x with (ensure_rows api d mb (Trip.id trip) (working w))
  end.
  rewrite (bind_ok _ _ _ _ _ (commit_run _)).
  rewrite (bind_ok _ _ _ _ _ (read_db_run _)).
  cbn [working settled].
  rewrite (bind_ok _ _ _ _ _ (attr_run _ _ _ (ensure_rows_daily _ _ _ _ _))).
  rewrite (bind_ok _ _ _ _ _ (attr_run _ _ _ (ensure_rows_minute _ _ _ _ _))).
  rewrite (bind_ok _ _ _ _ _ (attr_run _ _ _ (ensure_rows_trip _ _ _ _ _))).
  cbn [TripApiUsageDaily.owm_calls TripApiUsageDaily.route_calls].
  unfold budget_denied, denial_reason.
  destruct (daily_calls (working w) api d + amount >? daily_limit_of cfg api); cbn [orb].
  { reflexivity. }
  destruct (minute_calls (working w) api mb + amount >? per_min_limit_of cfg api); cbn [orb].
  { reflexivity. }
  destruct (String.eqb api "owm" && _); cbn [orb].
  { reflexivity. }
  destruct (String.eqb api "route" && _); cbn [orb].
  { reflexivity. }
  rewrite (bind_ok _ _ _ _ _ (write_db_run _ _)).
  rewrite (bind_ok _ _ _ _ _ (commit_run _)).
  cbn [working committed ext_calls settled].
  rewrite add_calls_ensure.
  unfold budget_consume_row.
  unfold mbind at 1, M_bind at 1. rewrite insert_update_run.
  destruct (update_insert_fails env _); reflexivity.
Qed.


Lemma consume_approved_inv cfg env trip api kind amount w reason w' :
  _consume_budget cfg env trip api kind amount w = (Ok (true, reason), w') ->
  budget_denied cfg trip api amount (budget_day env api) (budget_minute env api) (working w)
  = false
  /\ update_insert_fails env (budget_consume_row trip api kind amount) = false
  /\ w' = settled (add_update (budget_consume_row trip api kind amount)
                     (add_calls api (budget_day env api) (budget_minute env api)
                        (Trip.id trip) amount (working w)))
             (ext_calls w).
Proof.
  rewrite consume_budget_run. unfold consume_outcome.
  destruct (budget_denied _ _ _ _ _ _ _); [|destruct (update_insert_fails _ _)];
    intros Hrun; inversion Hrun; auto.
Qed.

(** ** The counters after a call of the ledger *)

Lemma default_insert_lookup `{Countable K} (m : gmap K Z) (k k' : K) (v : Z) :
  default 0 (<[k := v]> m !! k') = if decide (k' = k) then v else default 0 (m !! k').
Proof.
  destruct (decide (k' = k)) as [->|Hne].
  - rewrite lookup_insert_eq. reflexivity.
  - rewrite lookup_insert_ne by congruence. reflexivity.
Qed.

Lemma from_option_insert_lookup `{Countable K} {V : Type} (f : V -> Z) (m : gmap K V)
    (k k' : K) (v : V) :
  from_option f 0 (<[k := v]> m !! k')
  = if decide (k' = k) then f v else from_option f 0 (m !! k').
Proof.
  destruct (decide (k' = k)) as [->|Hne].
  - rewrite lookup_insert_eq. reflexivity.
  - rewrite lookup_insert_ne by congruence. reflexivity.
Qed.

Lemma same_counters_ensure api d mb tid db :
  same_counters db (ensure_rows api d mb tid db).
Proof.
  unfold same_counters, ensure_rows, daily_calls, minute_calls, trip_owm_calls,
    trip_route_calls; cbn.
  repeat split; intros.
  - rewrite default_insert_lookup. case_decide as E; [inversion E; subst|]; reflexivity.
  - rewrite default_insert_lookup. case_decide as E; [inversion E; subst|]; reflexivity.
  - rewrite from_option_insert_lookup. case_decide as E; [inversion E; subst|]; reflexivity.
  - rewrite from_option_insert_lookup. case_decide as E; [inversion E; subst|]; reflexivity.
Qed.

Lemma same_counters_add_update row db : same_counters db (add_update row db).
Proof. repeat split. Qed.

Lemma daily_calls_add api d mb tid amount db a' d' :
  daily_calls (add_calls api d mb tid amount db) a' d'
  = if decide ((a', d') = (api, d)) then daily_calls db api d + amount
    else daily_calls db a' d'.
Proof. unfold add_calls, daily_calls; cbn. apply default_insert_lookup. Qed.

Lemma minute_calls_add api d mb tid amount db a' mb' :
  minute_calls (add_calls api d mb tid amount db) a' mb'
  = if decide ((a', mb') = (api, mb)) then minute_calls db api mb + amount
    else minute_calls db a' mb'.
Proof. unfold add_calls, minute_calls; cbn. apply default_insert_lookup. Qed.

Lemma trip_owm_calls_add api d mb tid amount db tid' d' :
  trip_owm_calls (add_calls api d mb tid amount db) tid' d'
  = if decide ((tid', d') = (tid, d))
    then (if String.eqb api "owm" then trip_owm_calls db tid d + amount
          else trip_owm_calls db tid d)
    else trip_owm_calls db tid' d'.
Proof.
  unfold add_calls, trip_owm_calls; cbn. rewrite from_option_insert_lookup.
  case_decide; [|reflexivity]. destruct (String.eqb api "owm"); reflexivity.
Qed.

Lemma trip_route_calls_add api d mb tid amount db tid' d' :
  trip_route_calls (add_calls api d mb tid amount db) tid' d'
  = if decide ((tid', d') = (tid, d))
    then (if String.eqb api "owm" then trip_route_calls db tid d
          else trip_route_calls db tid d + amount)
    else trip_route_calls db tid' d'.
Proof.
  unfold add_calls, trip_route_calls; cbn. rewrite from_option_insert_lookup.
  case_decide; [|reflexivity]. destruct (String.eqb api "owm"); reflexivity.
Qed.

(** The boolean tests of the ledger against the three caps. *)
Lemma budget_denied_iff cfg trip api amount d mb db :
  api = "owm" \/ api = "route" ->
  budget_denied cfg trip api amount d mb db = true
  <-> cap_exceeded cfg trip api amount d mb db.
Proof.
  intros Hapi. unfold budget_denied, cap_exceeded, trip_calls.
  rewrite !orb_true_iff, !andb_true_iff, !Z.gtb_ltb, !Z.ltb_lt.
  destruct Hapi as [-> | ->]; cbn [String.eqb Ascii.eqb Bool.eqb]; cbn.
  all: intuition (try lia; try discriminate).
Qed.

(** ** The recalculator in closed form *)

Lemma recalc_weather_run cfg env tid t dest_lat dest_lon eta w :
  recalc_weather cfg env tid t dest_lat dest_lon eta w
  = weather_outcome cfg env tid t dest_lat dest_lon eta w.
Proof.
  unfold recalc_weather, weather_outcome, weather_of_forecast.
  rewrite bind_run, consume_budget_run. unfold consume_outcome.
  destruct (budget_denied _ _ _ _ _ _ _); cbv beta iota zeta; cbn [negb].
  - unfold budget_denied_row.
    destruct (update_insert_fails env _) eqn:F.
    + rewrite (bind_raised _ _ _ _ _ (insert_update_raised _ _ _ _ _ F)). reflexivity.
    + rewrite (bind_ok _ _ _ _ _ (insert_update_ok _ _ _ _ _ F)).
      rewrite (bind_ok _ _ _ _ _ (commit_run _)). reflexivity.
  - destruct (update_insert_fails env _); [reflexivity|].
    cbv beta iota; cbn [negb].
    rewrite (bind_ok _ _ _ _ _ (log_call_run _ _)).
    cbn [working committed ext_calls settled].
    destruct (_forecast _ _ _) as [[sev wx]|e]; reflexivity.
Qed.

(** The closing transaction of a recalculation: both writes or neither. *)
Lemma recalc_store_run env tid values payload w :
  with_session (update_trip tid values;; insert_update env tid "recalc_done" payload;; commit) w
  = if update_insert_fails env (TripUpdate.mk tid "recalc_done" payload)
    then (Raised "insert into trip_updates failed", w)
    else (Ok tt, {| committed := add_update (TripUpdate.mk tid "recalc_done" payload)
                                   (alter_trip tid values (committed w));
                    working := working w; ext_calls := ext_calls w |}).
Proof.
  unfold with_session.
  rewrite (bind_ok _ _ _ _ _ (update_trip_run _ _ _)).
  cbn [working committed ext_calls].
  destruct (update_insert_fails env _) eqn:F.
  - rewrite (bind_raised _ _ _ _ _ (insert_update_raised _ _ _ _ _ F)).
    destruct w; reflexivity.
  - rewrite (bind_ok _ _ _ _ _ (insert_update_ok _ _ _ _ _ F)).
    rewrite commit_run. reflexivity.
Qed.

Lemma recalc_finish_run cfg env tid t dist_m dur_s geom provider w :
  recalc_finish cfg env tid t dist_m dur_s geom provider w
  = finish_outcome cfg env tid t dist_m dur_s geom provider w.
Proof.
  unfold recalc_finish, finish_outcome, done_row, done_result.
  destruct (List.last (Trip.waypoints t) (0%float, 0%float)) as [dest_lat dest_lon].
  cbv zeta. cbn [fst snd].
  rewrite bind_run, recalc_weather_run.
  destruct (weather_outcome _ _ _ _ _ _ _ _) as [[[[sev wx] bl]|e] w1]; [|reflexivity].
  destruct (_risk _ _ _) as [[[[pct st] buf] why] sugg].
  rewrite bind_run, recalc_store_run.
  destruct (update_insert_fails env _); reflexivity.
Qed.

Lemma recalc_loaded_run cfg env tid t w :
  recalc_loaded cfg env tid t w = loaded_outcome cfg env tid t w.
Proof.
  unfold recalc_loaded, loaded_outcome. cbv zeta.
  destruct (length (Trip.waypoints t) <? 2)%nat.
  { mstep. unfold validate_error_row.
    destruct (update_insert_fails env _) eqn:F.
    - rewrite (bind_raised _ _ _ _ _ (insert_update_raised _ _ _ _ _ F)). reflexivity.
    - rewrite (bind_ok _ _ _ _ _ (insert_update_ok _ _ _ _ _ F)). mstep. reflexivity. }
  destruct (need_route t).
  - rewrite bind_run, consume_budget_run. unfold consume_outcome.
    destruct (budget_denied _ _ _ _ _ _ _); cbv beta iota; cbn [negb].
    + mstep. unfold budget_denied_row.
      destruct (update_insert_fails env _) eqn:F.
      * rewrite (bind_raised _ _ _ _ _ (insert_update_raised _ _ _ _ _ F)). reflexivity.
      * rewrite (bind_ok _ _ _ _ _ (insert_update_ok _ _ _ _ _ F)).
        repeat mstep. reflexivity.
    + destruct (update_insert_fails env (budget_consume_row _ _ _ _)); [reflexivity|].
      cbv beta iota; cbn [negb]. mstep.
      destruct (route_answer env _) as [[[[dist_m dur_s] geom] provider]|e].
      * apply recalc_finish_run.
      * mstep. unfold route_error_row.
        destruct (update_insert_fails env _) eqn:F.
        -- rewrite (bind_raised _ _ _ _ _ (insert_update_raised _ _ _ _ _ F)). reflexivity.
        -- rewrite (bind_ok _ _ _ _ _ (insert_update_ok _ _ _ _ _ F)).
           repeat mstep. reflexivity.
  - destruct (Trip.route_duration_s t); [apply recalc_finish_run | reflexivity].
Qed.

Lemma recalc_trip_outcome cfg env tid w :
  recalc_trip cfg env tid w = recalc_outcome cfg env tid w.
Proof.
  unfold recalc_trip, run_session, recalc_outcome, recalc_body.
  mstep. cbv zeta.
  destruct (trips (committed w) !! tid) as [t|]; [|reflexivity].
  mstep. unfold running_row.
  destruct (update_insert_fails env _) eqn:F.
  - rewrite (bind_raised _ _ _ _ _ (insert_update_raised _ _ _ _ _ F)). reflexivity.
  - rewrite (bind_ok _ _ _ _ _ (insert_update_ok _ _ _ _ _ F)). mstep.
    rewrite recalc_loaded_run. reflexivity.
Qed.

(** ** The order of binary64 numbers *)

Module FloatOrder.
















End FloatOrder.

(** ** C1: atomicity and cap respect of the ledger *)



Lemma consume_call_committed cfg w c :
  let d := budget_day (ca_env c) (ca_api_name c) in
  let mb := budget_minute (ca_env c) (ca_api_name c) in
  let tid := Trip.id (ca_trip c) in
  let db := committed w in
  (budget_denied cfg (ca_trip c) (ca_api_name c) (ca_amount c) d mb db = true
   /\ committed (consume_call cfg w c) = ensure_rows (ca_api_name c) d mb tid db)
  \/ (budget_denied cfg (ca_trip c) (ca_api_name c) (ca_amount c) d mb db = false
      /\ (committed (consume_call cfg w c) = add_calls (ca_api_name c) d mb tid (ca_amount c) db
          \/ committed (consume_call cfg w c)
             = add_update (budget_consume_row (ca_trip c) (ca_api_name c) (ca_kind c) (ca_amount c))
                 (add_calls (ca_api_name c) d mb tid (ca_amount c) db))).
Proof.
  cbv zeta. unfold consume_call, run_session.
  rewrite consume_budget_run. unfold consume_outcome. cbn [working ext_calls].
  destruct (budget_denied _ _ _ _ _ _ _).
  - left. auto.
  - right. split; [reflexivity|].
    destruct (update_insert_fails _ _); [left | right]; reflexivity.
Qed.








Example sixteenth_route_call_denied :
  let w := consume_calls default_config (repeat (demo_call "route") 16) (settled demo_db []) in
  trip_route_calls (committed w) 7%N 20761 = 15
  /\ daily_calls (committed w) "route" 20761 = 15
  /\ length (trip_updates (committed w)) = 15%nat.
Proof. vm_compute. repeat split. Qed.

(** ** C2: the risk model *)




(** Python rounds a tie to the even neighbour: a risk of 0.525 gives 52. *)
Example risk_rounds_half_to_even :
  _risk (3600 * 1000000) (1800 * 1000000) 0.5
  = (52, YELLOW, 30, "buffer=30min, weather_sev=0.50", SUGG_YELLOW).
Proof. vm_compute. reflexivity. Qed.

Example risk_red_overdue :
  _risk (-1800 * 1000000) (600 * 1000000) 0.8
  = (90, RED, -40, "buffer=-40min, weather_sev=0.80", SUGG_RED).
Proof. vm_compute. reflexivity. Qed.

(** ** C3: the next interval *)

Lemma weather_of_forecast_not_limited env lat lon eta sev wx bl :
  weather_of_forecast env lat lon eta = (sev, wx, bl) -> bl = false.
Proof.
  unfold weather_of_forecast.
  destruct (_forecast _ _ _) as [[s x]|e]; intros H; inversion H; reflexivity.
Qed.

Lemma done_result_limited env t dur_s sev bl :
  budget_limited_result (done_result env t dur_s sev bl) -> bl = true.
Proof.
  unfold budget_limited_result, done_result.
  destruct (_risk _ _ _) as [[[[pct st] buf] why] sugg]. cbn.
  intros [H | H]; [inversion H; reflexivity | discriminate].
Qed.

Lemma done_values_limited env t dist_m dur_s geom sev x :
  Trip.calc_state (done_values env t dist_m dur_s geom sev true x) = "budget_limited"
  /\ Trip.next_calc_at (done_values env t dist_m dur_s geom sev true x)
     = Some (now env + timedelta_seconds 2700).
Proof.
  unfold done_values. cbv zeta.
  destruct (_risk _ _ _) as [[[[pct st] buf] why] sugg]. split; reflexivity.
Qed.

Lemma finish_limited cfg env tid t x dist_m dur_s geom provider w r w' :
  trips (committed w) !! tid = Some x ->
  working w = committed w ->
  finish_outcome cfg env tid t dist_m dur_s geom provider w = (Ok r, w') ->
  budget_limited_result r ->
  exists t', trips (committed w') !! tid = Some t'
             /\ Trip.calc_state t' = "budget_limited"
             /\ Trip.next_calc_at t' = Some (now env + timedelta_seconds 2700).
Proof.
  intros Hx Hw. unfold finish_outcome, weather_outcome. cbv zeta. rewrite Hw.
  destruct (budget_denied _ _ _ _ _ _ _).
  - destruct (update_insert_fails env (budget_denied_row _ _ _)); [discriminate|].
    destruct (update_insert_fails env (done_row _ _ _ _ _ _ _ _ _)); [discriminate|].
    intros Hrun _. inversion Hrun; subst; clear Hrun.
    trips_simpl. rewrite lookup_alter_eq, Hx. cbn [fmap option_fmap option_map].
    eexists; split; [reflexivity|]. apply done_values_limited.
  - destruct (update_insert_fails env (budget_consume_row _ _ _ _)); [discriminate|].
    destruct (weather_of_forecast _ _ _ _) as [[sev wx] bl] eqn:Hwx.
    apply weather_of_forecast_not_limited in Hwx. subst bl.
    destruct (update_insert_fails env (done_row _ _ _ _ _ _ _ _ _)); [discriminate|].
    intros Hrun Hlim. inversion Hrun; subst; clear Hrun.
    apply done_result_limited in Hlim. discriminate.
Qed.

(** C3. [_next_interval_seconds] returns the values of the table for the
    three modes and the three statuses when the budget did not limit the run,
    and 2700 seconds whatever the mode and the status when it did; and every
    recalculation that reports a limiting budget leaves the trip in
    [budget_limited] with [next_calc_at] exactly 2700 seconds after [now]. *)
Theorem next_interval_table_and_backoff :
  (_next_interval_seconds "conservative" GREEN false = 3600
   /\ _next_interval_seconds "conservative" YELLOW false = 1500
   /\ _next_interval_seconds "conservative" RED false = 480
   /\ _next_interval_seconds "balanced" GREEN false = 2400
   /\ _next_interval_seconds "balanced" YELLOW false = 900
   /\ _next_interval_seconds "balanced" RED false = 300
   /\ _next_interval_seconds "aggressive" GREEN false = 1200
   /\ _next_interval_seconds "aggressive" YELLOW false = 480
   /\ _next_interval_seconds "aggressive" RED false = 120)
  /\ (forall mode status, _next_interval_seconds mode status true = 2700)
  /\ (forall cfg env tid w r w',
        recalc_trip cfg env tid w = (Ok r, w') ->
        budget_limited_result r ->
        exists t', trips (committed w') !! tid = Some t'
                   /\ Trip.calc_state t' = "budget_limited"
                   /\ Trip.next_calc_at t' = Some (now env + timedelta_seconds 2700)).
Proof.
  split; [repeat split|]. split; [reflexivity|].
  intros cfg env tid w r w'.
  rewrite recalc_trip_outcome. unfold recalc_outcome. cbv zeta.
  destruct (trips (committed w) !! tid) as [t|] eqn:Ht.
  2:{ intros Hrun [H | H]; inversion Hrun; subst; discriminate. }
  destruct (update_insert_fails env (running_row env tid)); [discriminate|].
  unfold loaded_outcome. cbv zeta. cbn [working settled ext_calls].
  destruct (length (Trip.waypoints t) <? 2)%nat.
  { destruct (update_insert_fails env (validate_error_row tid)); [discriminate|].
    intros Hrun [H | H]; inversion Hrun; subst; discriminate. }
  assert (Hrunning :
    trips (add_update (running_row env tid)
             (alter_trip tid (Trip.set_calc_state "running") (committed w))) !! tid
    = Some (Trip.set_calc_state "running" t)).
  { trips_simpl. rewrite lookup_alter_eq, Ht. reflexivity. }
  destruct (need_route t).
  - destruct (budget_denied _ _ _ _ _ _ _).
    + destruct (update_insert_fails env (budget_denied_row _ _ _)); [discriminate|].
      intros Hrun _. inversion Hrun; subst; clear Hrun.
      trips_simpl. rewrite !lookup_alter_eq, Ht. cbn [fmap option_fmap option_map].
      eexists; split; [reflexivity|]. split; reflexivity.
    + destruct (update_insert_fails env (budget_consume_row _ _ _ _)); [discriminate|].
      destruct (route_answer env _) as [[[[dist_m dur_s] geom] provider]|e].
      * destruct (finish_outcome _ _ _ _ _ _ _ _ _) as [[r1|e1] w1] eqn:Hfin; [|discriminate].
        intros Hrun Hlim. inversion Hrun; subst; clear Hrun.
        cbn [committed settled].
        eapply finish_limited; [| |exact Hfin|exact Hlim]; [|reflexivity].
        cbn [committed settled]. trips_simpl. rewrite lookup_alter_eq, Ht. reflexivity.
      * destruct (update_insert_fails env (route_error_row _ _)); [discriminate|].
        intros Hrun [H | H]; inversion Hrun; subst; discriminate.
  - destruct (Trip.route_duration_s t) as [dur_s|]; [|discriminate].
    destruct (finish_outcome _ _ _ _ _ _ _ _ _) as [[r1|e1] w1] eqn:Hfin; [|discriminate].
    intros Hrun Hlim. inversion Hrun; subst; clear Hrun.
    cbn [committed settled].
    eapply finish_limited; [| |exact Hfin|exact Hlim]; [exact Hrunning|reflexivity].
Qed.

(** A run on the trip with a stored route while the [owm] minute counter is
    at its limit. *)
Lemma next_interval_table_and_backoff_witness :
  exists t',
    trips (committed (snd (recalc_trip default_config demo_env 7%N
                             (settled demo_db_owm_minute_full [])))) !! 7%N = Some t'
    /\ Trip.calc_state t' = "budget_limited"
    /\ Trip.next_calc_at t' = Some (now demo_env + timedelta_seconds 2700).
Proof.
  apply (proj2 (proj2 next_interval_table_and_backoff) default_config demo_env 7%N
           (settled demo_db_owm_minute_full [])
           (JDict [("ok", JBool true); ("risk_pct", JInt 10); ("status", JStr GREEN);
                   ("budget_limited", JBool true)])).
  - vm_compute. reflexivity.
  - left. reflexivity.
Defined.

(** ** C4: a denied route budget *)

(** C4. When a recalculation needs a route and the route budget is denied
    (one of the three route caps would be exceeded by one more call), the run
    returns [budget_denied_route] and leaves the trip in [budget_limited] with
    [next_calc_at = now + next_interval(policy, status or yellow, true)], that
    is [now] plus 2700 seconds, and [last_calc_at = now], every other field of
    the trip as it was; the run appends, after [recalc_running], exactly one
    [budget_denied] row for [route] and nothing else (no [recalc_done]); no
    provider is called and no counter moves. *)
Theorem recalc_route_budget_denied cfg env tid t w :
  trips (committed w) !! tid = Some t ->
  (forall row, update_insert_fails env row = false) ->
  (2 <= length (Trip.waypoints t))%nat ->
  need_route t = true ->
  cap_exceeded cfg t "route" 1 (budget_day env "route") (budget_minute env "route")
    (committed w) ->
  exists reason w',
    recalc_trip cfg env tid w =
      (Ok (JDict [("ok", JBool false); ("error", JStr "budget_denied_route");
                  ("reason", JStr reason)]), w')
    /\ trips (committed w') !! tid =
         Some (Trip.set_schedule
                 (plus_seconds (now env)
                    (_next_interval_seconds (Trip.policy_mode t) (status_or_yellow t) true))
                 (now env) (Trip.set_calc_state "budget_limited" t))
    /\ plus_seconds (now env)
         (_next_interval_seconds (Trip.policy_mode t) (status_or_yellow t) true)
       = now env + 2700 * 1000000
    /\ trip_updates (committed w') =
         (trip_updates (committed w)
            ++ [running_row env tid; budget_denied_row tid "route" reason])%list
    /\ rows_of_kind "recalc_done" [running_row env tid; budget_denied_row tid "route" reason]
       = []
    /\ ext_calls w' = ext_calls w
    /\ same_counters (committed w) (committed w').
Proof.
  intros Ht Hnf Hlen Hneed Hcap.
  apply budget_denied_iff in Hcap; [|right; reflexivity].
  rewrite recalc_trip_outcome. unfold recalc_outcome. cbv zeta. rewrite Ht, Hnf.
  unfold loaded_outcome. cbv zeta. cbn [working settled ext_calls].
  destruct (Nat.ltb_spec (length (Trip.waypoints t)) 2) as [Hlt|_]; [lia|].
  rewrite Hneed.
  change (budget_denied cfg t "route" 1 ?d ?mb (add_update ?r (alter_trip ?i ?f ?db)))
    with (budget_denied cfg t "route" 1 d mb db).
  rewrite Hcap, Hnf.
  eexists; eexists; split; [reflexivity|].
  cbn [committed settled ext_calls].
  split; [|split; [|split; [|split; [|split]]]].
  - trips_simpl. rewrite !lookup_alter_eq, Ht. reflexivity.
  - reflexivity.
  - cbn. rewrite <- app_assoc. reflexivity.
  - reflexivity.
  - reflexivity.
  - pose proof (same_counters_ensure "route" (budget_day env "route")
                  (budget_minute env "route") (Trip.id t) (committed w)) as (S1 & S2 & S3 & S4).
    unfold same_counters. repeat split; intros;
      [exact (S1 _ _) | exact (S2 _ _) | exact (S3 _ _) | exact (S4 _ _)].
Qed.

Lemma recalc_route_budget_denied_witness :
  exists reason w',
    recalc_trip default_config demo_env 7%N (settled demo_db_route_minute_full []) =
      (Ok (JDict [("ok", JBool false); ("error", JStr "budget_denied_route");
                  ("reason", JStr reason)]), w')
    /\ trips (committed w') !! 7%N =
         Some (Trip.set_schedule
                 (plus_seconds (now demo_env)
                    (_next_interval_seconds (Trip.policy_mode demo_trip)
                       (status_or_yellow demo_trip) true))
                 (now demo_env) (Trip.set_calc_state "budget_limited" demo_trip))
    /\ plus_seconds (now demo_env)
         (_next_interval_seconds (Trip.policy_mode demo_trip) (status_or_yellow demo_trip) true)
       = now demo_env + 2700 * 1000000
    /\ trip_updates (committed w') =
         (trip_updates (committed (settled demo_db_route_minute_full []))
            ++ [running_row demo_env 7%N; budget_denied_row 7%N "route" reason])%list
    /\ rows_of_kind "recalc_done"
         [running_row demo_env 7%N; budget_denied_row 7%N "route" reason] = []
    /\ ext_calls w' = ext_calls (settled demo_db_route_minute_full [])
    /\ same_counters (committed (settled demo_db_route_minute_full [])) (committed w').
Proof.
  apply (recalc_route_budget_denied default_config demo_env 7%N demo_trip
           (settled demo_db_route_minute_full [])).
  - reflexivity.
  - reflexivity.
  - simpl. lia.
  - reflexivity.
  - right. left. vm_compute. reflexivity.
Defined.

(** ** C5: a failed validation *)



(** The run on the trip with one waypoint, evaluated: the trip is left due
    one minute after [now], where the claimed schedule is [now] plus 900
    seconds. *)
Example validation_failure_schedule_evaluated :
  let r := recalc_trip default_config demo_env 7%N (settled demo_db_one_point []) in
  fst r = Ok (JDict [("ok", JBool false); ("error", JStr "bad-waypoints")])
  /\ (Trip.next_calc_at <$> trips (committed (snd r)) !! 7%N)
     = Some (Some (demo_now + 60 * 1000000))
  /\ plus_seconds demo_now (_next_interval_seconds "balanced" YELLOW false)
     = demo_now + 900 * 1000000.
Proof. vm_compute. repeat split. Qed.

(** ** C6: a cached route *)

Lemma route_untouched_refl db : route_budget_untouched db db.
Proof. repeat split. Qed.

Lemma route_untouched_alter_trip db db' tid values :
  route_budget_untouched db db' -> route_budget_untouched db (alter_trip tid values db').
Proof. intros H. exact H. Qed.

Lemma route_untouched_add_update db db' row :
  consumes_route row = false ->
  route_budget_untouched db db' -> route_budget_untouched db (add_update row db').
Proof.
  intros Hrow (H1 & H2 & H3 & H4). repeat split; try assumption.
  cbn [trip_updates add_update]. rewrite List.filter_app. cbn [List.filter].
  rewrite Hrow, app_nil_r. exact H4.
Qed.

Lemma route_untouched_ensure db db' api d mb tid :
  route_budget_untouched db db' ->
  route_budget_untouched db (ensure_rows api d mb tid db').
Proof.
  intros (H1 & H2 & H3 & H4).
  destruct (same_counters_ensure api d mb tid db') as (S1 & S2 & S3 & S4).
  repeat split; intros.
  - rewrite S1. apply H1.
  - rewrite S2. apply H2.
  - rewrite S4. apply H3.
  - exact H4.
Qed.

Lemma route_untouched_add_owm db db' d mb tid amount :
  route_budget_untouched db db' ->
  route_budget_untouched db (add_calls "owm" d mb tid amount db').
Proof.
  intros (H1 & H2 & H3 & H4). repeat split; intros.
  - rewrite daily_calls_add, decide_False by discriminate. apply H1.
  - rewrite minute_calls_add, decide_False by discriminate. apply H2.
  - rewrite trip_route_calls_add. cbn [String.eqb Ascii.eqb Bool.eqb].
    case_decide as E; [inversion E; subst|]; apply H3.
  - exact H4.
Qed.

Lemma done_row_not_route env tid t dist_m dur_s geom provider sev wx :
  consumes_route (done_row env tid t dist_m dur_s geom provider sev wx) = false.
Proof.
  unfold done_row. destruct (_risk _ _ _) as [[[[pct st] buf] why] sugg]. reflexivity.
Qed.

(** Every update of a run that asks for no route leaves the route budget. *)
Ltac route_untouched :=
  cbn [committed working ext_calls settled pending];
  repeat first
    [ apply route_untouched_refl
    | apply route_untouched_alter_trip
    | apply route_untouched_add_update; [first [reflexivity | apply done_row_not_route] |]
    | apply route_untouched_ensure
    | apply route_untouched_add_owm ].

Lemma need_route_iff t :
  need_route t = true <-> Trip.route_duration_s t = None \/ Trip.route_geojson t = None.
Proof.
  unfold need_route.
  destruct (Trip.route_duration_s t), (Trip.route_geojson t); intuition congruence.
Qed.

Lemma need_route_iff' t :
  need_route t = false -> exists dur_s, Trip.route_duration_s t = Some dur_s.
Proof.
  unfold need_route. destruct (Trip.route_duration_s t); [eauto|discriminate].
Qed.

Lemma finish_route_untouched cfg env tid t dist_m dur_s geom provider db calls w :
  route_budget_untouched db (committed w) ->
  working w = committed w ->
  route_calls_made (ext_calls w) = calls ->
  route_budget_untouched db
    (committed (snd (finish_outcome cfg env tid t dist_m dur_s geom provider w)))
  /\ route_calls_made (ext_calls (snd (finish_outcome cfg env tid t dist_m dur_s geom provider w)))
     = calls.
Proof.
  intros Hdb Hw Hcalls. unfold finish_outcome, weather_outcome. cbv zeta. rewrite Hw.
  destruct (budget_denied _ _ _ _ _ _ _).
  - destruct (update_insert_fails env (budget_denied_row _ _ _)); cbn [snd].
    + split; [route_untouched; exact Hdb | exact Hcalls].
    + destruct (update_insert_fails env (done_row _ _ _ _ _ _ _ _ _)); cbn [snd];
        (split; [route_untouched; exact Hdb | exact Hcalls]).
  - destruct (update_insert_fails env (budget_consume_row _ _ _ _)); cbn [snd].
    + split; [route_untouched; exact Hdb | exact Hcalls].
    + destruct (weather_of_forecast _ _ _ _) as [[sev wx] bl].
      assert (Hc : route_calls_made
                     (ext_calls w ++ [CallForecast (List.last (Trip.waypoints t) (0%float, 0%float)).1
                                        (List.last (Trip.waypoints t) (0%float, 0%float)).2
                                        (plus_seconds (now env) dur_s)]) = calls).
      { unfold route_calls_made in *. rewrite List.filter_app. cbn [List.filter is_route_call].
        rewrite app_nil_r. exact Hcalls. }
      destruct (update_insert_fails env (done_row _ _ _ _ _ _ _ _ _)); cbn [snd];
        (split; [route_untouched; exact Hdb | exact Hc]).
Qed.

(** C6. [need_route] holds exactly when [route_duration_s] or
    [route_geojson] is absent. For a trip that has both, a recalculation,
    however it ends, makes no call to the Route Client and leaves the route
    budget alone: no route counter moves and no row records a consumed route
    unit. When the trip is valid and every insert succeeds, the one budget the
    run draws on is [owm]: its three counters advance by one, or, when the
    [owm] budget is denied, no counter moves at all. *)
Theorem cached_route_is_not_refetched :
  (forall t,
      need_route t = true
      <-> Trip.route_duration_s t = None \/ Trip.route_geojson t = None)
  /\ (forall cfg env tid t w,
        trips (committed w) !! tid = Some t ->
        need_route t = false ->
        let w' := snd (recalc_trip cfg env tid w) in
        route_calls_made (ext_calls w') = route_calls_made (ext_calls w)
        /\ route_budget_untouched (committed w) (committed w'))
  /\ (forall cfg env tid t w,
        trips (committed w) !! tid = Some t ->
        need_route t = false ->
        (2 <= length (Trip.waypoints t))%nat ->
        (forall row, update_insert_fails env row = false) ->
        let d := budget_day env "owm" in
        let mb := budget_minute env "owm" in
        let w' := snd (recalc_trip cfg env tid w) in
        if budget_denied cfg t "owm" 1 d mb (committed w)
        then same_counters (committed w) (committed w')
        else daily_calls (committed w') "owm" d = daily_calls (committed w) "owm" d + 1
             /\ minute_calls (committed w') "owm" mb = minute_calls (committed w) "owm" mb + 1
             /\ trip_owm_calls (committed w') (Trip.id t) d
                = trip_owm_calls (committed w) (Trip.id t) d + 1).
Proof.
  split; [exact need_route_iff|]. split.
  - intros cfg env tid t w Ht Hneed. cbv zeta.
    rewrite recalc_trip_outcome. unfold recalc_outcome. cbv zeta. rewrite Ht.
    destruct (update_insert_fails env (running_row env tid)).
    { cbn [snd]. split; [reflexivity | route_untouched]. }
    unfold loaded_outcome. cbv zeta. rewrite Hneed.
    destruct (length (Trip.waypoints t) <? 2)%nat.
    { destruct (update_insert_fails env (validate_error_row tid)); cbn [snd];
        (split; [reflexivity | route_untouched]). }
    destruct (Trip.route_duration_s t) as [dur_s|].
    + match goal with
      | |- context [finish_outcome ?c ?e ?i ?tt ?dm ?ds ?g ?p ?ww] =>
          destruct (finish_route_untouched c e i tt dm ds g p (committed w)
                      (route_calls_made (ext_calls w)) ww) as [Hdb Hcalls];
          [ route_untouched | reflexivity | reflexivity | ];
          destruct (finish_outcome c e i tt dm ds g p ww) as [r w1]
      end.
      cbn [snd committed ext_calls settled] in *. split; assumption.
    + cbn [snd]. split; [reflexivity | route_untouched].
  - intros cfg env tid t w Ht Hneed Hlen Hnf. cbv zeta.
    rewrite recalc_trip_outcome. unfold recalc_outcome. cbv zeta. rewrite Ht, Hnf.
    unfold loaded_outcome. cbv zeta. rewrite Hneed.
    destruct (Nat.ltb_spec (length (Trip.waypoints t)) 2) as [Hlt|_]; [lia|].
    apply need_route_iff' in Hneed as [dur_s Hdur]. rewrite Hdur.
    unfold finish_outcome, weather_outcome. cbv zeta.
    cbn [working settled].
    change (budget_denied cfg t "owm" 1 ?d ?mb (add_update ?r (alter_trip ?i ?f ?db)))
      with (budget_denied cfg t "owm" 1 d mb db).
    destruct (budget_denied _ _ _ _ _ _ _).
    + rewrite !Hnf. cbn [snd committed settled].
      pose proof (same_counters_ensure "owm" (budget_day env "owm") (budget_minute env "owm")
                    (Trip.id t) (committed w)) as (S1 & S2 & S3 & S4).
      unfold same_counters. repeat split; intros;
        [exact (S1 _ _) | exact (S2 _ _) | exact (S3 _ _) | exact (S4 _ _)].
    + rewrite Hnf. destruct (weather_of_forecast _ _ _ _) as [[sev wx] bl].
      rewrite Hnf. cbn [snd committed settled].
      change (daily_calls (add_update ?r (alter_trip ?i ?f ?db))) with (daily_calls db).
      change (minute_calls (add_update ?r (alter_trip ?i ?f ?db))) with (minute_calls db).
      change (trip_owm_calls (add_update ?r (alter_trip ?i ?f ?db))) with (trip_owm_calls db).
      change (daily_calls (add_update ?r ?db)) with (daily_calls db).
      change (minute_calls (add_update ?r ?db)) with (minute_calls db).
      change (trip_owm_calls (add_update ?r ?db)) with (trip_owm_calls db).
      rewrite daily_calls_add, minute_calls_add, trip_owm_calls_add,
        !decide_True by reflexivity.
      repeat split.
Qed.

Lemma cached_route_is_not_refetched_witness :
  let w' := snd (recalc_trip default_config demo_env 7%N (settled demo_db_cached [])) in
  route_calls_made (ext_calls w') = route_calls_made (ext_calls (settled demo_db_cached []))
  /\ route_budget_untouched (committed (settled demo_db_cached [])) (committed w').
Proof.
  apply (proj1 (proj2 cached_route_is_not_refetched) default_config demo_env 7%N
           demo_trip_cached (settled demo_db_cached [])).
  - reflexivity.
  - reflexivity.
Defined.

Example cached_route_run_evaluated :
  let r := recalc_trip default_config demo_env 7%N (settled demo_db_cached []) in
  ext_calls (snd r) = [CallForecast 3 4 (demo_now + 3600 * 1000000)]
  /\ map TripUpdate.kind (trip_updates (committed (snd r)))
     = ["recalc_running"; "budget_consume"; "recalc_done"]
  /\ daily_calls (committed (snd r)) "route" 20761 = 0
  /\ daily_calls (committed (snd r)) "owm" 20761 = 1.
Proof. vm_compute. repeat split. Qed.

(** ** C7: the forecast client *)

Module Severity.







End Severity.






Example forecast_picks_the_nearer_slot :
  _forecast (Some "k") (Ok [demo_slot 1793750000; demo_slot 1793760000])
    (demo_now + 3600 * 1000000)
  = Ok (0.090000000000000011%float,
        JDict [("severity", JFloat 0.090000000000000011); ("wx", JStr "Clouds");
               ("wind_mps", JFloat 1.5); ("rain_3h_mm", JFloat 0);
               ("snow_3h_mm", JFloat 0); ("clouds_pct", JFloat 50);
               ("forecast_dt", JStr "2026-11-03T23:53:20+00:00")]).
Proof. vm_compute. reflexivity. Qed.

(** ** C8: a failing audit insert *)

(** C8, as stated, fails: on the store with no usage yet, a route call whose
    [budget_consume] insert raises ends with the exception, no audit row, and
    the three committed route counters at 1 where they read 0 before. *)
Lemma audit_failure_counters_not_rolled_back :
  let r := run_session
             (_consume_budget default_config demo_env_audit_fails demo_trip
                "route" "route_calc" 1)
             (settled demo_db []) in
  fst r = Raised "insert into trip_updates failed"
  /\ trip_updates (committed (snd r)) = []
  /\ daily_calls demo_db "route" 20761 = 0
  /\ minute_calls demo_db "route" demo_now = 0
  /\ trip_route_calls demo_db 7%N 20761 = 0
  /\ daily_calls (committed (snd r)) "route" 20761 = 1
  /\ minute_calls (committed (snd r)) "route" demo_now = 1
  /\ trip_route_calls (committed (snd r)) 7%N 20761 = 1.
Proof. vm_compute. repeat split. Qed.

(** C8, amended. When a call is approved and the insert of its
    [budget_consume] row raises, the call raises; the three counters were
    committed before the insert and stay advanced by [amount]; nothing is left
    in flight and no audit row is written. *)
Theorem consume_audit_failure_keeps_counters cfg env trip api kind amount w :
  budget_denied cfg trip api amount (budget_day env api) (budget_minute env api) (working w)
  = false ->
  update_insert_fails env (budget_consume_row trip api kind amount) = true ->
  exists e w',
    _consume_budget cfg env trip api kind amount w = (Raised e, w')
    /\ working w' = committed w'
    /\ daily_calls (committed w') api (budget_day env api)
       = daily_calls (working w) api (budget_day env api) + amount
    /\ minute_calls (committed w') api (budget_minute env api)
       = minute_calls (working w) api (budget_minute env api) + amount
    /\ trip_calls (committed w') (Trip.id trip) (budget_day env api) api
       = trip_calls (working w) (Trip.id trip) (budget_day env api) api + amount
    /\ trip_updates (committed w') = trip_updates (working w).
Proof.
  intros Hden Hfail.
  rewrite consume_budget_run. unfold consume_outcome. rewrite Hden, Hfail.
  eexists; eexists; split; [reflexivity|].
  cbn [working committed settled]. unfold trip_calls.
  repeat split.
  - rewrite daily_calls_add, decide_True; reflexivity.
  - rewrite minute_calls_add, decide_True; reflexivity.
  - rewrite trip_owm_calls_add, trip_route_calls_add, !decide_True by reflexivity.
    destruct (String.eqb api "owm"); reflexivity.
Qed.

Lemma consume_audit_failure_keeps_counters_witness :
  exists e w',
    _consume_budget default_config demo_env_audit_fails demo_trip "route" "route_calc" 1
      (settled demo_db []) = (Raised e, w')
    /\ working w' = committed w'
    /\ daily_calls (committed w') "route" (budget_day demo_env_audit_fails "route")
       = daily_calls (working (settled demo_db [])) "route"
           (budget_day demo_env_audit_fails "route") + 1
    /\ minute_calls (committed w') "route" (budget_minute demo_env_audit_fails "route")
       = minute_calls (working (settled demo_db [])) "route"
           (budget_minute demo_env_audit_fails "route") + 1
    /\ trip_calls (committed w') (Trip.id demo_trip) (budget_day demo_env_audit_fails "route")
         "route"
       = trip_calls (working (settled demo_db [])) (Trip.id demo_trip)
           (budget_day demo_env_audit_fails "route") "route" + 1
    /\ trip_updates (committed w') = trip_updates (working (settled demo_db [])).
Proof.
  apply (consume_audit_failure_keeps_counters default_config demo_env_audit_fails demo_trip
           "route" "route_calc" 1 (settled demo_db [])).
  - vm_compute. reflexivity.
  - vm_compute. reflexivity.
Defined.

(** ** C9 and C10: unknown modes, and the recommended departure *)

(** C9. For every mode that is neither ["conservative"] nor ["aggressive"],
    whatever the text, and a run the budget did not limit,
    [_next_interval_seconds] returns the values of the balanced mode: 2400
    for green, 900 for yellow and 300 for red. The function is total: it
    returns an interval for every mode. *)
Theorem next_interval_unknown_mode_is_balanced (mode : string) :
  mode <> "conservative" ->
  mode <> "aggressive" ->
  _next_interval_seconds mode GREEN false = 2400
  /\ _next_interval_seconds mode YELLOW false = 900
  /\ _next_interval_seconds mode RED false = 300
  /\ (forall status,
        _next_interval_seconds mode status false
        = _next_interval_seconds "balanced" status false)
  /\ (forall status,
        _next_interval_seconds mode status false = 2400
        \/ _next_interval_seconds mode status false = 900
        \/ _next_interval_seconds mode status false = 300).
Proof.
  intros Hc Ha. unfold _next_interval_seconds.
  apply String.eqb_neq in Hc, Ha. rewrite Hc, Ha.
  repeat split. intros status.
  destruct (String.eqb status GREEN); [left; reflexivity|].
  destruct (String.eqb status YELLOW); [right; left | right; right]; reflexivity.
Qed.

Lemma next_interval_unknown_mode_is_balanced_witness :
  _next_interval_seconds "Balanced " GREEN false = 2400
  /\ _next_interval_seconds "Balanced " YELLOW false = 900
  /\ _next_interval_seconds "Balanced " RED false = 300
  /\ (forall status,
        _next_interval_seconds "Balanced " status false
        = _next_interval_seconds "balanced" status false)
  /\ (forall status,
        _next_interval_seconds "Balanced " status false = 2400
        \/ _next_interval_seconds "Balanced " status false = 900
        \/ _next_interval_seconds "Balanced " status false = 300).
Proof.
  apply (next_interval_unknown_mode_is_balanced "Balanced "); discriminate.
Defined.

(** C10. For every [now], [status] and [buffer_minutes],
    [_recommend_depart] returns a time no later than [now]: [now] itself
    exactly when the status is green, and otherwise a time 15, 30 or 60
    minutes earlier (30 or 15 for yellow, 60 or 30 for red). *)
Theorem recommend_depart_not_after_now (now : datetime) (status : string) (buffer_minutes : Z) :
  _recommend_depart now status buffer_minutes <= now
  /\ (_recommend_depart now status buffer_minutes = now <-> status = GREEN)
  /\ (status <> GREEN ->
      now - _recommend_depart now status buffer_minutes = timedelta_minutes 15
      \/ now - _recommend_depart now status buffer_minutes = timedelta_minutes 30
      \/ now - _recommend_depart now status buffer_minutes = timedelta_minutes 60)
  /\ (status = YELLOW ->
      _recommend_depart now status buffer_minutes
      = now - timedelta_minutes (if buffer_minutes <? 120 then 30 else 15))
  /\ (status = RED ->
      _recommend_depart now status buffer_minutes
      = now - timedelta_minutes (if buffer_minutes <? 60 then 60 else 30)).
Proof.
  unfold _recommend_depart, timedelta_minutes.
  destruct (String.eqb_spec status GREEN) as [->|Hg].
  - repeat split; try lia; try congruence; discriminate.
  - destruct (String.eqb_spec status YELLOW) as [->|Hy].
    + destruct (buffer_minutes <? 120); repeat split; intros; try lia; try congruence;
        try discriminate; auto.
    + destruct (buffer_minutes <? 60); repeat split; intros; try lia; try congruence; auto.
Qed.

(** ** The minute bucket *)

Lemma minute_bucket_floor (dt : datetime) :
  _minute_bucket dt = 60000000 * (dt / 60000000).
Proof. unfold _minute_bucket. pose proof (Z.div_mod dt 60000000). lia. Qed.

(** X1. [_minute_bucket] zeroes the second and the microsecond of its
    argument and keeps its date, hour and minute; the bucket is at most one
    minute before the time; and two times fall in the same bucket exactly
    when they lie in the same minute. *)
Theorem minute_bucket_truncates_to_the_minute (dt : datetime) :
  Calendar.second (_minute_bucket dt) = 0
  /\ Calendar.microsecond (_minute_bucket dt) = 0
  /\ Calendar.minute (_minute_bucket dt) = Calendar.minute dt
  /\ Calendar.hour (_minute_bucket dt) = Calendar.hour dt
  /\ Calendar.ymd (_minute_bucket dt) = Calendar.ymd dt
  /\ _minute_bucket dt <= dt < _minute_bucket dt + timedelta_minutes 1
  /\ (forall dt', _minute_bucket dt' = _minute_bucket dt <-> dt' / 60000000 = dt / 60000000).
Proof.
  rewrite minute_bucket_floor.
  unfold Calendar.second, Calendar.microsecond, Calendar.minute, Calendar.hour, Calendar.ymd,
    timedelta_minutes.
  set (q := dt / 60000000).
  assert (Hq : 60000000 * q <= dt < 60000000 * q + 60000000).
  { unfold q. pose proof (Z.div_mod dt 60000000). pose proof (Z.mod_pos_bound dt 60000000). lia. }
  split; [|split; [|split; [|split; [|split; [|split]]]]].
  - replace (60000000 * q) with (q * 60000000) by lia. rewrite Z.mod_mul by lia. reflexivity.
  - replace (60000000 * q) with (60 * q * 1000000) by lia. rewrite Z.mod_mul by lia. reflexivity.
  - Z.div_mod_to_equations. lia.
  - Z.div_mod_to_equations. lia.
  - replace (60000000 * q / 86400000000) with (dt / 86400000000); [reflexivity|].
    Z.div_mod_to_equations. lia.
  - lia.
  - intros dt'. rewrite minute_bucket_floor. fold q. lia.
Qed.

(** ** The ledger: what a call never does *)

Lemma counters_le_refl db : counters_le db db.
Proof. repeat split; intros; lia. Qed.

Lemma counters_le_trans db1 db2 db3 :
  counters_le db1 db2 -> counters_le db2 db3 -> counters_le db1 db3.
Proof.
  intros (A1 & A2 & A3 & A4) (B1 & B2 & B3 & B4).
  repeat split; intros.
  - specialize (A1 a d); specialize (B1 a d); lia.
  - specialize (A2 a mb); specialize (B2 a mb); lia.
  - specialize (A3 tid d); specialize (B3 tid d); lia.
  - specialize (A4 tid d); specialize (B4 tid d); lia.
Qed.

Lemma counters_le_same db db' : same_counters db db' -> counters_le db db'.
Proof.
  intros (S1 & S2 & S3 & S4). repeat split; intros;
    [rewrite S1 | rewrite S2 | rewrite S3 | rewrite S4]; lia.
Qed.

Lemma counters_le_add api d mb tid amount db :
  0 <= amount -> counters_le db (add_calls api d mb tid amount db).
Proof.
  intros Hpos. repeat split; intros.
  - rewrite daily_calls_add. case_decide as E; [inversion E; subst|]; lia.
  - rewrite minute_calls_add. case_decide as E; [inversion E; subst|]; lia.
  - rewrite trip_owm_calls_add. case_decide as E; [inversion E; subst|]; [|lia].
    destruct (String.eqb api "owm"); lia.
  - rewrite trip_route_calls_add. case_decide as E; [inversion E; subst|]; [|lia].
    destruct (String.eqb api "owm"); lia.
Qed.

Lemma consume_call_counters_le cfg w c :
  0 <= ca_amount c -> counters_le (committed w) (committed (consume_call cfg w c)).
Proof.
  intros Hpos.
  destruct (consume_call_committed cfg w c) as [[_ ->] | [_ [-> | ->]]].
  - apply counters_le_same, same_counters_ensure.
  - apply counters_le_add. exact Hpos.
  - eapply counters_le_trans; [apply counters_le_add; exact Hpos|].
    apply counters_le_same, same_counters_add_update.
Qed.

(** X2. Whatever the calls of [_consume_budget], for any API name, any trip,
    any clock and any failing insert, with amounts that are not negative: no
    counter of the committed rows ever reads less after the calls than
    before. *)
Theorem consume_never_lowers_a_counter (cfg : Config) (calls : list consume_args) (w : World) :
  Forall (fun c => 0 <= ca_amount c) calls ->
  counters_le (committed w) (committed (consume_calls cfg calls w)).
Proof.
  revert w. induction calls as [|c calls IH]; intros w Hpos; cbn [consume_calls fold_left].
  - apply counters_le_refl.
  - inversion Hpos as [|? ? Hc Hrest]; subst.
    eapply counters_le_trans; [apply consume_call_counters_le; exact Hc|].
    apply IH. exact Hrest.
Qed.

Lemma consume_never_lowers_a_counter_witness :
  counters_le (committed (settled demo_db []))
    (committed (consume_calls default_config
                  [demo_call "route"; demo_call "owm"; demo_call "route"] (settled demo_db []))).
Proof.
  apply (consume_never_lowers_a_counter default_config
           [demo_call "route"; demo_call "owm"; demo_call "route"] (settled demo_db [])).
  repeat constructor; simpl; lia.
Defined.

(** X3. For an [api_name] that is neither ["owm"] nor ["route"],
    [_consume_budget] tests the two global limits of the route API against
    the counters of that name, and no cap of the trip: the call is approved
    whatever the trip's cap and count, it adds [amount] to the [route_calls]
    of the trip, and it leaves the global counters of ["route"] alone. *)
Theorem consume_unknown_api_skips_the_trip_cap cfg env trip api kind amount w :
  api <> "owm" -> api <> "route" ->
  daily_calls (working w) api (budget_day env api) + amount <= ROUTE_DAILY_LIMIT cfg ->
  minute_calls (working w) api (budget_minute env api) + amount <= ROUTE_PER_MIN_LIMIT cfg ->
  update_insert_fails env (budget_consume_row trip api kind amount) = false ->
  exists w',
    _consume_budget cfg env trip api kind amount w = (Ok (true, "ok"), w')
    /\ trip_route_calls (committed w') (Trip.id trip) (budget_day env api)
       = trip_route_calls (working w) (Trip.id trip) (budget_day env api) + amount
    /\ trip_owm_calls (committed w') (Trip.id trip) (budget_day env api)
       = trip_owm_calls (working w) (Trip.id trip) (budget_day env api)
    /\ (forall d, daily_calls (committed w') "route" d = daily_calls (working w) "route" d)
    /\ (forall mb, minute_calls (committed w') "route" mb = minute_calls (working w) "route" mb).
Proof.
  intros Ho Hr Hd Hm Hf.
  apply String.eqb_neq in Ho, Hr.
  rewrite consume_budget_run. unfold consume_outcome.
  assert (Hden : budget_denied cfg trip api amount (budget_day env api) (budget_minute env api)
                   (working w) = false).
  { unfold budget_denied, daily_limit_of, per_min_limit_of. rewrite Ho, Hr. cbn [andb orb].
    rewrite !orb_false_r. apply orb_false_iff. split; rewrite Z.gtb_ltb; apply Z.ltb_ge; lia. }
  rewrite Hden, Hf. eexists; split; [reflexivity|].
  cbn [committed settled].
  change (trip_route_calls (add_update ?r ?db)) with (trip_route_calls db).
  change (trip_owm_calls (add_update ?r ?db)) with (trip_owm_calls db).
  change (daily_calls (add_update ?r ?db)) with (daily_calls db).
  change (minute_calls (add_update ?r ?db)) with (minute_calls db).
  rewrite trip_route_calls_add, trip_owm_calls_add, !decide_True, Ho by reflexivity.
  repeat split.
  - intros d. rewrite daily_calls_add, decide_False; [reflexivity|].
    intros E. inversion E as [[E1 E2]]. apply String.eqb_neq in Hr. congruence.
  - intros mb. rewrite minute_calls_add, decide_False; [reflexivity|].
    intros E. inversion E as [[E1 E2]]. apply String.eqb_neq in Hr. congruence.
Qed.

Lemma consume_unknown_api_skips_the_trip_cap_witness :
  trip_route_calls demo_db_trip_route_full 7%N 20761 = Trip.trip_route_daily_cap demo_trip
  /\ exists w',
    _consume_budget default_config demo_env demo_trip "osrm" "route_calc" 1
      (settled demo_db_trip_route_full []) = (Ok (true, "ok"), w')
    /\ trip_route_calls (committed w') (Trip.id demo_trip) (budget_day demo_env "osrm")
       = trip_route_calls (working (settled demo_db_trip_route_full [])) (Trip.id demo_trip)
           (budget_day demo_env "osrm") + 1
    /\ trip_owm_calls (committed w') (Trip.id demo_trip) (budget_day demo_env "osrm")
       = trip_owm_calls (working (settled demo_db_trip_route_full [])) (Trip.id demo_trip)
           (budget_day demo_env "osrm")
    /\ (forall d, daily_calls (committed w') "route" d
                  = daily_calls (working (settled demo_db_trip_route_full [])) "route" d)
    /\ (forall mb, minute_calls (committed w') "route" mb
                   = minute_calls (working (settled demo_db_trip_route_full [])) "route" mb).
Proof.
  split; [reflexivity|].
  apply (consume_unknown_api_skips_the_trip_cap default_config demo_env demo_trip "osrm"
           "route_calc" 1 (settled demo_db_trip_route_full [])).
  - discriminate.
  - discriminate.
  - vm_compute. discriminate.
  - vm_compute. discriminate.
  - reflexivity.
Defined.


(** ** The forecast: the range of the severity *)

Module FloatRange.

Lemma ltb_leb (a b : float) : PrimFloat.ltb a b = true -> PrimFloat.leb a b = true.
Proof.
  rewrite ltb_spec, leb_spec. unfold SFltb, SFleb.
  destruct (SFcompare (Prim2SF a) (Prim2SF b)) as [[]|]; try discriminate; reflexivity.
Qed.

(** [max(lo, min(hi, x))] is a number of [[lo, hi]], whatever [x], a NaN
    included. *)
Lemma max_min_in_range (x lo hi : float) :
  PrimFloat.leb lo lo = true -> PrimFloat.leb hi hi = true -> PrimFloat.leb lo hi = true ->
  PrimFloat.leb lo (PyFloat.py_max lo (PyFloat.py_min hi x)) = true
  /\ PrimFloat.leb (PyFloat.py_max lo (PyFloat.py_min hi x)) hi = true.
Proof.
  intros Hlo Hhi Hlh. unfold PyFloat.py_max, PyFloat.py_min.
  destruct (PrimFloat.ltb x hi) eqn:E1.
  - destruct (PrimFloat.ltb lo x) eqn:E2.
    + split; apply ltb_leb; assumption.
    + split; assumption.
  - destruct (PrimFloat.ltb lo hi) eqn:E2; split; assumption.
Qed.

Lemma severity_in_unit_interval (wind rain snow clouds : float) :
  in_unit_interval (severity wind rain snow clouds).
Proof.
  unfold severity, in_unit_interval. cbv zeta.
  apply max_min_in_range; reflexivity.
Qed.

End FloatRange.

Lemma forecast_ok_range key resp eta_dt sev wx :
  _forecast key resp eta_dt = Ok (sev, wx) ->
  in_unit_interval sev /\ json_get "severity" wx = Some (JFloat sev).
Proof.
  unfold _forecast.
  destruct key as [k|]; [|discriminate].
  destruct resp as [items|e]; [|discriminate].
  destruct (nearest_slot eta_dt items) as [[best d]|]; intros H; inversion H; subst; clear H.
  - split; [apply FloatRange.severity_in_unit_interval | reflexivity].
  - split; [split; reflexivity | reflexivity].
Qed.

Lemma weather_of_forecast_range env lat lon eta sev wx bl :
  weather_of_forecast env lat lon eta = (sev, wx, bl) -> in_unit_interval sev.
Proof.
  unfold weather_of_forecast.
  destruct (_forecast _ _ _) as [[s x]|e] eqn:E; intros H; inversion H; subst; clear H.
  - apply (forecast_ok_range _ _ _ _ _ E).
  - split; reflexivity.
Qed.

(** X5. Every severity [_forecast] returns is a number of [[0, 1]], never
    a NaN, whatever the readings of the provider (negative, infinite or NaN),
    and the weather record carries that same severity. *)
Theorem forecast_severity_in_unit_interval key resp eta_dt sev wx :
  _forecast key resp eta_dt = Ok (sev, wx) ->
  in_unit_interval sev /\ json_get "severity" wx = Some (JFloat sev).
Proof.
  unfold _forecast.
  destruct key as [k|]; [|discriminate].
  destruct resp as [items|e]; [|discriminate].
  destruct (nearest_slot eta_dt items) as [[best d]|]; intros H; inversion H; subst; clear H.
  - split; [|reflexivity]. unfold severity, in_unit_interval. cbv zeta.
    apply FloatRange.max_min_in_range; reflexivity.
  - split; [split; reflexivity | reflexivity].
Qed.

Lemma forecast_severity_in_unit_interval_witness :
  in_unit_interval 0.090000000000000011
  /\ json_get "severity"
       (JDict [("severity", JFloat 0.090000000000000011); ("wx", JStr "Clouds");
               ("wind_mps", JFloat 1.5); ("rain_3h_mm", JFloat 0);
               ("snow_3h_mm", JFloat 0); ("clouds_pct", JFloat 50);
               ("forecast_dt", JStr "2026-11-03T23:53:20+00:00")])
     = Some (JFloat 0.090000000000000011).
Proof.
  apply (forecast_severity_in_unit_interval (Some "k")
           (Ok [demo_slot 1793750000; demo_slot 1793760000]) (demo_now + 3600 * 1000000)).
  vm_compute. reflexivity.
Defined.

(** ** The recalculator: an unknown trip, a failing route provider *)

(** X6. [recalc_trip] for an identity that is not in [trips] returns
    [not-found] and changes nothing: no row, no counter, no call. *)
Theorem recalc_unknown_trip_changes_nothing cfg env tid w :
  trips (committed w) !! tid = None ->
  recalc_trip cfg env tid w
  = (Ok (JDict [("ok", JBool false); ("error", JStr "not-found")]),
     settled (committed w) (ext_calls w)).
Proof.
  intros Ht. rewrite recalc_trip_outcome. unfold recalc_outcome. cbv zeta. rewrite Ht.
  reflexivity.
Qed.

Lemma recalc_unknown_trip_changes_nothing_witness :
  recalc_trip default_config demo_env 8%N (settled demo_db [])
  = (Ok (JDict [("ok", JBool false); ("error", JStr "not-found")]),
     settled (committed (settled demo_db [])) (ext_calls (settled demo_db []))).
Proof.
  apply (recalc_unknown_trip_changes_nothing default_config demo_env 8%N (settled demo_db [])).
  reflexivity.
Defined.

(** X7. When the route budget is granted and the route provider fails, the
    run returns [route: <error>], leaves the trip in [error] with
    [last_calc_at = now] and [next_calc_at] the interval of its policy and
    status (not the back-off of a limited budget) after [now], and appends
    [recalc_running], [budget_consume] and [recalc_error] of stage [route];
    the unit of the route budget stays consumed: the three route counters
    have advanced by one. *)
Theorem recalc_route_failure_keeps_the_unit cfg env tid t w e :
  trips (committed w) !! tid = Some t ->
  (forall row, update_insert_fails env row = false) ->
  (2 <= length (Trip.waypoints t))%nat ->
  need_route t = true ->
  ~ cap_exceeded cfg t "route" 1 (budget_day env "route") (budget_minute env "route")
      (committed w) ->
  route_answer env (map (fun p : point => (snd p, fst p)) (Trip.waypoints t)) = Raised e ->
  exists w',
    recalc_trip cfg env tid w
    = (Ok (JDict [("ok", JBool false); ("error", JStr ("route: " ++ e))]), w')
    /\ trips (committed w') !! tid =
         Some (Trip.set_schedule
                 (plus_seconds (now env)
                    (_next_interval_seconds (Trip.policy_mode t) (status_or_yellow t) false))
                 (now env) (Trip.set_calc_state "error" t))
    /\ trip_updates (committed w') =
         (trip_updates (committed w)
            ++ [running_row env tid; budget_consume_row t "route" "route_calc" 1;
                route_error_row tid e])%list
    /\ ext_calls w'
       = (ext_calls w ++ [CallRoute (map (fun p : point => (snd p, fst p)) (Trip.waypoints t))])%list
    /\ daily_calls (committed w') "route" (budget_day env "route")
       = daily_calls (committed w) "route" (budget_day env "route") + 1
    /\ minute_calls (committed w') "route" (budget_minute env "route")
       = minute_calls (committed w) "route" (budget_minute env "route") + 1
    /\ trip_route_calls (committed w') (Trip.id t) (budget_day env "route")
       = trip_route_calls (committed w) (Trip.id t) (budget_day env "route") + 1.
Proof.
  intros Ht Hnf Hlen Hneed Hcap Hroute.
  rewrite <- budget_denied_iff in Hcap by (right; reflexivity).
  apply not_true_is_false in Hcap.
  rewrite recalc_trip_outcome. unfold recalc_outcome. cbv zeta. rewrite Ht, Hnf.
  unfold loaded_outcome. cbv zeta. cbn [working settled ext_calls].
  destruct (Nat.ltb_spec (length (Trip.waypoints t)) 2) as [Hlt|_]; [lia|].
  rewrite Hneed.
  change (budget_denied cfg t "route" 1 ?d ?mb (add_update ?r (alter_trip ?i ?f ?db)))
    with (budget_denied cfg t "route" 1 d mb db).
  rewrite Hcap, Hnf, Hroute, Hnf.
  eexists; split; [reflexivity|].
  cbn [committed settled ext_calls].
  split; [|split; [|split; [|split; [|split]]]].
  - trips_simpl. rewrite !lookup_alter_eq, Ht. reflexivity.
  - cbn. rewrite <- !app_assoc. reflexivity.
  - reflexivity.
  - change (daily_calls (alter_trip ?i ?f ?db)) with (daily_calls db).
    change (daily_calls (add_update ?r ?db)) with (daily_calls db).
    change (daily_calls (alter_trip ?i ?f ?db)) with (daily_calls db).
    change (daily_calls (add_update ?r ?db)) with (daily_calls db).
    rewrite daily_calls_add, decide_True by reflexivity. reflexivity.
  - change (minute_calls (alter_trip ?i ?f ?db)) with (minute_calls db).
    change (minute_calls (add_update ?r ?db)) with (minute_calls db).
    change (minute_calls (alter_trip ?i ?f ?db)) with (minute_calls db).
    change (minute_calls (add_update ?r ?db)) with (minute_calls db).
    rewrite minute_calls_add, decide_True by reflexivity. reflexivity.
  - change (trip_route_calls (alter_trip ?i ?f ?db)) with (trip_route_calls db).
    change (trip_route_calls (add_update ?r ?db)) with (trip_route_calls db).
    change (trip_route_calls (alter_trip ?i ?f ?db)) with (trip_route_calls db).
    change (trip_route_calls (add_update ?r ?db)) with (trip_route_calls db).
    rewrite trip_route_calls_add, decide_True by reflexivity. reflexivity.
Qed.

Lemma recalc_route_failure_keeps_the_unit_witness :
  exists w',
    recalc_trip default_config demo_env_route_down 7%N (settled demo_db [])
    = (Ok (JDict [("ok", JBool false); ("error", JStr ("route: " ++ "503 Service Unavailable"))]),
       w')
    /\ trips (committed w') !! 7%N =
         Some (Trip.set_schedule
                 (plus_seconds (now demo_env_route_down)
                    (_next_interval_seconds (Trip.policy_mode demo_trip)
                       (status_or_yellow demo_trip) false))
                 (now demo_env_route_down) (Trip.set_calc_state "error" demo_trip))
    /\ trip_updates (committed w') =
         (trip_updates (committed (settled demo_db []))
            ++ [running_row demo_env_route_down 7%N;
                budget_consume_row demo_trip "route" "route_calc" 1;
                route_error_row 7%N "503 Service Unavailable"])%list
    /\ ext_calls w'
       = (ext_calls (settled demo_db [])
            ++ [CallRoute (map (fun p : point => (snd p, fst p)) (Trip.waypoints demo_trip))])%list
    /\ daily_calls (committed w') "route" (budget_day demo_env_route_down "route")
       = daily_calls (committed (settled demo_db [])) "route"
           (budget_day demo_env_route_down "route") + 1
    /\ minute_calls (committed w') "route" (budget_minute demo_env_route_down "route")
       = minute_calls (committed (settled demo_db [])) "route"
           (budget_minute demo_env_route_down "route") + 1
    /\ trip_route_calls (committed w') (Trip.id demo_trip) (budget_day demo_env_route_down "route")
       = trip_route_calls (committed (settled demo_db [])) (Trip.id demo_trip)
           (budget_day demo_env_route_down "route") + 1.
Proof.
  apply (recalc_route_failure_keeps_the_unit default_config demo_env_route_down 7%N demo_trip
           (settled demo_db []) "503 Service Unavailable").
  - reflexivity.
  - reflexivity.
  - simpl. lia.
  - reflexivity.
  - unfold cap_exceeded. vm_compute. intros [H | [H | H]]; discriminate.
  - reflexivity.
Defined.

(** ** The recalculator: what no run touches *)

Lemma same_request_refl t : same_request t t.
Proof. repeat split. Qed.

Lemma same_request_trans t1 t2 t3 :
  same_request t1 t2 -> same_request t2 t3 -> same_request t1 t3.
Proof. unfold same_request. intuition congruence. Qed.

Lemma same_request_calc_state s x : same_request x (Trip.set_calc_state s x).
Proof. repeat split. Qed.

Lemma same_request_schedule next last x : same_request x (Trip.set_schedule next last x).
Proof. repeat split. Qed.

Lemma same_request_done_values env t dist_m dur_s geom sev bl x :
  same_request x (done_values env t dist_m dur_s geom sev bl x).
Proof.
  unfold done_values. cbv zeta.
  destruct (_risk _ _ _) as [[[[pct st] buf] why] sugg]. repeat split.
Qed.

Lemma done_row_trip_id env tid t dist_m dur_s geom provider sev wx :
  TripUpdate.trip_id (done_row env tid t dist_m dur_s geom provider sev wx) = tid.
Proof.
  unfold done_row. destruct (_risk _ _ _) as [[[[pct st] buf] why] sugg]. reflexivity.
Qed.

Lemma touches_refl tid db : touches_only tid db db.
Proof.
  split; [reflexivity|]. split.
  - destruct (trips db !! tid); [apply same_request_refl | exact I].
  - exists []. rewrite app_nil_r. split; [reflexivity | constructor].
Qed.

Lemma touches_alter tid f db db' :
  (forall x, same_request x (f x)) ->
  touches_only tid db db' -> touches_only tid db (alter_trip tid f db').
Proof.
  intros Hf (H1 & H2 & H3). split; [|split].
  - intros k Hk. cbn [trips alter_trip]. rewrite lookup_alter_ne by congruence. auto.
  - cbn [trips alter_trip]. rewrite lookup_alter_eq.
    destruct (trips db !! tid) as [t|], (trips db' !! tid) as [t'|];
      cbn [fmap option_fmap option_map]; try contradiction; [|exact I].
    eapply same_request_trans; [exact H2 | apply Hf].
  - exact H3.
Qed.

Lemma touches_add_update tid row db db' :
  TripUpdate.trip_id row = tid ->
  touches_only tid db db' -> touches_only tid db (add_update row db').
Proof.
  intros Hrow (H1 & H2 & rows & H3 & H4). split; [exact H1|]. split; [exact H2|].
  exists (rows ++ [row])%list. cbn [trip_updates add_update]. rewrite H3, app_assoc.
  split; [reflexivity|]. apply Forall_app. split; [exact H4|]. constructor; [exact Hrow|constructor].
Qed.

Lemma touches_ensure tid api d mb tid' db db' :
  touches_only tid db db' -> touches_only tid db (ensure_rows api d mb tid' db').
Proof. intros H. exact H. Qed.

Lemma touches_add_calls tid api d mb tid' amount db db' :
  touches_only tid db db' -> touches_only tid db (add_calls api d mb tid' amount db').
Proof. intros H. exact H. Qed.

(** Every update of a run is an update of the trip [tid]. *)
Ltac touches Hid :=
  cbn [committed working ext_calls settled pending snd];
  repeat match goal with
  | |- touches_only _ _ (alter_trip _ _ _) =>
      apply touches_alter;
        [first [ apply same_request_calc_state | apply same_request_schedule
               | apply same_request_done_values ] |]
  | |- touches_only _ _ (add_update _ _) =>
      apply touches_add_update;
        [first [ reflexivity | apply done_row_trip_id | exact Hid ] |]
  | |- touches_only _ _ (ensure_rows _ _ _ _ _) => apply touches_ensure
  | |- touches_only _ _ (add_calls _ _ _ _ _ _) => apply touches_add_calls
  | |- touches_only _ ?db ?db => apply touches_refl
  end.

Lemma finish_touches cfg env tid t dist_m dur_s geom provider db w :
  Trip.id t = tid ->
  touches_only tid db (committed w) ->
  working w = committed w ->
  touches_only tid db (committed (snd (finish_outcome cfg env tid t dist_m dur_s geom provider w))).
Proof.
  intros Hid Hdb Hw. unfold finish_outcome, weather_outcome. cbv zeta. rewrite Hw.
  destruct (budget_denied _ _ _ _ _ _ _).
  - destruct (update_insert_fails env (budget_denied_row _ _ _)); [touches Hid; exact Hdb|].
    destruct (update_insert_fails env (done_row _ _ _ _ _ _ _ _ _)); touches Hid; exact Hdb.
  - destruct (update_insert_fails env (budget_consume_row _ _ _ _)); [touches Hid; exact Hdb|].
    destruct (weather_of_forecast _ _ _ _) as [[sev wx] bl].
    destruct (update_insert_fails env (done_row _ _ _ _ _ _ _ _ _)); touches Hid; exact Hdb.
Qed.

Lemma keyed_touches tid db db' : touches_only tid db db' -> keyed db -> keyed db'.
Proof.
  intros (H1 & H2 & _) Hk k t Ht.
  destruct (decide (k = tid)) as [->|Hne].
  - rewrite Ht in H2. destruct (trips db !! tid) as [t0|] eqn:E; [|contradiction].
    destruct H2 as (Hid & _). rewrite Hid. apply Hk. exact E.
  - apply Hk. rewrite <- H1 by exact Hne. exact Ht.
Qed.

Lemma recalc_frame cfg env tid w :
  keyed (committed w) ->
  touches_only tid (committed w) (committed (snd (recalc_trip cfg env tid w))).
Proof.
  intros Hk.
  rewrite recalc_trip_outcome. unfold recalc_outcome. cbv zeta.
  destruct (trips (committed w) !! tid) as [t|] eqn:Ht; [|touches I].
  pose proof (Hk _ _ Ht) as Hid.
  destruct (update_insert_fails env (running_row env tid)); [touches Hid|].
  unfold loaded_outcome. cbv zeta.
  destruct (length (Trip.waypoints t) <? 2)%nat.
  { destruct (update_insert_fails env (validate_error_row tid)); touches Hid. }
  destruct (need_route t).
  - destruct (budget_denied _ _ _ _ _ _ _).
    + destruct (update_insert_fails env (budget_denied_row _ _ _)); touches Hid.
    + destruct (update_insert_fails env (budget_consume_row _ _ _ _)); [touches Hid|].
      destruct (route_answer env _) as [[[[dist_m dur_s] geom] provider]|e].
      * match goal with
        | |- context [finish_outcome ?c ?e ?i ?tt ?dm ?ds ?g ?p ?ww] =>
            pose proof (finish_touches c e i tt dm ds g p (committed w) ww Hid) as Hf;
            destruct (finish_outcome c e i tt dm ds g p ww) as [r w1]
        end.
        cbn [snd committed settled] in *. apply Hf; [touches Hid | reflexivity].
      * destruct (update_insert_fails env (route_error_row _ _)); touches Hid.
  - destruct (Trip.route_duration_s t) as [dur_s|]; [|touches Hid].
    match goal with
    | |- context [finish_outcome ?c ?e ?i ?tt ?dm ?ds ?g ?p ?ww] =>
        pose proof (finish_touches c e i tt dm ds g p (committed w) ww Hid) as Hf;
        destruct (finish_outcome c e i tt dm ds g p ww) as [r w1]
    end.
    cbn [snd committed settled] in *. apply Hf; [touches Hid | reflexivity].
Qed.

(** X8. However a run of [recalc_trip] ends, it changes no trip but its
    own, creates and deletes none, keeps the identity, deadline, waypoints,
    policy mode and caps of its trip, and only appends to the event log, rows
    of its trip; the keys of [trips] stay the identities of its rows. *)
Theorem recalc_touches_one_trip cfg env tid w :
  keyed (committed w) ->
  keyed (committed (snd (recalc_trip cfg env tid w)))
  /\ touches_only tid (committed w) (committed (snd (recalc_trip cfg env tid w))).
Proof.
  intros Hk. pose proof (recalc_frame cfg env tid w Hk) as Ht.
  split; [eapply keyed_touches; eassumption | exact Ht].
Qed.

Lemma keyed_demo_db : keyed demo_db.
Proof.
  intros k t Ht. unfold demo_db in Ht. cbn [trips] in Ht.
  apply lookup_singleton_Some in Ht as [<- <-]. reflexivity.
Defined.

Lemma recalc_touches_one_trip_witness :
  keyed (committed (snd (recalc_trip default_config demo_env 7%N (settled demo_db []))))
  /\ touches_only 7%N (committed (settled demo_db []))
       (committed (snd (recalc_trip default_config demo_env 7%N (settled demo_db [])))).
Proof.
  apply (recalc_touches_one_trip default_config demo_env 7%N (settled demo_db [])).
  exact keyed_demo_db.
Defined.

(** ** The recalculator: every call to a provider is paid for *)

(** The counters read through the updates of a run. *)
Ltac counters_simpl :=
  repeat first
    [ progress change (daily_calls (alter_trip ?i ?f ?db)) with (daily_calls db)
    | progress change (daily_calls (add_update ?r ?db)) with (daily_calls db)
    | progress change (minute_calls (alter_trip ?i ?f ?db)) with (minute_calls db)
    | progress change (minute_calls (add_update ?r ?db)) with (minute_calls db)
    | progress change (trip_owm_calls (alter_trip ?i ?f ?db)) with (trip_owm_calls db)
    | progress change (trip_owm_calls (add_update ?r ?db)) with (trip_owm_calls db)
    | progress change (trip_route_calls (alter_trip ?i ?f ?db)) with (trip_route_calls db)
    | progress change (trip_route_calls (add_update ?r ?db)) with (trip_route_calls db) ].

Lemma daily_calls_ensure api d mb tid db a' d' :
  daily_calls (ensure_rows api d mb tid db) a' d' = daily_calls db a' d'.
Proof. apply (same_counters_ensure api d mb tid db). Qed.

Lemma minute_calls_ensure api d mb tid db a' mb' :
  minute_calls (ensure_rows api d mb tid db) a' mb' = minute_calls db a' mb'.
Proof. apply (same_counters_ensure api d mb tid db). Qed.

Lemma paid_refl env db calls : calls_paid_for env db calls db calls.
Proof. exists []. rewrite app_nil_r. cbn. repeat split; lia. Qed.

(** Updates that move no counter keep what is paid for. *)
Lemma paid_same env db calls db1 db2 calls' :
  (forall a d, daily_calls db2 a d = daily_calls db1 a d) ->
  (forall a mb, minute_calls db2 a mb = minute_calls db1 a mb) ->
  calls_paid_for env db calls db1 calls' -> calls_paid_for env db calls db2 calls'.
Proof.
  intros Hd Hm (new & H & H1 & H2 & H3 & H4 & H5 & H6).
  exists new. rewrite !Hd, !Hm. repeat split; assumption.
Qed.

(** A unit of [api] paid with no call made. *)
Lemma paid_unit env db calls db1 calls' api tid :
  calls_paid_for env db calls db1 calls' ->
  calls_paid_for env db calls
    (add_calls api (budget_day env api) (budget_minute env api) tid 1 db1) calls'.
Proof.
  intros (new & H & H1 & H2 & H3 & H4 & H5 & H6).
  exists new. rewrite !daily_calls_add, !minute_calls_add.
  repeat split; try assumption; case_decide as E; try lia; inversion E as [[E1 E2]];
    rewrite <- ?E1; lia.
Qed.

Lemma paid_route_call env db calls db1 calls' tid coords :
  calls_paid_for env db calls db1 calls' ->
  route_calls_made calls' = route_calls_made calls ->
  calls_paid_for env db calls
    (add_calls "route" (budget_day env "route") (budget_minute env "route") tid 1 db1)
    (calls' ++ [CallRoute coords]).
Proof.
  intros (new & H & H1 & H2 & H3 & H4 & H5 & H6) Hnone.
  assert (Hr : route_calls_made new = []).
  { subst calls'. unfold route_calls_made in *. rewrite List.filter_app in Hnone.
    rewrite <- (app_nil_r (List.filter is_route_call calls)) in Hnone at 2.
    apply app_inv_head in Hnone. exact Hnone. }
  exists (new ++ [CallRoute coords])%list.
  unfold route_calls_made, forecast_calls_made in *.
  rewrite !List.filter_app, !length_app. cbn [List.filter is_route_call is_forecast_call length].
  rewrite Hr in *. cbn [length] in *.
  rewrite !daily_calls_add, !minute_calls_add.
  repeat first [rewrite decide_True by reflexivity | rewrite decide_False by discriminate].
  subst calls'. rewrite app_assoc. repeat split; try lia.
Qed.

Lemma paid_forecast_call env db calls db1 calls' tid lat lon eta :
  calls_paid_for env db calls db1 calls' ->
  forecast_calls_made calls' = forecast_calls_made calls ->
  calls_paid_for env db calls
    (add_calls "owm" (budget_day env "owm") (budget_minute env "owm") tid 1 db1)
    (calls' ++ [CallForecast lat lon eta]).
Proof.
  intros (new & H & H1 & H2 & H3 & H4 & H5 & H6) Hnone.
  assert (Hr : forecast_calls_made new = []).
  { subst calls'. unfold forecast_calls_made in *. rewrite List.filter_app in Hnone.
    rewrite <- (app_nil_r (List.filter is_forecast_call calls)) in Hnone at 2.
    apply app_inv_head in Hnone. exact Hnone. }
  exists (new ++ [CallForecast lat lon eta])%list.
  unfold route_calls_made, forecast_calls_made in *.
  rewrite !List.filter_app, !length_app. cbn [List.filter is_route_call is_forecast_call length].
  rewrite Hr in *. cbn [length] in *.
  rewrite !daily_calls_add, !minute_calls_add.
  repeat first [rewrite decide_True by reflexivity | rewrite decide_False by discriminate].
  subst calls'. rewrite app_assoc. repeat split; try lia.
Qed.

Lemma paid_alter env db calls db1 calls' tid f :
  calls_paid_for env db calls db1 calls' ->
  calls_paid_for env db calls (alter_trip tid f db1) calls'.
Proof. apply paid_same; reflexivity. Qed.

Lemma paid_add_update env db calls db1 calls' row :
  calls_paid_for env db calls db1 calls' ->
  calls_paid_for env db calls (add_update row db1) calls'.
Proof. apply paid_same; reflexivity. Qed.

Lemma paid_ensure env db calls db1 calls' api d mb tid :
  calls_paid_for env db calls db1 calls' ->
  calls_paid_for env db calls (ensure_rows api d mb tid db1) calls'.
Proof. apply paid_same; intros; [apply daily_calls_ensure | apply minute_calls_ensure]. Qed.

Ltac paid :=
  cbn [committed working ext_calls settled pending snd];
  repeat match goal with
  | |- calls_paid_for _ _ _ (alter_trip _ _ _) _ => apply paid_alter
  | |- calls_paid_for _ _ _ (add_update _ _) _ => apply paid_add_update
  | |- calls_paid_for _ _ _ (ensure_rows _ _ _ _ _) _ => apply paid_ensure
  | |- calls_paid_for _ ?db ?calls ?db ?calls => apply paid_refl
  | H : calls_paid_for _ ?db ?calls ?db1 ?calls1 |- calls_paid_for _ ?db ?calls ?db1 ?calls1 =>
      exact H
  end.

Lemma finish_paid cfg env tid t dist_m dur_s geom provider db calls w :
  calls_paid_for env db calls (committed w) (ext_calls w) ->
  forecast_calls_made (ext_calls w) = forecast_calls_made calls ->
  working w = committed w ->
  calls_paid_for env db calls
    (committed (snd (finish_outcome cfg env tid t dist_m dur_s geom provider w)))
    (ext_calls (snd (finish_outcome cfg env tid t dist_m dur_s geom provider w))).
Proof.
  intros Hp Hnone Hw. unfold finish_outcome, weather_outcome. cbv zeta. rewrite Hw.
  destruct (budget_denied _ _ _ _ _ _ _).
  - destruct (update_insert_fails env (budget_denied_row _ _ _)); [paid|].
    destruct (update_insert_fails env (done_row _ _ _ _ _ _ _ _ _)); paid.
  - destruct (update_insert_fails env (budget_consume_row _ _ _ _));
      [cbn [committed ext_calls settled snd]; apply paid_unit; exact Hp|].
    destruct (weather_of_forecast _ _ _ _) as [[sev wx] bl].
    destruct (update_insert_fails env (done_row _ _ _ _ _ _ _ _ _)); paid;
      apply paid_forecast_call; assumption.
Qed.

(** X9. However a run of [recalc_trip] ends, it calls each provider once
    at most, and for each call it makes, the daily and the minute counter of
    that API have advanced in the committed rows: no call leaves the worker
    without a unit of its budget. *)
Theorem recalc_calls_are_paid_for cfg env tid w :
  calls_paid_for env (committed w) (ext_calls w)
    (committed (snd (recalc_trip cfg env tid w)))
    (ext_calls (snd (recalc_trip cfg env tid w))).
Proof.
  rewrite recalc_trip_outcome. unfold recalc_outcome. cbv zeta.
  destruct (trips (committed w) !! tid) as [t|]; [|paid].
  destruct (update_insert_fails env (running_row env tid)); [paid|].
  unfold loaded_outcome. cbv zeta.
  destruct (length (Trip.waypoints t) <? 2)%nat.
  { destruct (update_insert_fails env (validate_error_row tid)); paid. }
  destruct (need_route t).
  - destruct (budget_denied _ _ _ _ _ _ _).
    + destruct (update_insert_fails env (budget_denied_row _ _ _)); paid.
    + destruct (update_insert_fails env (budget_consume_row _ _ _ _));
        [cbn [committed ext_calls settled snd]; apply paid_unit; paid|].
      assert (Hroute : forall coords,
        calls_paid_for env (committed w) (ext_calls w)
          (add_calls "route" (budget_day env "route") (budget_minute env "route") (Trip.id t) 1
             (add_update (running_row env tid)
                (alter_trip tid (Trip.set_calc_state "running") (committed w))))
          (ext_calls w ++ [CallRoute coords])).
      { intros coords. apply paid_route_call; [paid | reflexivity]. }
      destruct (route_answer env _) as [[[[dist_m dur_s] geom] provider]|e].
      * match goal with
        | |- context [finish_outcome ?c ?e ?i ?tt ?dm ?ds ?g ?p ?ww] =>
            pose proof (finish_paid c e i tt dm ds g p (committed w) (ext_calls w) ww) as Hf;
            destruct (finish_outcome c e i tt dm ds g p ww) as [r w1]
        end.
        cbn [snd committed ext_calls settled] in *. apply Hf; [paid; apply Hroute | | reflexivity].
        unfold forecast_calls_made. rewrite List.filter_app. cbn. apply app_nil_r.
      * destruct (update_insert_fails env (route_error_row _ _)); paid; apply Hroute.
  - destruct (Trip.route_duration_s t) as [dur_s|]; [|paid].
    match goal with
    | |- context [finish_outcome ?c ?e ?i ?tt ?dm ?ds ?g ?p ?ww] =>
        pose proof (finish_paid c e i tt dm ds g p (committed w) (ext_calls w) ww) as Hf;
        destruct (finish_outcome c e i tt dm ds g p ww) as [r w1]
    end.
    cbn [snd committed ext_calls settled] in *. apply Hf; [paid | reflexivity | reflexivity].
Qed.

(** ** The recalculator: how a run leaves the trip *)

Lemma finish_trips cfg env tid t dist_m dur_s geom provider w :
  working w = committed w ->
  match fst (finish_outcome cfg env tid t dist_m dur_s geom provider w) with
  | Ok r =>
      exists sev bl,
        in_unit_interval sev
        /\ r = done_result env t dur_s sev bl
        /\ trips (committed (snd (finish_outcome cfg env tid t dist_m dur_s geom provider w)))
           = alter (done_values env t dist_m dur_s geom sev bl) tid (trips (committed w))
  | Raised _ =>
      trips (committed (snd (finish_outcome cfg env tid t dist_m dur_s geom provider w)))
      = trips (committed w)
  end.
Proof.
  intros Hw. unfold finish_outcome, weather_outcome. cbv zeta. rewrite Hw.
  destruct (budget_denied _ _ _ _ _ _ _).
  - destruct (update_insert_fails env (budget_denied_row _ _ _)); [reflexivity|].
    destruct (update_insert_fails env (done_row _ _ _ _ _ _ _ _ _)); [reflexivity|].
    cbn [fst snd committed settled]. exists 0%float, true.
    split; [split; reflexivity|]. split; reflexivity.
  - destruct (update_insert_fails env (budget_consume_row _ _ _ _)); [reflexivity|].
    destruct (weather_of_forecast _ _ _ _) as [[sev wx] bl] eqn:Hwx.
    destruct (update_insert_fails env (done_row _ _ _ _ _ _ _ _ _)); [reflexivity|].
    cbn [fst snd committed settled]. exists sev, bl.
    split; [exact (weather_of_forecast_range _ _ _ _ _ _ _ Hwx)|]. split; reflexivity.
Qed.

(** The four ways a run on a trip of the table returns. *)
Lemma recalc_ok_inv cfg env tid t w r w' :
  trips (committed w) !! tid = Some t ->
  recalc_trip cfg env tid w = (Ok r, w') ->
  ((length (Trip.waypoints t) < 2)%nat
   /\ r = JDict [("ok", JBool false); ("error", JStr "bad-waypoints")]
   /\ trips (committed w') !! tid = Some (Trip.set_calc_state "error" t))
  \/ ((exists reason,
          r = JDict [("ok", JBool false); ("error", JStr "budget_denied_route");
                     ("reason", JStr reason)])
      /\ trips (committed w') !! tid =
           Some (Trip.set_schedule
                   (plus_seconds (now env)
                      (_next_interval_seconds (Trip.policy_mode t) (status_or_yellow t) true))
                   (now env) (Trip.set_calc_state "budget_limited" t)))
  \/ ((exists e, r = JDict [("ok", JBool false); ("error", JStr ("route: " ++ e))])
      /\ trips (committed w') !! tid =
           Some (Trip.set_schedule
                   (plus_seconds (now env)
                      (_next_interval_seconds (Trip.policy_mode t) (status_or_yellow t) false))
                   (now env) (Trip.set_calc_state "error" t)))
  \/ (exists dist_m dur_s geom sev bl,
         in_unit_interval sev
         /\ r = done_result env t dur_s sev bl
         /\ trips (committed w') !! tid =
              Some (done_values env t dist_m dur_s geom sev bl (Trip.set_calc_state "running" t))).
Proof.
  intros Ht. rewrite recalc_trip_outcome. unfold recalc_outcome. cbv zeta. rewrite Ht.
  destruct (update_insert_fails env (running_row env tid)); [discriminate|].
  unfold loaded_outcome. cbv zeta. cbn [working settled ext_calls].
  destruct (Nat.ltb_spec (length (Trip.waypoints t)) 2) as [Hlt|Hge].
  { destruct (update_insert_fails env (validate_error_row tid)); [discriminate|].
    intros Hres; inversion Hres; subst; clear Hres. left. split; [exact Hlt|]. split; [reflexivity|].
    cbn [committed settled]. trips_simpl. rewrite !lookup_alter_eq, Ht. reflexivity. }
  destruct (need_route t).
  - destruct (budget_denied _ _ _ _ _ _ _).
    + destruct (update_insert_fails env (budget_denied_row _ _ _)); [discriminate|].
      intros Hres; inversion Hres; subst; clear Hres. right. left. split; [eauto|].
      cbn [committed settled]. trips_simpl. rewrite !lookup_alter_eq, Ht. reflexivity.
    + destruct (update_insert_fails env (budget_consume_row _ _ _ _)); [discriminate|].
      destruct (route_answer env _) as [[[[dist_m dur_s] geom] provider]|e].
      * match goal with
        | |- context [finish_outcome ?c ?e ?i ?tt ?dm ?ds ?g ?p ?ww] =>
            pose proof (finish_trips c e i tt dm ds g p ww eq_refl) as Hf;
            destruct (finish_outcome c e i tt dm ds g p ww) as [[r1|e1] w1]
        end; [|discriminate].
        intros Hres; inversion Hres; subst; clear Hres. right. right. right.
        cbn [fst snd committed settled] in *.
        destruct Hf as (sev & bl & Hsev & -> & Htr).
        exists (Some dist_m), dur_s, geom, sev, bl. split; [exact Hsev|]. split; [reflexivity|].
        rewrite Htr. trips_simpl. rewrite !lookup_alter_eq, Ht. reflexivity.
      * destruct (update_insert_fails env (route_error_row _ _)); [discriminate|].
        intros Hres; inversion Hres; subst; clear Hres. right. right. left. split; [eauto|].
        cbn [committed settled]. trips_simpl. rewrite !lookup_alter_eq, Ht. reflexivity.
  - destruct (Trip.route_duration_s t) as [dur_s|]; [|discriminate].
    match goal with
    | |- context [finish_outcome ?c ?e ?i ?tt ?dm ?ds ?g ?p ?ww] =>
        pose proof (finish_trips c e i tt dm ds g p ww eq_refl) as Hf;
        destruct (finish_outcome c e i tt dm ds g p ww) as [[r1|e1] w1]
    end; [|discriminate].
    intros Hres; inversion Hres; subst; clear Hres. right. right. right.
    cbn [fst snd committed settled] in *.
    destruct Hf as (sev & bl & Hsev & -> & Htr).
    eexists _, dur_s, _, sev, bl. split; [exact Hsev|]. split; [reflexivity|].
    rewrite Htr. trips_simpl. rewrite !lookup_alter_eq, Ht. reflexivity.
Qed.

(** A run that raises after its [recalc_running] row leaves the trip as that
    row found it but for [calc_state]. *)
Lemma recalc_raised_inv cfg env tid t w e w' :
  trips (committed w) !! tid = Some t ->
  update_insert_fails env (running_row env tid) = false ->
  recalc_trip cfg env tid w = (Raised e, w') ->
  trips (committed w') !! tid = Some (Trip.set_calc_state "running" t).
Proof.
  intros Ht Hrun. rewrite recalc_trip_outcome. unfold recalc_outcome. cbv zeta.
  rewrite Ht, Hrun.
  assert (Hrunning :
    trips (add_update (running_row env tid)
             (alter_trip tid (Trip.set_calc_state "running") (committed w))) !! tid
    = Some (Trip.set_calc_state "running" t)).
  { trips_simpl. rewrite lookup_alter_eq, Ht. reflexivity. }
  unfold loaded_outcome. cbv zeta. cbn [working settled ext_calls].
  destruct (length (Trip.waypoints t) <? 2)%nat.
  { destruct (update_insert_fails env (validate_error_row tid)); [|discriminate].
    intros Hres; inversion Hres; subst; clear Hres. exact Hrunning. }
  destruct (need_route t).
  - destruct (budget_denied _ _ _ _ _ _ _).
    + destruct (update_insert_fails env (budget_denied_row _ _ _)); [|discriminate].
      intros Hres; inversion Hres; subst; clear Hres. exact Hrunning.
    + destruct (update_insert_fails env (budget_consume_row _ _ _ _)).
      { intros Hres; inversion Hres; subst; clear Hres. exact Hrunning. }
      destruct (route_answer env _) as [[[[dist_m dur_s] geom] provider]|e0].
      * match goal with
        | |- context [finish_outcome ?c ?e ?i ?tt ?dm ?ds ?g ?p ?ww] =>
            pose proof (finish_trips c e i tt dm ds g p ww eq_refl) as Hf;
            destruct (finish_outcome c e i tt dm ds g p ww) as [[r1|e1] w1]
        end; [discriminate|].
        intros Hres; inversion Hres; subst; clear Hres.
        cbn [fst snd committed settled] in *. rewrite Hf. exact Hrunning.
      * destruct (update_insert_fails env (route_error_row _ _)); [|discriminate].
        intros Hres; inversion Hres; subst; clear Hres. exact Hrunning.
  - destruct (Trip.route_duration_s t) as [dur_s|].
    + match goal with
      | |- context [finish_outcome ?c ?e ?i ?tt ?dm ?ds ?g ?p ?ww] =>
          pose proof (finish_trips c e i tt dm ds g p ww eq_refl) as Hf;
          destruct (finish_outcome c e i tt dm ds g p ww) as [[r1|e1] w1]
      end; [discriminate|].
      intros Hres; inversion Hres; subst; clear Hres.
      cbn [fst snd committed settled] in *. rewrite Hf. exact Hrunning.
    + intros Hres; inversion Hres; subst; clear Hres. exact Hrunning.
Qed.

(** ** The scanner: its query *)

#[local] Instance calc_before_trans : Transitive calc_before.
Proof. intros x y z. unfold calc_before. lia. Qed.

#[local] Instance calc_before_total : Total calc_before.
Proof. intros x y. unfold calc_before. lia. Qed.

Lemma is_due_inv now t :
  is_due now t = true ->
  (exists next, Trip.next_calc_at t = Some next /\ next <= now)
  /\ List.In (Trip.calc_state t) scan_states.
Proof.
  unfold is_due. destruct (Trip.next_calc_at t) as [next|]; [|discriminate].
  rewrite andb_true_iff, Z.leb_le, existsb_exists. intros [Hle (s & Hin & Heq)].
  apply String.eqb_eq in Heq. subst s. eauto.
Qed.

Lemma is_due_state now t :
  ~ List.In (Trip.calc_state t) scan_states -> is_due now t = false.
Proof.
  intros Hs. destruct (is_due now t) eqn:E; [|reflexivity].
  apply is_due_inv in E as [_ E]. contradiction.
Qed.

Lemma in_take {A : Type} (x : A) n l : List.In x (take n l) -> List.In x l.
Proof.
  intros H. rewrite <- (take_drop n l). apply in_or_app. left. exact H.
Qed.

Lemma select_due_sorted now db :
  exists rest,
    StronglySorted calc_before (select_due now db ++ rest)
    /\ Permutation (select_due now db ++ rest)
         (List.filter (is_due now) (map snd (map_to_list (trips db)))).
Proof.
  unfold select_due.
  set (l := List.filter _ _).
  exists (drop 50 (merge_sort calc_before l)). rewrite take_drop.
  split; [apply StronglySorted_merge_sort; apply _ | apply merge_sort_Permutation].
Qed.

Lemma select_due_in now db t :
  List.In t (select_due now db) ->
  (exists k, trips db !! k = Some t) /\ is_due now t = true.
Proof.
  intros Hin. unfold select_due in Hin. apply in_take in Hin.
  apply (Permutation_in _ (merge_sort_Permutation _ _)) in Hin.
  apply filter_In in Hin as [Hin Hdue]. split; [|exact Hdue].
  apply in_map_iff in Hin as ([k t'] & Heq & Hin). cbn in Heq. subst t'.
  exists k. apply elem_of_map_to_list. apply list_elem_of_In. exact Hin.
Qed.

Lemma in_select_source now db k t :
  trips db !! k = Some t -> is_due now t = true ->
  List.In t (List.filter (is_due now) (map snd (map_to_list (trips db)))).
Proof.
  intros Ht Hdue. apply filter_In. split; [|exact Hdue].
  apply in_map_iff. exists (k, t). split; [reflexivity|].
  apply list_elem_of_In, elem_of_map_to_list. exact Ht.
Qed.

Lemma select_due_length now db : (length (select_due now db) <= 50)%nat.
Proof. unfold select_due. rewrite length_take. lia. Qed.

(** A due trip that the query leaves out comes after the 50 it returns. *)
Lemma select_due_left_out now db k t :
  trips db !! k = Some t -> is_due now t = true -> ~ List.In t (select_due now db) ->
  length (select_due now db) = 50%nat
  /\ forall t', List.In t' (select_due now db) -> calc_time t' <= calc_time t.
Proof.
  intros Ht Hdue Hout.
  pose proof (in_select_source now db k t Ht Hdue) as Hsrc.
  unfold select_due in *. set (l := List.filter _ _) in *.
  pose proof (StronglySorted_merge_sort calc_before l) as Hs.
  apply (Permutation_in _ (Permutation_sym (merge_sort_Permutation calc_before l))) in Hsrc.
  rewrite <- (take_drop 50 (merge_sort calc_before l)) in Hsrc, Hs.
  apply in_app_or in Hsrc as [Hsrc | Hsrc]; [contradiction|].
  split.
  - rewrite length_take. destruct (drop 50 (merge_sort calc_before l)) eqn:E; [destruct Hsrc|].
    assert (Hl : (50 < length (merge_sort calc_before l))%nat).
    { apply lookup_lt_is_Some. rewrite <- (Nat.add_0_r 50), <- lookup_drop, E. eauto. }
    lia.
  - intros t' Hin.
    apply (StronglySorted_app_1_elem_of calc_before _ _ t' t Hs);
      apply list_elem_of_In; assumption.
Qed.



(** ** The scanner: its loop *)

Lemma proc_bind_run {A B : Type} (m : Proc A) (k : A -> Proc B) (s : System) :
  (m ≫= k) s = match m s with
               | (Ok a, s') => k a s'
               | (Raised e, s') => (Raised e, s')
               end.
Proof. reflexivity. Qed.

(** One turn of the loop, from a session with nothing in flight. *)
Lemma queue_trip_run env broker interval t db calls js :
  queue_trip env broker interval t {| world := settled db calls; jobs := js |}
  = if update_insert_fails env (scan_row t) then
      (Raised "insert into trip_updates failed",
       {| world := pending (alter_trip (Trip.id t)
                              (set_queued (plus_seconds (now env) interval)) db)
                     (settled db calls);
          jobs := js |})
    else if send_task_fails broker (Trip.id t) then
      (Raised "send_task failed",
       {| world := settled (queued_db (plus_seconds (now env) interval) [t] db) calls;
          jobs := js |})
    else
      (Ok tt,
       {| world := settled (queued_db (plus_seconds (now env) interval) [t] db) calls;
          jobs := (js ++ [Trip.id t])%list |}).
Proof.
  unfold queue_trip. rewrite proc_bind_run. unfold on_db. cbn [world jobs].
  rewrite (bind_ok _ _ _ _ _ (update_trip_run _ _ _)).
  cbn [working committed ext_calls settled].
  unfold scan_row.
  destruct (update_insert_fails env _) eqn:F.
  - rewrite (bind_raised _ _ _ _ _ (insert_update_raised _ _ _ _ _ F)). reflexivity.
  - rewrite (bind_ok _ _ _ _ _ (insert_update_ok _ _ _ _ _ F)). rewrite commit_run.
    cbn [working committed ext_calls settled].
    unfold send_task. cbn [world jobs].
    destruct (send_task_fails broker (Trip.id t)); reflexivity.
Qed.

Lemma queued_db_cons next t rows db :
  queued_db next (t :: rows) db = queued_db next rows (queued_db next [t] db).
Proof. reflexivity. Qed.

Lemma queued_db_app next rows1 rows2 db :
  queued_db next (rows1 ++ rows2) db = queued_db next rows2 (queued_db next rows1 db).
Proof. unfold queued_db. apply fold_left_app. Qed.

(** The loop when every insert and every send succeeds. *)
Lemma scan_rows_run env broker interval rows : forall db calls js,
  (forall t, List.In t rows -> update_insert_fails env (scan_row t) = false) ->
  (forall t, List.In t rows -> send_task_fails broker (Trip.id t) = false) ->
  scan_rows env broker interval rows {| world := settled db calls; jobs := js |}
  = (Ok tt, {| world := settled (queued_db (plus_seconds (now env) interval) rows db) calls;
               jobs := (js ++ map Trip.id rows)%list |}).
Proof.
  induction rows as [|t rows IH]; intros db calls js Hins Hsend; cbn [scan_rows].
  - cbn [map]. rewrite app_nil_r. reflexivity.
  - rewrite proc_bind_run, queue_trip_run.
    rewrite (Hins t (or_introl eq_refl)), (Hsend t (or_introl eq_refl)).
    rewrite IH; [| intros; apply Hins; right; assumption
                 | intros; apply Hsend; right; assumption].
    rewrite queued_db_cons. cbn [map]. rewrite <- app_assoc. reflexivity.
Qed.


Lemma set_queued_twice next x : set_queued next (set_queued next x) = set_queued next x.
Proof. reflexivity. Qed.

Lemma queued_db_updates next rows : forall db,
  trip_updates (queued_db next rows db) = (trip_updates db ++ map scan_row rows)%list.
Proof.
  induction rows as [|t rows IH]; intros db.
  - cbn. rewrite app_nil_r. reflexivity.
  - rewrite queued_db_cons, IH. cbn. rewrite <- app_assoc. reflexivity.
Qed.

Lemma queued_db_trips next rows : forall db k,
  trips (queued_db next rows db) !! k
  = if bool_decide (k ∈ map Trip.id rows)
    then set_queued next <$> trips db !! k
    else trips db !! k.
Proof.
  induction rows as [|t rows IH]; intros db k.
  - cbn [map]. rewrite bool_decide_eq_false_2 by (apply not_elem_of_nil). reflexivity.
  - rewrite queued_db_cons, IH. cbn [queued_db fold_left trips add_update alter_trip map].
    destruct (decide (k = Trip.id t)) as [->|Hne].
    + rewrite lookup_alter_eq.
      rewrite (bool_decide_eq_true_2 (Trip.id t ∈ Trip.id t :: _)) by (apply list_elem_of_here).
      case_bool_decide; [|reflexivity].
      destruct (trips db !! Trip.id t); reflexivity.
    + rewrite lookup_alter_ne by congruence.
      case_bool_decide as E1; case_bool_decide as E2; try reflexivity.
      * exfalso. apply E2. apply list_elem_of_further. exact E1.
      * exfalso. apply elem_of_cons in E2 as [E2|E2]; [congruence | contradiction].
Qed.

Lemma queued_db_trips_in next rows db k :
  List.In k (map Trip.id rows) ->
  trips (queued_db next rows db) !! k = set_queued next <$> trips db !! k.
Proof.
  intros Hin. rewrite queued_db_trips, bool_decide_eq_true_2; [reflexivity|].
  apply list_elem_of_In. exact Hin.
Qed.

Lemma queued_db_trips_out next rows db k :
  ~ List.In k (map Trip.id rows) ->
  trips (queued_db next rows db) !! k = trips db !! k.
Proof.
  intros Hin. rewrite queued_db_trips, bool_decide_eq_false_2; [reflexivity|].
  rewrite list_elem_of_In. exact Hin.
Qed.

Lemma queued_db_counters next rows db : same_counters db (queued_db next rows db).
Proof.
  revert db. induction rows as [|t rows IH]; intros db.
  - repeat split.
  - rewrite queued_db_cons.
    destruct (IH (queued_db next [t] db)) as (S1 & S2 & S3 & S4).
    repeat split; intros; [rewrite S1 | rewrite S2 | rewrite S3 | rewrite S4]; reflexivity.
Qed.

Lemma scan_due_trips_run env broker interval s :
  scan_due_trips env broker interval s
  = let rows := select_due (now env) (committed (world s)) in
    match scan_rows env broker interval rows
            {| world := settled (committed (world s)) (ext_calls (world s)); jobs := jobs s |}
    with
    | (Ok _, s') =>
        (Ok (JDict [("ok", JBool true); ("queued", JInt (Z.of_nat (length rows)))]),
         {| world := settled (committed (world s')) (ext_calls (world s')); jobs := jobs s' |})
    | (Raised e, s') =>
        (Raised e,
         {| world := settled (committed (world s')) (ext_calls (world s')); jobs := jobs s' |})
    end.
Proof.
  unfold scan_due_trips. rewrite proc_bind_run. unfold in_session. cbv zeta.
  rewrite proc_bind_run. unfold on_db at 1. cbn [world jobs].
  rewrite (bind_ok _ _ _ _ _ (read_db_run _)).
  cbn [working committed ext_calls mret M_ret].
  rewrite proc_bind_run.
  change {| committed := committed (world s); working := committed (world s);
            ext_calls := ext_calls (world s) |}
    with (settled (committed (world s)) (ext_calls (world s))).
  destruct (scan_rows _ _ _ _ _) as [[[]|e] s']; reflexivity.
Qed.

(** ** The scanner: what a scan selects and does *)

(** X10. The query of [scan_due_trips] returns 50 rows at most; each is a
    trip of the table whose [next_calc_at] is set and not after [now] and
    whose state is [idle], [done], [budget_limited] or [error], never
    [queued] or [running]; the rows come by [next_calc_at], the oldest first;
    and a due trip is left out only when 50 trips due no later are
    returned. *)
Theorem scan_selects_the_oldest_due_trips (now : datetime) (db : DB) :
  (length (select_due now db) <= 50)%nat
  /\ (forall t, List.In t (select_due now db) ->
        (exists k, trips db !! k = Some t)
        /\ (exists next, Trip.next_calc_at t = Some next /\ next <= now)
        /\ List.In (Trip.calc_state t) scan_states
        /\ Trip.calc_state t <> "queued" /\ Trip.calc_state t <> "running")
  /\ StronglySorted calc_before (select_due now db)
  /\ (forall k t,
        trips db !! k = Some t -> is_due now t = true -> ~ List.In t (select_due now db) ->
        length (select_due now db) = 50%nat
        /\ forall t', List.In t' (select_due now db) -> calc_time t' <= calc_time t).
Proof.
  split; [apply select_due_length|]. split; [|split].
  - intros t Hin. apply select_due_in in Hin as [Hk Hdue].
    apply is_due_inv in Hdue as [Hnext Hst]. repeat split; try assumption.
    + intros E. rewrite E in Hst. cbn in Hst. intuition discriminate.
    + intros E. rewrite E in Hst. cbn in Hst. intuition discriminate.
  - destruct (select_due_sorted now db) as (rest & Hs & _).
    eapply StronglySorted_app_1_l. exact Hs.
  - apply select_due_left_out.
Qed.

Example scan_selection_evaluated :
  map Trip.id (select_due demo_now demo_db_six) = [2%N; 1%N; 6%N].
Proof. vm_compute. reflexivity. Qed.

(** X11. When no insert and no send fails, [scan_due_trips] returns the
    number of rows of its query; it puts each of them in [queued] with
    [next_calc_at = now + SCAN_INTERVAL_SECONDS], every other field kept,
    leaves the other trips alone, appends one [recalc_queued] row by
    [scheduler] for each, in order, and sends one job for each, in order; no
    counter moves and no provider is called. *)
Theorem scan_queues_each_due_trip env broker interval s :
  (forall row, update_insert_fails env row = false) ->
  (forall tid, send_task_fails broker tid = false) ->
  exists s',
    scan_due_trips env broker interval s
    = (Ok (JDict [("ok", JBool true);
                  ("queued",
                   JInt (Z.of_nat (length (select_due (now env) (committed (world s))))))]),
       s')
    /\ jobs s' = (jobs s ++ map Trip.id (select_due (now env) (committed (world s))))%list
    /\ trip_updates (committed (world s'))
       = (trip_updates (committed (world s))
            ++ map scan_row (select_due (now env) (committed (world s))))%list
    /\ (forall k, List.In k (map Trip.id (select_due (now env) (committed (world s)))) ->
          trips (committed (world s')) !! k
          = set_queued (plus_seconds (now env) interval) <$> trips (committed (world s)) !! k)
    /\ (forall k, ~ List.In k (map Trip.id (select_due (now env) (committed (world s)))) ->
          trips (committed (world s')) !! k = trips (committed (world s)) !! k)
    /\ same_counters (committed (world s)) (committed (world s'))
    /\ ext_calls (world s') = ext_calls (world s)
    /\ working (world s') = committed (world s').
Proof.
  intros Hins Hsend. rewrite scan_due_trips_run. cbv zeta.
  rewrite scan_rows_run by auto.
  eexists; split; [reflexivity|]. cbn [world jobs committed working ext_calls settled].
  split; [reflexivity|]. split; [apply queued_db_updates|].
  split; [intros k Hk; apply queued_db_trips_in; exact Hk|].
  split; [intros k Hk; apply queued_db_trips_out; exact Hk|].
  split; [apply queued_db_counters|]. split; reflexivity.
Qed.

Lemma scan_queues_each_due_trip_witness :
  exists s',
    scan_due_trips demo_env demo_broker default_scan_interval {| world := settled demo_db_six []; jobs := [] |}
    = (Ok (JDict [("ok", JBool true);
                  ("queued",
                   JInt (Z.of_nat (length (select_due (now demo_env)
                                             (committed (world {| world := settled demo_db_six [];
                                                                  jobs := [] |}))))))]),
       s')
    /\ jobs s'
       = (jobs {| world := settled demo_db_six []; jobs := [] |}
            ++ map Trip.id (select_due (now demo_env)
                              (committed (world {| world := settled demo_db_six [];
                                                   jobs := [] |}))))%list
    /\ trip_updates (committed (world s'))
       = (trip_updates (committed (world {| world := settled demo_db_six []; jobs := [] |}))
            ++ map scan_row (select_due (now demo_env)
                               (committed (world {| world := settled demo_db_six [];
                                                    jobs := [] |}))))%list
    /\ (forall k,
          List.In k (map Trip.id (select_due (now demo_env)
                                    (committed (world {| world := settled demo_db_six [];
                                                         jobs := [] |})))) ->
          trips (committed (world s')) !! k
          = set_queued (plus_seconds (now demo_env) default_scan_interval)
              <$> trips (committed (world {| world := settled demo_db_six []; jobs := [] |})) !! k)
    /\ (forall k,
          ~ List.In k (map Trip.id (select_due (now demo_env)
                                      (committed (world {| world := settled demo_db_six [];
                                                           jobs := [] |})))) ->
          trips (committed (world s')) !! k
          = trips (committed (world {| world := settled demo_db_six []; jobs := [] |})) !! k)
    /\ same_counters (committed (world {| world := settled demo_db_six []; jobs := [] |}))
         (committed (world s'))
    /\ ext_calls (world s') = ext_calls (world {| world := settled demo_db_six []; jobs := [] |})
    /\ working (world s') = committed (world s').
Proof.
  apply (scan_queues_each_due_trip demo_env demo_broker default_scan_interval
           {| world := settled demo_db_six []; jobs := [] |}).
  - reflexivity.
  - reflexivity.
Defined.

Example scan_evaluated :
  let r := scan_due_trips demo_env demo_broker default_scan_interval
             {| world := settled demo_db_six []; jobs := [] |} in
  fst r = Ok (JDict [("ok", JBool true); ("queued", JInt 3)])
  /\ jobs (snd r) = [2%N; 1%N; 6%N]
  /\ map (fun t => (Trip.id t, Trip.calc_state t))
       (map snd (map_to_list (trips (committed (world (snd r))))))
     = [(6%N, "queued"); (4%N, "done"); (2%N, "queued"); (5%N, "idle"); (3%N, "running");
        (1%N, "queued")].
Proof. vm_compute. repeat split. Qed.

Lemma is_due_queued now next x : is_due now (set_queued next x) = false.
Proof. apply is_due_state. cbn. intuition discriminate. Qed.

Lemma is_due_running now x : is_due now (Trip.set_calc_state "running" x) = false.
Proof. apply is_due_state. cbn. intuition discriminate. Qed.

(** X12. A trip that a scan has queued is not selected by any later scan,
    whatever the clock, as long as nothing else writes to it. *)
Theorem scan_does_not_queue_twice env broker interval s now' t :
  keyed (committed (world s)) ->
  (forall row, update_insert_fails env row = false) ->
  (forall tid, send_task_fails broker tid = false) ->
  List.In t (select_due (now env) (committed (world s))) ->
  ~ List.In (Trip.id t)
      (map Trip.id
         (select_due now' (committed (world (snd (scan_due_trips env broker interval s)))))).
Proof.
  intros Hk Hins Hsend Hin Hagain.
  rewrite scan_due_trips_run in Hagain. cbv zeta in Hagain.
  rewrite scan_rows_run in Hagain by auto.
  cbn [snd world committed settled] in Hagain.
  apply in_map_iff in Hagain as (t' & Hid & Hin').
  apply select_due_in in Hin' as [[k Hlook] Hdue].
  rewrite queued_db_trips in Hlook. case_bool_decide as Hrow.
  - destruct (trips (committed (world s)) !! k) as [x|]; [|discriminate].
    inversion Hlook; subst t'. rewrite is_due_queued in Hdue. discriminate.
  - apply Hrow. apply list_elem_of_In. rewrite <- (Hk _ _ Hlook), Hid.
    apply in_map. exact Hin.
Qed.

Lemma keyed_demo_db_six : keyed demo_db_six.
Proof.
  intros k t Ht. unfold demo_db_six in Ht. cbn [trips] in Ht.
  repeat (apply lookup_insert_Some in Ht as [[<- <-] | [_ Ht]]; [reflexivity|]).
  apply lookup_singleton_Some in Ht as [<- <-]. reflexivity.
Defined.

Lemma scan_does_not_queue_twice_witness :
  ~ List.In (Trip.id (demo_trip_at 1%N (Some (demo_now - 5)) "done"))
      (map Trip.id
         (select_due (demo_now + 3600 * 1000000)
            (committed (world (snd (scan_due_trips demo_env demo_broker default_scan_interval
                                      {| world := settled demo_db_six []; jobs := [] |})))))).
Proof.
  apply (scan_does_not_queue_twice demo_env demo_broker default_scan_interval
           {| world := settled demo_db_six []; jobs := [] |} (demo_now + 3600 * 1000000)
           (demo_trip_at 1%N (Some (demo_now - 5)) "done")).
  - exact keyed_demo_db_six.
  - reflexivity.
  - reflexivity.
  - vm_compute. auto.
Defined.

(** ** The scanner: a queue that refuses a job *)



(** ** The recalculator: a run that raises *)

(** X14. A run of [recalc_trip] that raises after its [recalc_running] row
    leaves the trip exactly as it was but for [calc_state = running]; no scan
    selects the trip afterwards, whatever the clock. *)
Theorem recalc_raise_leaves_the_trip_running cfg env tid t w e w' :
  keyed (committed w) ->
  trips (committed w) !! tid = Some t ->
  update_insert_fails env (running_row env tid) = false ->
  recalc_trip cfg env tid w = (Raised e, w') ->
  trips (committed w') !! tid = Some (Trip.set_calc_state "running" t)
  /\ forall now', ~ List.In tid (map Trip.id (select_due now' (committed w'))).
Proof.
  intros Hk Ht Hrun Hres.
  pose proof (recalc_raised_inv cfg env tid t w e w' Ht Hrun Hres) as Hrow.
  split; [exact Hrow|].
  intros now' Hin.
  assert (Hk' : keyed (committed w')).
  { pose proof (recalc_frame cfg env tid w Hk) as Hto. rewrite Hres in Hto.
    exact (keyed_touches _ _ _ Hto Hk). }
  apply in_map_iff in Hin as (t' & Hid & Hin).
  apply select_due_in in Hin as [[k Hlook] Hdue].
  rewrite <- (Hk' _ _ Hlook), Hid in Hlook. rewrite Hrow in Hlook.
  inversion Hlook; subst t'. rewrite is_due_running in Hdue. discriminate.
Qed.

Lemma recalc_raise_leaves_the_trip_running_witness :
  trips (committed (snd (recalc_trip default_config demo_env_done_fails 7%N
                           (settled demo_db [])))) !! 7%N
  = Some (Trip.set_calc_state "running" demo_trip)
  /\ forall now',
       ~ List.In 7%N
           (map Trip.id
              (select_due now'
                 (committed (snd (recalc_trip default_config demo_env_done_fails 7%N
                                    (settled demo_db [])))))).
Proof.
  apply (recalc_raise_leaves_the_trip_running default_config demo_env_done_fails 7%N demo_trip
           (settled demo_db []) "insert into trip_updates failed"
           (snd (recalc_trip default_config demo_env_done_fails 7%N (settled demo_db [])))).
  - exact keyed_demo_db.
  - reflexivity.
  - reflexivity.
  - vm_compute. reflexivity.
Defined.

(** ** The recalculator: the trip after a run that returns *)

Lemma next_interval_bounds mode status bl :
  120 <= _next_interval_seconds mode status bl <= 3600.
Proof.
  unfold _next_interval_seconds.
  destruct bl; [lia|].
  destruct (String.eqb mode "conservative"), (String.eqb mode "aggressive"),
    (String.eqb status GREEN), (String.eqb status YELLOW); lia.
Qed.

(** The row the closing update writes. *)
Lemma done_values_fields env t dist_m dur_s geom sev bl x :
  exists pct st buf why sugg,
    _risk (Trip.deadline_at t) (plus_seconds (now env) dur_s) sev = (pct, st, buf, why, sugg)
    /\ done_result env t dur_s sev bl
       = JDict [("ok", JBool true); ("risk_pct", JInt pct); ("status", JStr st);
                ("budget_limited", JBool bl)]
    /\ done_values env t dist_m dur_s geom sev bl x
       = Trip.mk (Trip.id x) (Trip.deadline_at x) (Trip.waypoints x)
           (Some (plus_seconds (now env) dur_s)) dist_m (Some dur_s) (nullable geom)
           (Some buf) (Some pct) (Some st) (Some sugg)
           (Some (_recommend_depart (now env) st buf)) (Some why)
           (Some (_customer_message st (plus_seconds (now env) dur_s) (Trip.deadline_at t)
                    why sugg))
           (Trip.policy_mode x) (Trip.trip_owm_daily_cap x) (Trip.trip_route_daily_cap x)
           (Some (plus_seconds (now env)
                    (_next_interval_seconds (Trip.policy_mode t) st bl)))
           (Some (now env)) (if bl then "budget_limited" else "done").
Proof.
  unfold done_values, done_result. cbv zeta.
  destruct (_risk _ _ _) as [[[[pct st] buf] why] sugg].
  exists pct, st, buf, why, sugg. repeat split.
Qed.

(** A run that returns on a trip with its two waypoints reschedules it. *)
Lemma ok_run_rescheduled cfg env tid t w r w' :
  trips (committed w) !! tid = Some t ->
  (2 <= length (Trip.waypoints t))%nat ->
  recalc_trip cfg env tid w = (Ok r, w') ->
  exists t', trips (committed w') !! tid = Some t' /\ rescheduled env t'.
Proof.
  intros Ht Hlen Hres.
  assert (Hsched : forall s bl st t',
            (st = "done" \/ st = "budget_limited" \/ st = "error") ->
            Trip.last_calc_at t' = Some (now env) ->
            Trip.next_calc_at t'
            = Some (plus_seconds (now env) (_next_interval_seconds (Trip.policy_mode t) s bl)) ->
            Trip.calc_state t' = st ->
            rescheduled env t').
  { intros s bl st t' Hst Hl Hn Hs.
    pose proof (next_interval_bounds (Trip.policy_mode t) s bl) as Hb.
    split; [exact Hl|]. split; [rewrite Hs; exact Hst|].
    eexists. split; [exact Hn|]. unfold plus_seconds, timedelta_seconds. lia. }
  destruct (recalc_ok_inv cfg env tid t w r w' Ht Hres)
    as [(Hlt & _) | [(_ & Hrow) | [(_ & Hrow) | (dist_m & dur_s & geom & sev & bl & _ & _ & Hrow)]]].
  - lia.
  - eexists. split; [exact Hrow|].
    apply (Hsched (status_or_yellow t) true "budget_limited"); [auto | | |]; reflexivity.
  - eexists. split; [exact Hrow|].
    apply (Hsched (status_or_yellow t) false "error"); [auto | | |]; reflexivity.
  - destruct (done_values_fields env t dist_m dur_s geom sev bl (Trip.set_calc_state "running" t))
      as (pct & st & buf & why & sugg & _ & _ & Hv).
    rewrite Hv in Hrow.
    eexists. split; [exact Hrow|].
    apply (Hsched st bl (if bl then "budget_limited" else "done"));
      [destruct bl; auto | | |]; reflexivity.
Qed.

(** X15. Every run of [recalc_trip] that returns, on a trip with two
    waypoints or more, leaves [last_calc_at = now], [next_calc_at] between
    120 and 3600 seconds after [now], and the state [done],
    [budget_limited] or [error]: the trip is due for the scanner again from
    [next_calc_at] on. *)
Theorem recalc_reschedules_within_the_hour cfg env tid t w r w' :
  trips (committed w) !! tid = Some t ->
  (2 <= length (Trip.waypoints t))%nat ->
  recalc_trip cfg env tid w = (Ok r, w') ->
  exists t' next,
    trips (committed w') !! tid = Some t'
    /\ Trip.last_calc_at t' = Some (now env)
    /\ Trip.next_calc_at t' = Some next
    /\ now env + timedelta_seconds 120 <= next <= now env + timedelta_seconds 3600
    /\ (Trip.calc_state t' = "done" \/ Trip.calc_state t' = "budget_limited"
        \/ Trip.calc_state t' = "error")
    /\ forall now', next <= now' -> is_due now' t' = true.
Proof.
  intros Ht Hlen Hres.
  destruct (ok_run_rescheduled cfg env tid t w r w' Ht Hlen Hres)
    as (t' & Hrow & Hlast & Hstate & next & Hnext & Hbounds).
  exists t', next.
  split; [exact Hrow|]. split; [exact Hlast|]. split; [exact Hnext|].
  split; [exact Hbounds|]. split; [exact Hstate|].
  intros now' Hle. unfold is_due. rewrite Hnext.
  apply andb_true_iff. split; [apply Z.leb_le; exact Hle|].
  destruct Hstate as [-> | [-> | ->]]; reflexivity.
Qed.

Lemma recalc_reschedules_within_the_hour_witness :
  exists t' next,
    trips (committed (snd (recalc_trip default_config demo_env 7%N (settled demo_db [])))) !! 7%N
    = Some t'
    /\ Trip.last_calc_at t' = Some (now demo_env)
    /\ Trip.next_calc_at t' = Some next
    /\ now demo_env + timedelta_seconds 120 <= next <= now demo_env + timedelta_seconds 3600
    /\ (Trip.calc_state t' = "done" \/ Trip.calc_state t' = "budget_limited"
        \/ Trip.calc_state t' = "error")
    /\ forall now', next <= now' -> is_due now' t' = true.
Proof.
  apply (recalc_reschedules_within_the_hour default_config demo_env 7%N demo_trip
           (settled demo_db [])
           (done_result demo_env demo_trip 3600 0.090000000000000011 false)
           (snd (recalc_trip default_config demo_env 7%N (settled demo_db [])))).
  - reflexivity.
  - simpl. lia.
  - vm_compute. reflexivity.
Defined.



(** The first run of the sample trip, evaluated. *)
Example first_run_evaluated :
  let r := recalc_trip default_config demo_env 7%N (settled demo_db []) in
  fst r = Ok (JDict [("ok", JBool true); ("risk_pct", JInt 12); ("status", JStr GREEN);
                     ("budget_limited", JBool false)])
  /\ (Trip.customer_message <$> trips (committed (snd r)) !! 7%N)
     = Some (Some ("Atualização: status 🟢. ETA 2026-11-04 01:00 UTC (deadline 2026-11-04 06:00 UTC). Motivo: buffer=300min, weather_sev=0.09. Ação: Manter rota. Recalcular mais perto do prazo."))
  /\ map TripUpdate.kind (trip_updates (committed (snd r)))
     = ["recalc_running"; "budget_consume"; "budget_consume"; "recalc_done"]
  /\ ext_calls (snd r)
     = [CallRoute [(2.0, 1.0); (4.0, 3.0)]%float;
        CallForecast 3 4 (demo_now + 3600 * 1000000)].
Proof. vm_compute. repeat split. Qed.

(** ** The recalculator: a forecast that fails *)



(** ** The recalculator: a fetched route is stored and used again *)





(** ** The façade: running a handler *)

Lemma in_session_run {A : Type} (m : M A) (s : System) :
  in_session (on_db m) s
  = (fst (run_session m (world s)), {| world := snd (run_session m (world s)); jobs := jobs s |}).
Proof.
  unfold in_session, on_db, run_session. cbn [world jobs].
  destruct (m _) as [r w']. reflexivity.
Qed.

Lemma read_back_run trip_id s :
  read_back trip_id s
  = (match trips (committed (world s)) !! trip_id with
     | Some t => Ok t
     | None => Raised "AttributeError: 'NoneType' object has no attribute"
     end,
     at_rest (committed (world s)) (ext_calls (world s)) (jobs s)).
Proof.
  unfold read_back. rewrite in_session_run. unfold run_session.
  rewrite (bind_ok _ _ _ _ _ (select_trip_run _ _)). cbn [working committed ext_calls].
  destruct (trips (committed (world s)) !! trip_id); reflexivity.
Qed.

Lemma send_task_run broker tid s :
  send_task broker tid s
  = if send_task_fails broker tid then (Raised "send_task failed", s)
    else (Ok tt, {| world := world s; jobs := (jobs s ++ [tid])%list |}).
Proof. reflexivity. Qed.


Lemma validate_mode_raises m :
  ~ List.In m policy_modes ->
  _validate_mode m
  = Raised (http_exception 400 "policy_mode must be conservative|balanced|aggressive").
Proof.
  intros Hin. unfold _validate_mode.
  destruct (existsb (String.eqb m) policy_modes) eqn:E; [|reflexivity].
  apply existsb_exists in E as (x & Hx & Heq). apply String.eqb_eq in Heq. subst x.
  contradiction.
Qed.

(** The first session of [create_trip]. *)
Lemma create_session_run env tid body w :
  run_session
    (insert_trip (created_trip env tid body);;
     insert_update env tid "created" (created_payload body);;
     insert_update env tid "recalc_queued" (JDict [("by", JStr "create")]);;
     commit) w
  = match trips (committed w) !! tid with
    | Some _ =>
        (Raised "IntegrityError: duplicate key value violates unique constraint",
         settled (committed w) (ext_calls w))
    | None =>
        if update_insert_fails env (created_row tid body)
           || update_insert_fails env (queued_by_row tid "create")
        then (Raised "insert into trip_updates failed", settled (committed w) (ext_calls w))
        else (Ok tt,
              settled (add_update (queued_by_row tid "create")
                         (add_update (created_row tid body)
                            (put_trip (created_trip env tid body) (committed w))))
                (ext_calls w))
    end.
Proof.
  unfold run_session, insert_trip.
  rewrite bind_run, (bind_ok _ _ _ _ _ (read_db_run _)). cbn [working committed ext_calls].
  change (Trip.id (created_trip env tid body)) with tid.
  destruct (trips (committed w) !! tid); [reflexivity|].
  rewrite write_db_run. cbn [working committed ext_calls].
  unfold created_row, queued_by_row.
  destruct (update_insert_fails env (TripUpdate.mk tid "created" _)) eqn:F1; cbn [orb].
  { rewrite (bind_raised _ _ _ _ _ (insert_update_raised _ _ _ _ _ F1)). reflexivity. }
  rewrite (bind_ok _ _ _ _ _ (insert_update_ok _ _ _ _ _ F1)).
  cbn [working committed ext_calls].
  destruct (update_insert_fails env (TripUpdate.mk tid "recalc_queued" _)) eqn:F2.
  { rewrite (bind_raised _ _ _ _ _ (insert_update_raised _ _ _ _ _ F2)). reflexivity. }
  rewrite (bind_ok _ _ _ _ _ (insert_update_ok _ _ _ _ _ F2)).
  rewrite commit_run. reflexivity.
Qed.

(** [create_trip] in closed form. *)
Lemma create_trip_run env broker tid body s :
  create_trip env broker tid body s
  = let rest := at_rest (committed (world s)) (ext_calls (world s)) (jobs s) in
    let db1 := add_update (queued_by_row tid "create")
                 (add_update (created_row tid body)
                    (put_trip (created_trip env tid body) (committed (world s)))) in
    match _validate_mode (TripCreateIn.policy_mode body) with
    | Raised e => (Raised e, s)
    | Ok _ =>
      match trips (committed (world s)) !! tid with
      | Some _ =>
          (Raised "IntegrityError: duplicate key value violates unique constraint", rest)
      | None =>
        if update_insert_fails env (created_row tid body)
           || update_insert_fails env (queued_by_row tid "create")
        then (Raised "insert into trip_updates failed", rest)
        else if send_task_fails broker tid
        then (Raised "send_task failed", at_rest db1 (ext_calls (world s)) (jobs s))
        else (Ok (created_trip env tid body),
              at_rest db1 (ext_calls (world s)) (jobs s ++ [tid]))
      end
    end.
Proof.
  unfold create_trip. cbv zeta. rewrite proc_bind_run. unfold result at 1.
  destruct (_validate_mode _) as [[]|e]; [|reflexivity].
  rewrite proc_bind_run, in_session_run, create_session_run.
  destruct (trips (committed (world s)) !! tid) eqn:Ht; [reflexivity|].
  destruct (update_insert_fails env (created_row tid body)
            || update_insert_fails env (queued_by_row tid "create")); [reflexivity|].
  cbn [fst snd]. rewrite proc_bind_run, send_task_run. cbn [world jobs].
  destruct (send_task_fails broker tid); [reflexivity|].
  rewrite read_back_run. cbn [world jobs committed settled ext_calls].
  cbn [trips add_update put_trip]. change (Trip.id (created_trip env tid body)) with tid.
  rewrite lookup_insert_eq. reflexivity.
Qed.

(** ** The façade: creating a trip *)



(** X20. When [create_trip] raises, no job was sent and either the store is
    as it was (the trip and its two events are written together or not at
    all), or the queue refused the job: then the trip is committed as
    [queued] with its two events, and no scan will ever select it. *)
Theorem create_trip_leaves_no_half_made_trip env broker tid body s e s' :
  keyed (committed (world s)) ->
  create_trip env broker tid body s = (Raised e, s') ->
  jobs s' = jobs s
  /\ ext_calls (world s') = ext_calls (world s)
  /\ (committed (world s') = committed (world s)
      \/ (e = "send_task failed"
          /\ trips (committed (world s'))
             = <[tid := created_trip env tid body]> (trips (committed (world s)))
          /\ trip_updates (committed (world s'))
             = (trip_updates (committed (world s))
                  ++ [created_row tid body; queued_by_row tid "create"])%list
          /\ forall now', ~ List.In tid (map Trip.id (select_due now' (committed (world s')))))).
Proof.
  intros Hk. rewrite create_trip_run. cbv zeta.
  destruct (_validate_mode _) as [[]|e0].
  2:{ intros H; inversion H; subst. split; [reflexivity|]. split; [reflexivity|]. left.
      reflexivity. }
  destruct (trips (committed (world s)) !! tid) eqn:Hnew.
  { intros H; inversion H; subst. cbn. auto. }
  destruct (update_insert_fails env (created_row tid body)
            || update_insert_fails env (queued_by_row tid "create")).
  { intros H; inversion H; subst. cbn. auto. }
  destruct (send_task_fails broker tid); [|discriminate].
  intros H; inversion H; subst; clear H. cbn [world jobs committed ext_calls settled at_rest].
  split; [reflexivity|]. split; [reflexivity|]. right.
  split; [reflexivity|]. split; [reflexivity|].
  split; [cbn; rewrite <- app_assoc; reflexivity|].
  intros now' Hin.
  apply in_map_iff in Hin as (t' & Hid & Hin).
  apply select_due_in in Hin as [[k Hlook] Hdue].
  cbn [trips add_update put_trip] in Hlook.
  change (Trip.id (created_trip env tid body)) with tid in Hlook.
  destruct (decide (k = tid)) as [->|Hne].
  - rewrite lookup_insert_eq in Hlook. inversion Hlook; subst t'.
    unfold is_due in Hdue. cbn in Hdue. rewrite andb_false_r in Hdue. discriminate.
  - rewrite lookup_insert_ne in Hlook by congruence.
    apply Hne. rewrite <- (Hk _ _ Hlook). exact Hid.
Qed.

Lemma create_trip_leaves_no_half_made_trip_witness :
  jobs (snd (create_trip demo_env demo_broker 7%N demo_body (at_rest demo_db [] [])))
  = jobs (at_rest demo_db [] [])
  /\ ext_calls (world (snd (create_trip demo_env demo_broker 7%N demo_body
                              (at_rest demo_db [] []))))
     = ext_calls (world (at_rest demo_db [] []))
  /\ (committed (world (snd (create_trip demo_env demo_broker 7%N demo_body
                               (at_rest demo_db [] []))))
      = committed (world (at_rest demo_db [] []))
      \/ ("IntegrityError: duplicate key value violates unique constraint" = "send_task failed"
          /\ trips (committed (world (snd (create_trip demo_env demo_broker 7%N demo_body
                                             (at_rest demo_db [] [])))))
             = <[7%N := created_trip demo_env 7%N demo_body]>
                 (trips (committed (world (at_rest demo_db [] []))))
          /\ trip_updates (committed (world (snd (create_trip demo_env demo_broker 7%N demo_body
                                                    (at_rest demo_db [] [])))))
             = (trip_updates (committed (world (at_rest demo_db [] [])))
                  ++ [created_row 7%N demo_body; queued_by_row 7%N "create"])%list
          /\ forall now',
               ~ List.In 7%N
                   (map Trip.id
                      (select_due now'
                         (committed (world (snd (create_trip demo_env demo_broker 7%N demo_body
                                                   (at_rest demo_db [] []))))))))).
Proof.
  apply (create_trip_leaves_no_half_made_trip demo_env demo_broker 7%N demo_body
           (at_rest demo_db [] [])
           "IntegrityError: duplicate key value violates unique constraint"
           (snd (create_trip demo_env demo_broker 7%N demo_body (at_rest demo_db [] [])))).
  - exact keyed_demo_db.
  - vm_compute. reflexivity.
Defined.

(** ** The façade: asking for a recalculation, changing the policy *)

(** The first session of [recalc_now]. *)
Lemma recalc_now_session_run env trip_id w :
  run_session
    (t ← select_trip trip_id;
     match t with
     | None => raise (http_exception 404 "not found")
     | Some _ =>
       update_trip trip_id (set_queued (now env));;
       insert_update env trip_id "recalc_queued" (JDict [("by", JStr "user")]);;
       commit
     end) w
  = match trips (committed w) !! trip_id with
    | None => (Raised (http_exception 404 "not found"), settled (committed w) (ext_calls w))
    | Some _ =>
      if update_insert_fails env (queued_by_row trip_id "user")
      then (Raised "insert into trip_updates failed", settled (committed w) (ext_calls w))
      else (Ok tt,
            settled (add_update (queued_by_row trip_id "user")
                       (alter_trip trip_id (set_queued (now env)) (committed w)))
              (ext_calls w))
    end.
Proof.
  unfold run_session.
  rewrite (bind_ok _ _ _ _ _ (select_trip_run _ _)). cbn [working committed ext_calls].
  destruct (trips (committed w) !! trip_id) as [t|] eqn:Ht; [|reflexivity].
  rewrite (bind_ok _ _ _ _ _ (update_trip_run _ _ _)). cbn [working committed ext_calls].
  unfold queued_by_row.
  destruct (update_insert_fails env _) eqn:F.
  { rewrite (bind_raised _ _ _ _ _ (insert_update_raised _ _ _ _ _ F)). reflexivity. }
  rewrite (bind_ok _ _ _ _ _ (insert_update_ok _ _ _ _ _ F)). rewrite commit_run.
  reflexivity.
Qed.

(** [recalc_now] in closed form. *)
Lemma recalc_now_run env broker trip_id s :
  recalc_now env broker trip_id s
  = let rest := at_rest (committed (world s)) (ext_calls (world s)) (jobs s) in
    match trips (committed (world s)) !! trip_id with
    | None => (Raised (http_exception 404 "not found"), rest)
    | Some t =>
      let db1 := add_update (queued_by_row trip_id "user")
                   (alter_trip trip_id (set_queued (now env)) (committed (world s))) in
      if update_insert_fails env (queued_by_row trip_id "user")
      then (Raised "insert into trip_updates failed", rest)
      else if send_task_fails broker trip_id
      then (Raised "send_task failed", at_rest db1 (ext_calls (world s)) (jobs s))
      else (Ok (set_queued (now env) t),
            at_rest db1 (ext_calls (world s)) (jobs s ++ [trip_id]))
    end.
Proof.
  unfold recalc_now. cbv zeta. rewrite proc_bind_run, in_session_run, recalc_now_session_run.
  destruct (trips (committed (world s)) !! trip_id) as [t|] eqn:Ht; [|reflexivity].
  destruct (update_insert_fails env _); [reflexivity|].
  cbn [fst snd]. rewrite proc_bind_run, send_task_run. cbn [world jobs].
  destruct (send_task_fails broker trip_id); [reflexivity|].
  rewrite read_back_run. cbn [world jobs committed settled ext_calls].
  cbn [trips add_update alter_trip]. rewrite lookup_alter_eq, Ht. reflexivity.
Qed.

(** X21. For a trip of the table, in whatever state ([running] included),
    [recalc_now] puts it in [queued] with [next_calc_at = now], every other
    field kept, appends [recalc_queued] by [user], sends one job and returns
    the row. *)
Theorem recalc_now_queues_whatever_the_state env broker trip_id s t :
  trips (committed (world s)) !! trip_id = Some t ->
  (forall row, update_insert_fails env row = false) ->
  send_task_fails broker trip_id = false ->
  exists s',
    recalc_now env broker trip_id s = (Ok (set_queued (now env) t), s')
    /\ trips (committed (world s'))
       = <[trip_id := set_queued (now env) t]> (trips (committed (world s)))
    /\ Trip.calc_state (set_queued (now env) t) = "queued"
    /\ Trip.next_calc_at (set_queued (now env) t) = Some (now env)
    /\ trip_updates (committed (world s'))
       = (trip_updates (committed (world s)) ++ [queued_by_row trip_id "user"])%list
    /\ jobs s' = (jobs s ++ [trip_id])%list
    /\ same_counters (committed (world s)) (committed (world s')).
Proof.
  intros Ht Hnf Hsend. rewrite recalc_now_run. cbv zeta.
  rewrite Ht, Hnf, Hsend. eexists; split; [reflexivity|].
  cbn [world jobs committed settled at_rest trips trip_updates add_update alter_trip].
  split; [|split; [reflexivity|split; [reflexivity|split; [reflexivity|split;
    [reflexivity|repeat split]]]]].
  apply map_eq. intros k. destruct (decide (k = trip_id)) as [->|Hne].
  - rewrite lookup_alter_eq, lookup_insert_eq, Ht. reflexivity.
  - rewrite lookup_alter_ne, lookup_insert_ne by congruence. reflexivity.
Qed.

(** The trip that a failed run left in [running] is queued again. *)
Lemma recalc_now_queues_whatever_the_state_witness :
  exists s',
    recalc_now demo_env demo_broker 7%N
      (at_rest (committed (snd (recalc_trip default_config demo_env_done_fails 7%N
                                  (settled demo_db [])))) [] [])
    = (Ok (set_queued (now demo_env) (Trip.set_calc_state "running" demo_trip)), s')
    /\ trips (committed (world s'))
       = <[7%N := set_queued (now demo_env) (Trip.set_calc_state "running" demo_trip)]>
           (trips (committed (world
              (at_rest (committed (snd (recalc_trip default_config demo_env_done_fails 7%N
                                          (settled demo_db [])))) [] []))))
    /\ Trip.calc_state (set_queued (now demo_env) (Trip.set_calc_state "running" demo_trip))
       = "queued"
    /\ Trip.next_calc_at (set_queued (now demo_env) (Trip.set_calc_state "running" demo_trip))
       = Some (now demo_env)
    /\ trip_updates (committed (world s'))
       = (trip_updates (committed (world
            (at_rest (committed (snd (recalc_trip default_config demo_env_done_fails 7%N
                                        (settled demo_db [])))) [] [])))
            ++ [queued_by_row 7%N "user"])%list
    /\ jobs s'
       = (jobs (at_rest (committed (snd (recalc_trip default_config demo_env_done_fails 7%N
                                           (settled demo_db [])))) [] []) ++ [7%N])%list
    /\ same_counters
         (committed (world
            (at_rest (committed (snd (recalc_trip default_config demo_env_done_fails 7%N
                                        (settled demo_db [])))) [] [])))
         (committed (world s')).
Proof.
  apply (recalc_now_queues_whatever_the_state demo_env demo_broker 7%N
           (at_rest (committed (snd (recalc_trip default_config demo_env_done_fails 7%N
                                       (settled demo_db [])))) [] [])
           (Trip.set_calc_state "running" demo_trip)).
  - vm_compute. reflexivity.
  - reflexivity.
  - reflexivity.
Defined.

(** The first session of [patch_policy]. *)
Lemma patch_session_run env trip_id body w :
  run_session
    (t ← select_trip trip_id;
     match t with
     | None => raise (http_exception 404 "not found")
     | Some t =>
       db_result (match TripPolicyPatch.policy_mode body with
                  | Some m => _validate_mode m
                  | None => Ok tt
                  end);;
       match patch_vals body with
       | [] => mret (Some t)
       | vals =>
         update_trip trip_id (set_policy body);;
         insert_update env trip_id "policy_updated" (JDict vals);;
         commit;;
         mret None
       end
     end) w
  = match trips (committed w) !! trip_id with
    | None => (Raised (http_exception 404 "not found"), settled (committed w) (ext_calls w))
    | Some t =>
      match (match TripPolicyPatch.policy_mode body with
             | Some m => _validate_mode m
             | None => Ok tt
             end) with
      | Raised e => (Raised e, settled (committed w) (ext_calls w))
      | Ok _ =>
        match patch_vals body with
        | [] => (Ok (Some t), settled (committed w) (ext_calls w))
        | _ =>
          if update_insert_fails env (policy_row trip_id body)
          then (Raised "insert into trip_updates failed", settled (committed w) (ext_calls w))
          else (Ok None,
                settled (add_update (policy_row trip_id body)
                           (alter_trip trip_id (set_policy body) (committed w)))
                  (ext_calls w))
        end
      end
    end.
Proof.
  unfold run_session.
  rewrite (bind_ok _ _ _ _ _ (select_trip_run _ _)). cbn [working committed ext_calls].
  destruct (trips (committed w) !! trip_id) as [t|] eqn:Ht; [|reflexivity].
  rewrite bind_run. unfold db_result at 1.
  destruct (match TripPolicyPatch.policy_mode body with
            | Some m => _validate_mode m
            | None => Ok tt
            end) as [[]|e]; [|reflexivity].
  unfold policy_row.
  destruct (patch_vals body) as [|v vals] eqn:Hv; [reflexivity|].
  rewrite (bind_ok _ _ _ _ _ (update_trip_run _ _ _)). cbn [working committed ext_calls].
  destruct (update_insert_fails env _) eqn:F.
  { rewrite (bind_raised _ _ _ _ _ (insert_update_raised _ _ _ _ _ F)). reflexivity. }
  rewrite (bind_ok _ _ _ _ _ (insert_update_ok _ _ _ _ _ F)).
  rewrite (bind_ok _ _ _ _ _ (commit_run _)). reflexivity.
Qed.

(** [patch_policy] in closed form. *)
Lemma patch_policy_run env trip_id body s :
  patch_policy env trip_id body s
  = let rest := at_rest (committed (world s)) (ext_calls (world s)) (jobs s) in
    match trips (committed (world s)) !! trip_id with
    | None => (Raised (http_exception 404 "not found"), rest)
    | Some t =>
      match (match TripPolicyPatch.policy_mode body with
             | Some m => _validate_mode m
             | None => Ok tt
             end) with
      | Raised e => (Raised e, rest)
      | Ok _ =>
        match patch_vals body with
        | [] => (Ok t, rest)
        | _ =>
          if update_insert_fails env (policy_row trip_id body)
          then (Raised "insert into trip_updates failed", rest)
          else (Ok (set_policy body t),
                at_rest (add_update (policy_row trip_id body)
                           (alter_trip trip_id (set_policy body) (committed (world s))))
                  (ext_calls (world s)) (jobs s))
        end
      end
    end.
Proof.
  unfold patch_policy. cbv zeta. rewrite proc_bind_run, in_session_run, patch_session_run.
  destruct (trips (committed (world s)) !! trip_id) as [t|] eqn:Ht; [|reflexivity].
  destruct (match TripPolicyPatch.policy_mode body with
            | Some m => _validate_mode m
            | None => Ok tt
            end) as [[]|e]; [|reflexivity].
  destruct (patch_vals body) as [|v vals] eqn:Hv; [reflexivity|].
  destruct (update_insert_fails env _); [reflexivity|].
  cbn [fst snd]. rewrite read_back_run. cbn [world jobs committed settled ext_calls].
  cbn [trips add_update alter_trip]. rewrite lookup_alter_eq, Ht. reflexivity.
Qed.




Example patch_policy_evaluated :
  let r := patch_policy demo_env 7%N demo_patch (at_rest demo_db [] []) in
  (Trip.policy_mode <$> trips (committed (world (snd r))) !! 7%N) = Some "aggressive"
  /\ (Trip.trip_owm_daily_cap <$> trips (committed (world (snd r))) !! 7%N) = Some 30
  /\ (Trip.trip_route_daily_cap <$> trips (committed (world (snd r))) !! 7%N) = Some 3
  /\ map TripUpdate.payload (trip_updates (committed (world (snd r))))
     = [JDict [("policy_mode", JStr "aggressive"); ("trip_route_daily_cap", JInt 3)]].
Proof. vm_compute. repeat split. Qed.

(** [get_trip] in closed form. *)
Lemma get_trip_run today trip_id s :
  get_trip today trip_id s
  = (match trips (committed (world s)) !! trip_id with
     | None => Raised (http_exception 404 "not found")
     | Some t =>
         Ok (t,
             take 60 (rev (List.filter (fun u => N.eqb (TripUpdate.trip_id u) trip_id)
                             (trip_updates (committed (world s))))),
             (trip_owm_calls (committed (world s)) trip_id today,
              trip_route_calls (committed (world s)) trip_id today,
              Trip.trip_owm_daily_cap t, Trip.trip_route_daily_cap t))
     end,
     at_rest (committed (world s)) (ext_calls (world s)) (jobs s)).
Proof.
  unfold get_trip. rewrite in_session_run. unfold run_session.
  rewrite (bind_ok _ _ _ _ _ (select_trip_run _ _)). cbn [working committed ext_calls].
  destruct (trips (committed (world s)) !! trip_id); reflexivity.
Qed.

(** ** The façade: what it refuses *)

(** X23. For an identity that is not in [trips], [recalc_now],
    [patch_policy] and [get_trip] raise [404: not found] and change
    nothing. *)
Theorem unknown_trip_is_not_found env broker trip_id body today s :
  trips (committed (world s)) !! trip_id = None ->
  recalc_now env broker trip_id s
  = (Raised "404: not found", at_rest (committed (world s)) (ext_calls (world s)) (jobs s))
  /\ patch_policy env trip_id body s
     = (Raised "404: not found", at_rest (committed (world s)) (ext_calls (world s)) (jobs s))
  /\ get_trip today trip_id s
     = (Raised "404: not found", at_rest (committed (world s)) (ext_calls (world s)) (jobs s)).
Proof.
  intros Ht. rewrite recalc_now_run, patch_policy_run, get_trip_run. cbv zeta. rewrite Ht.
  repeat split.
Qed.

Lemma unknown_trip_is_not_found_witness :
  recalc_now demo_env demo_broker 8%N (at_rest demo_db [] [])
  = (Raised "404: not found",
     at_rest (committed (world (at_rest demo_db [] [])))
       (ext_calls (world (at_rest demo_db [] []))) (jobs (at_rest demo_db [] [])))
  /\ patch_policy demo_env 8%N demo_patch (at_rest demo_db [] [])
     = (Raised "404: not found",
        at_rest (committed (world (at_rest demo_db [] [])))
          (ext_calls (world (at_rest demo_db [] []))) (jobs (at_rest demo_db [] [])))
  /\ get_trip 20761 8%N (at_rest demo_db [] [])
     = (Raised "404: not found",
        at_rest (committed (world (at_rest demo_db [] [])))
          (ext_calls (world (at_rest demo_db [] []))) (jobs (at_rest demo_db [] []))).
Proof.
  apply (unknown_trip_is_not_found demo_env demo_broker 8%N demo_patch 20761
           (at_rest demo_db [] [])).
  reflexivity.
Defined.

(** X24. A mode other than the three, by its exact text, is refused with
    [400] by [create_trip] and by [patch_policy]; nothing is written: the
    caps that came with the refused mode are not applied. *)
Theorem invalid_mode_is_refused_whole env broker new_id body trip_id owm_cap route_cap m s t :
  ~ List.In m policy_modes ->
  TripCreateIn.policy_mode body = m ->
  trips (committed (world s)) !! trip_id = Some t ->
  create_trip env broker new_id body s
  = (Raised "400: policy_mode must be conservative|balanced|aggressive", s)
  /\ patch_policy env trip_id (TripPolicyPatch.mk (Some m) owm_cap route_cap) s
     = (Raised "400: policy_mode must be conservative|balanced|aggressive",
        at_rest (committed (world s)) (ext_calls (world s)) (jobs s)).
Proof.
  intros Hm Hbody Ht. split.
  - rewrite create_trip_run. cbv zeta. rewrite Hbody, (validate_mode_raises _ Hm). reflexivity.
  - rewrite patch_policy_run. cbv zeta. rewrite Ht. cbn [TripPolicyPatch.policy_mode].
    rewrite (validate_mode_raises _ Hm). reflexivity.
Qed.

(** A mode in capitals, with a cap that would have been accepted. *)
Lemma invalid_mode_is_refused_whole_witness :
  create_trip demo_env demo_broker 9%N
    (TripCreateIn.mk (demo_now + 6 * 3600 * 1000000) [(1.0, 2.0); (3.0, 4.0)]%float
       "Balanced" 30 15)
    (at_rest demo_db [] [])
  = (Raised "400: policy_mode must be conservative|balanced|aggressive", at_rest demo_db [] [])
  /\ patch_policy demo_env 7%N (TripPolicyPatch.mk (Some "Balanced") (Some 5) None)
       (at_rest demo_db [] [])
     = (Raised "400: policy_mode must be conservative|balanced|aggressive",
        at_rest (committed (world (at_rest demo_db [] [])))
          (ext_calls (world (at_rest demo_db [] []))) (jobs (at_rest demo_db [] []))).
Proof.
  apply (invalid_mode_is_refused_whole demo_env demo_broker 9%N
           (TripCreateIn.mk (demo_now + 6 * 3600 * 1000000) [(1.0, 2.0); (3.0, 4.0)]%float
              "Balanced" 30 15)
           7%N (Some 5) None "Balanced" (at_rest demo_db [] []) demo_trip).
  - simpl. intros [H | [H | [H | []]]]; discriminate.
  - reflexivity.
  - reflexivity.
Defined.

(** ** The system: trips stay as the façade accepts them *)

Lemma well_formed_same_request t t' : same_request t t' -> well_formed t -> well_formed t'.
Proof.
  intros (_ & _ & Hw & Hm & _) [H1 H2]. unfold well_formed. rewrite Hw, Hm. auto.
Qed.

Lemma all_well_formed_alter tid f db :
  (forall x, same_request x (f x)) ->
  all_well_formed db -> all_well_formed (alter_trip tid f db).
Proof.
  intros Hf Hwf k t. cbn [trips alter_trip]. intros Ht.
  apply lookup_alter_Some in Ht as [(-> & x & Hx & ->) | [_ Ht]].
  - apply (well_formed_same_request x); [apply Hf | apply (Hwf _ _ Hx)].
  - apply (Hwf _ _ Ht).
Qed.

Lemma same_request_queued next x : same_request x (set_queued next x).
Proof. repeat split. Qed.

Lemma all_well_formed_queued next rows : forall db,
  all_well_formed db -> all_well_formed (queued_db next rows db).
Proof.
  induction rows as [|t rows IH]; intros db Hwf; [exact Hwf|].
  rewrite queued_db_cons. apply IH. cbn [queued_db fold_left].
  intros k x Hx. cbn [trips add_update] in Hx.
  exact (all_well_formed_alter _ _ _ (same_request_queued next) Hwf k x Hx).
Qed.

(** The rows a scan leaves, however it ends: some of the selected rows are
    queued. *)
Lemma scan_rows_committed env broker interval rows : forall db calls js,
  exists done,
    committed (world (snd (scan_rows env broker interval rows (at_rest db calls js))))
    = queued_db (plus_seconds (now env) interval) done db.
Proof.
  induction rows as [|t rows IH]; intros db calls js; cbn [scan_rows].
  - exists []. reflexivity.
  - rewrite proc_bind_run. unfold at_rest. rewrite queue_trip_run.
    destruct (update_insert_fails env (scan_row t)); [exists []; reflexivity|].
    destruct (send_task_fails broker (Trip.id t)); [exists [t]; reflexivity|].
    destruct (IH (queued_db (plus_seconds (now env) interval) [t] db) calls
                (js ++ [Trip.id t])%list) as [done Hdone].
    exists (t :: done). rewrite queued_db_cons. exact Hdone.
Qed.

(** X25. A store whose trips all have one of the three modes and two
    waypoints or more stays so through [create_trip], [patch_policy],
    [recalc_now], [scan_due_trips] and [recalc_trip], however they end; on
    such a store [recalc_trip] never answers [bad-waypoints]. *)
Theorem trips_stay_well_formed (s : System) :
  keyed (committed (world s)) ->
  all_well_formed (committed (world s)) ->
  (forall env broker tid body,
      TripCreateIn.valid body ->
      all_well_formed (committed (world (snd (create_trip env broker tid body s)))))
  /\ (forall env trip_id body,
        all_well_formed (committed (world (snd (patch_policy env trip_id body s)))))
  /\ (forall env broker trip_id,
        all_well_formed (committed (world (snd (recalc_now env broker trip_id s)))))
  /\ (forall env broker interval,
        all_well_formed (committed (world (snd (scan_due_trips env broker interval s)))))
  /\ (forall cfg env tid,
        all_well_formed (committed (snd (recalc_trip cfg env tid (world s))))
        /\ fst (recalc_trip cfg env tid (world s))
           <> Ok (JDict [("ok", JBool false); ("error", JStr "bad-waypoints")])).
Proof.
  intros Hk Hwf. split; [|split; [|split; [|split]]].
  - intros env broker tid body Hvalid. rewrite create_trip_run. cbv zeta.
    assert (Hnew : List.In (TripCreateIn.policy_mode body) policy_modes ->
              all_well_formed
                (add_update (queued_by_row tid "create")
                   (add_update (created_row tid body)
                      (put_trip (created_trip env tid body) (committed (world s)))))).
    { intros Hmode k t. cbn [trips add_update put_trip].
      change (Trip.id (created_trip env tid body)) with tid.
      intros Ht. apply lookup_insert_Some in Ht as [[_ <-] | [_ Ht]].
      - split; [exact Hmode | exact Hvalid].
      - apply (Hwf _ _ Ht). }
    unfold _validate_mode.
    destruct (existsb (String.eqb (TripCreateIn.policy_mode body)) policy_modes) eqn:E;
      [|exact Hwf].
    apply existsb_exists in E as (x & Hx & Heq). apply String.eqb_eq in Heq. subst x.
    destruct (trips (committed (world s)) !! tid); [exact Hwf|].
    destruct (update_insert_fails env (created_row tid body)
              || update_insert_fails env (queued_by_row tid "create")); [exact Hwf|].
    destruct (send_task_fails broker tid); apply Hnew; exact Hx.
  - intros env trip_id body. rewrite patch_policy_run. cbv zeta.
    destruct (trips (committed (world s)) !! trip_id) as [t|] eqn:Ht; [|exact Hwf].
    destruct (TripPolicyPatch.policy_mode body) as [m|] eqn:Hm.
    + unfold _validate_mode.
      destruct (existsb (String.eqb m) policy_modes) eqn:E; [|exact Hwf].
      apply existsb_exists in E as (x & Hx & Heq). apply String.eqb_eq in Heq. subst x.
      destruct (patch_vals body); [exact Hwf|].
      destruct (update_insert_fails env _); [exact Hwf|].
      cbn [snd world committed settled at_rest].
      intros k x. cbn [trips add_update alter_trip]. intros Hx'.
      apply lookup_alter_Some in Hx' as [(-> & y & Hy & ->) | [_ Hx']]; [|apply (Hwf _ _ Hx')].
      destruct (Hwf _ _ Hy) as [_ Hlen]. split; [|exact Hlen].
      cbn [Trip.policy_mode set_policy]. rewrite Hm. exact Hx.
    + destruct (patch_vals body); [exact Hwf|].
      destruct (update_insert_fails env _); [exact Hwf|].
      cbn [snd world committed settled at_rest].
      intros k x. cbn [trips add_update alter_trip]. intros Hx'.
      apply lookup_alter_Some in Hx' as [(-> & y & Hy & ->) | [_ Hx']]; [|apply (Hwf _ _ Hx')].
      destruct (Hwf _ _ Hy) as [Hmode Hlen]. split; [|exact Hlen].
      cbn [Trip.policy_mode set_policy]. rewrite Hm. exact Hmode.
  - intros env broker trip_id. rewrite recalc_now_run. cbv zeta.
    destruct (trips (committed (world s)) !! trip_id) as [t|] eqn:Ht; [|exact Hwf].
    destruct (update_insert_fails env _); [exact Hwf|].
    destruct (send_task_fails broker trip_id); cbn [snd world committed settled at_rest];
      intros k x Hx; cbn [trips add_update] in Hx;
      exact (all_well_formed_alter _ _ _ (same_request_queued _) Hwf k x Hx).
  - intros env broker interval. rewrite scan_due_trips_run. cbv zeta.
    destruct (scan_rows_committed env broker interval
                (select_due (now env) (committed (world s)))
                (committed (world s)) (ext_calls (world s)) (jobs s)) as [done Hdone].
    unfold at_rest in Hdone.
    destruct (scan_rows _ _ _ _ _) as [[[]|e] s']; cbn [snd world committed settled] in *;
      rewrite Hdone; apply all_well_formed_queued; exact Hwf.
  - intros cfg env tid.
    pose proof (recalc_frame cfg env tid (world s) Hk) as (H1 & H2 & _).
    split.
    + intros k t Ht. destruct (decide (k = tid)) as [->|Hne].
      * rewrite Ht in H2.
        destruct (trips (committed (world s)) !! tid) as [t0|] eqn:E; [|contradiction].
        apply (well_formed_same_request t0); [exact H2 | apply (Hwf _ _ E)].
      * rewrite H1 in Ht by exact Hne. apply (Hwf _ _ Ht).
    + intros Hres.
      destruct (recalc_trip cfg env tid (world s)) as [r w'] eqn:Hrun. cbn [fst] in Hres.
      subst r.
      destruct (trips (committed (world s)) !! tid) as [t|] eqn:Ht.
      * destruct (recalc_ok_inv cfg env tid t (world s) _ w' Ht Hrun)
          as [(Hlt & _) | [((reason & Hr) & _) | [((e & Hr) & _)
             | (dist_m & dur_s & geom & sev & bl & _ & Hr & _)]]].
        -- destruct (Hwf _ _ Ht) as [_ Hlen]. lia.
        -- discriminate Hr.
        -- discriminate Hr.
        -- destruct (done_values_fields env t dist_m dur_s geom sev bl t)
             as (pct & st & buf & why & sugg & _ & Hr' & _).
           rewrite Hr' in Hr. discriminate Hr.
      * rewrite recalc_trip_outcome in Hrun. unfold recalc_outcome in Hrun.
        cbv zeta in Hrun. rewrite Ht in Hrun. discriminate Hrun.
Qed.

Lemma all_well_formed_demo_db : all_well_formed demo_db.
Proof.
  intros k t Ht. unfold demo_db in Ht. cbn [trips] in Ht.
  apply lookup_singleton_Some in Ht as [<- <-]. split; simpl; [auto | lia].
Defined.

Lemma trips_stay_well_formed_witness :
  (forall env broker tid body,
      TripCreateIn.valid body ->
      all_well_formed
        (committed (world (snd (create_trip env broker tid body (at_rest demo_db [] []))))))
  /\ (forall env trip_id body,
        all_well_formed
          (committed (world (snd (patch_policy env trip_id body (at_rest demo_db [] []))))))
  /\ (forall env broker trip_id,
        all_well_formed
          (committed (world (snd (recalc_now env broker trip_id (at_rest demo_db [] []))))))
  /\ (forall env broker interval,
        all_well_formed
          (committed (world (snd (scan_due_trips env broker interval (at_rest demo_db [] []))))))
  /\ (forall cfg env tid,
        all_well_formed
          (committed (snd (recalc_trip cfg env tid (world (at_rest demo_db [] [])))))
        /\ fst (recalc_trip cfg env tid (world (at_rest demo_db [] [])))
           <> Ok (JDict [("ok", JBool false); ("error", JStr "bad-waypoints")])).
Proof.
  apply (trips_stay_well_formed (at_rest demo_db [] [])).
  - exact keyed_demo_db.
  - exact all_well_formed_demo_db.
Defined.

(** ** The façade: the usage and the events it shows *)

(** X26. After an approved [_consume_budget] for a trip, [get_trip] on the
    day of the ledger shows the counter of that API advanced by [amount], the
    other counter and the caps as before, the counter within its cap, and the
    [budget_consume] row first among the events of the trip. *)
Theorem get_trip_shows_the_consumed_unit cfg env trip api kind amount s reason w' :
  api = "owm" \/ api = "route" ->
  trips (committed (world s)) !! Trip.id trip = Some trip ->
  run_session (_consume_budget cfg env trip api kind amount) (world s)
  = (Ok (true, reason), w') ->
  exists ups o r,
    fst (get_trip (budget_day env api) (Trip.id trip) s)
    = Ok (trip, take 60 ups,
          (o, r, Trip.trip_owm_daily_cap trip, Trip.trip_route_daily_cap trip))
    /\ fst (get_trip (budget_day env api) (Trip.id trip) {| world := w'; jobs := jobs s |})
       = Ok (trip, take 60 (budget_consume_row trip api kind amount :: ups),
             (if String.eqb api "owm" then o + amount else o,
              if String.eqb api "owm" then r else r + amount,
              Trip.trip_owm_daily_cap trip, Trip.trip_route_daily_cap trip))
    /\ (if String.eqb api "owm" then o + amount <= Trip.trip_owm_daily_cap trip
        else r + amount <= Trip.trip_route_daily_cap trip).
Proof.
  intros Hapi Ht Hrun.
  unfold run_session in Hrun.
  destruct (_consume_budget cfg env trip api kind amount _) as [r1 w1] eqn:E.
  inversion Hrun; subst r1 w'; clear Hrun.
  apply consume_approved_inv in E as (Hden & _ & ->).
  cbn [working committed ext_calls settled] in *.
  exists (rev (List.filter (fun u => N.eqb (TripUpdate.trip_id u) (Trip.id trip))
                 (trip_updates (committed (world s))))),
         (trip_owm_calls (committed (world s)) (Trip.id trip) (budget_day env api)),
         (trip_route_calls (committed (world s)) (Trip.id trip) (budget_day env api)).
  rewrite !get_trip_run. cbn [fst world committed settled].
  split; [rewrite Ht; reflexivity|]. split.
  - trips_simpl. rewrite Ht. counters_simpl.
    rewrite trip_owm_calls_add, trip_route_calls_add, !decide_True by reflexivity.
    cbn [trip_updates add_update add_calls put_trip_usage_daily put_api_usage_minute
         put_api_usage_daily].
    rewrite List.filter_app, rev_app_distr. cbn [List.filter budget_consume_row TripUpdate.trip_id].
    rewrite N.eqb_refl. cbn [rev app].
    destruct (String.eqb api "owm"); reflexivity.
  - assert (Hnot : ~ cap_exceeded cfg trip api amount (budget_day env api)
                       (budget_minute env api) (committed (world s))).
    { rewrite <- budget_denied_iff by exact Hapi. congruence. }
    unfold cap_exceeded, trip_calls, trip_cap_of in Hnot.
    destruct (String.eqb api "owm"); lia.
Qed.

Lemma get_trip_shows_the_consumed_unit_witness :
  exists ups o r,
    fst (get_trip (budget_day demo_env "route") (Trip.id demo_trip) (at_rest demo_db [] []))
    = Ok (demo_trip, take 60 ups,
          (o, r, Trip.trip_owm_daily_cap demo_trip, Trip.trip_route_daily_cap demo_trip))
    /\ fst (get_trip (budget_day demo_env "route") (Trip.id demo_trip)
              {| world := snd (run_session
                                 (_consume_budget default_config demo_env demo_trip "route"
                                    "route_calc" 1)
                                 (world (at_rest demo_db [] [])));
                 jobs := jobs (at_rest demo_db [] []) |})
       = Ok (demo_trip, take 60 (budget_consume_row demo_trip "route" "route_calc" 1 :: ups),
             (if String.eqb "route" "owm" then o + 1 else o,
              if String.eqb "route" "owm" then r else r + 1,
              Trip.trip_owm_daily_cap demo_trip, Trip.trip_route_daily_cap demo_trip))
    /\ (if String.eqb "route" "owm" then o + 1 <= Trip.trip_owm_daily_cap demo_trip
        else r + 1 <= Trip.trip_route_daily_cap demo_trip).
Proof.
  apply (get_trip_shows_the_consumed_unit default_config demo_env demo_trip "route" "route_calc" 1
           (at_rest demo_db [] []) "ok"
           (snd (run_session
                   (_consume_budget default_config demo_env demo_trip "route" "route_calc" 1)
                   (world (at_rest demo_db [] []))))).
  - right. reflexivity.
  - reflexivity.
  - vm_compute. reflexivity.
Defined.

(** What the façade shows of the sample trip after its first run. *)
Example get_trip_evaluated :
  let w := snd (recalc_trip default_config demo_env 7%N (settled demo_db [])) in
  match fst (get_trip 20761 7%N {| world := w; jobs := [] |}) with
  | Ok (t, ups, usage) =>
      Trip.calc_state t = "done"
      /\ map TripUpdate.kind ups
         = ["recalc_done"; "budget_consume"; "budget_consume"; "recalc_running"]
      /\ usage = (1, 1, 30, 15)
  | Raised _ => False
  end.
Proof. vm_compute. repeat split. Qed.

(** ** The scanner and the worker together *)


Lemma select_due_row now db t :
  keyed db -> List.In t (select_due now db) -> trips db !! Trip.id t = Some t.
Proof.
  intros Hk Hin. destruct (select_due_in _ _ _ Hin) as ((k & Ht) & _).
  rewrite (Hk _ _ Ht). exact Ht.
Qed.


Lemma run_jobs_cons cfg run runs w :
  run_jobs cfg (run :: runs) w = run_jobs cfg runs (snd (recalc_trip cfg (fst run) (snd run) w)).
Proof. reflexivity. Qed.

Lemma run_jobs_keyed cfg runs : forall w,
  keyed (committed w) -> keyed (committed (run_jobs cfg runs w)).
Proof.
  induction runs as [|run runs IH]; intros w Hk; [exact Hk|].
  rewrite run_jobs_cons. apply IH.
  exact (keyed_touches _ _ _ (recalc_frame cfg (fst run) (snd run) w Hk) Hk).
Qed.






Example scanned_trips_evaluated :
  map (fun k => (fun t => (Trip.calc_state t, Trip.next_calc_at t))
                <$> trips (committed
                             (run_jobs default_config
                                [(demo_env, 2%N); (demo_env_route_down, 1%N);
                                 (demo_env_no_key, 6%N)]
                                (world (snd (scan_due_trips demo_env demo_broker 60
                                               {| world := settled demo_db_six [];
                                                  jobs := [] |}))))) !! k)
    [2%N; 1%N; 6%N; 4%N]
  = [Some ("done", Some (demo_now + timedelta_seconds 2400));
     Some ("error", Some (demo_now + timedelta_seconds 900));
     Some ("done", Some (demo_now + timedelta_seconds 2400));
     Some ("done", Some (demo_now + 1))].
Proof. vm_compute. reflexivity. Qed.

(** X28. A due trip with fewer than two waypoints is tried again at every
    scan: the scan queues it and sets its next run one scan interval ahead,
    the run it dispatches returns [bad-waypoints] without a call to a
    provider and leaves that time as the scan set it, so that the trip is due
    as soon as the interval has passed, whatever its policy. *)
Theorem invalid_trip_is_retried_at_every_scan cfg env broker interval env_w s t :
  keyed (committed (world s)) ->
  (forall row, update_insert_fails env row = false) ->
  (forall tid, send_task_fails broker tid = false) ->
  (forall row, update_insert_fails env_w row = false) ->
  List.In t (select_due (now env) (committed (world s))) ->
  (length (Trip.waypoints t) < 2)%nat ->
  List.In (Trip.id t) (jobs (snd (scan_due_trips env broker interval s)))
  /\ fst (recalc_trip cfg env_w (Trip.id t) (world (snd (scan_due_trips env broker interval s))))
     = Ok (JDict [("ok", JBool false); ("error", JStr "bad-waypoints")])
  /\ trips (committed
              (snd (recalc_trip cfg env_w (Trip.id t)
                      (world (snd (scan_due_trips env broker interval s))))))
       !! Trip.id t
     = Some (Trip.set_calc_state "error" (set_queued (plus_seconds (now env) interval) t))
  /\ ext_calls (snd (recalc_trip cfg env_w (Trip.id t)
                       (world (snd (scan_due_trips env broker interval s)))))
     = ext_calls (world s)
  /\ forall now', plus_seconds (now env) interval <= now' ->
       is_due now'
         (Trip.set_calc_state "error" (set_queued (plus_seconds (now env) interval) t))
       = true.
Proof.
  intros Hk Hins Hsend Hnf Hin Hlen.
  rewrite scan_due_trips_run. cbv zeta.
  rewrite scan_rows_run by auto. cbn [snd world jobs committed ext_calls settled].
  split; [apply in_or_app; right; apply in_map; exact Hin|].
  assert (Hrow : trips (queued_db (plus_seconds (now env) interval)
                          (select_due (now env) (committed (world s))) (committed (world s)))
                   !! Trip.id t
                 = Some (set_queued (plus_seconds (now env) interval) t)).
  { rewrite queued_db_trips_in by (apply in_map; exact Hin).
    rewrite (select_due_row _ _ _ Hk Hin). reflexivity. }
  rewrite recalc_trip_outcome. unfold recalc_outcome. cbv zeta.
  cbn [committed settled ext_calls]. rewrite Hrow, Hnf.
  unfold loaded_outcome. cbv zeta. cbn [set_queued Trip.waypoints].
  apply Nat.ltb_lt in Hlen. rewrite Hlen, Hnf.
  cbn [fst snd committed settled ext_calls working].
  split; [reflexivity|]. split; [|split; [reflexivity|]].
  - trips_simpl. rewrite !lookup_alter_eq, Hrow. reflexivity.
  - intros now' Hle. unfold is_due. cbn [Trip.set_calc_state set_queued Trip.next_calc_at Trip.calc_state].
    apply andb_true_iff. split; [apply Z.leb_le; exact Hle | reflexivity].
Qed.

Lemma keyed_demo_db_refused : keyed demo_db_refused.
Proof.
  intros k t Ht. unfold demo_db_refused in Ht. cbn [trips] in Ht.
  apply lookup_singleton_Some in Ht as [<- <-]. reflexivity.
Defined.

Lemma invalid_trip_is_retried_at_every_scan_witness :
  List.In (Trip.id demo_trip_refused)
    (jobs (snd (scan_due_trips demo_env demo_broker 60
                  {| world := settled demo_db_refused []; jobs := [] |})))
  /\ fst (recalc_trip default_config demo_env (Trip.id demo_trip_refused)
            (world (snd (scan_due_trips demo_env demo_broker 60
                           {| world := settled demo_db_refused []; jobs := [] |}))))
     = Ok (JDict [("ok", JBool false); ("error", JStr "bad-waypoints")])
  /\ trips (committed
              (snd (recalc_trip default_config demo_env (Trip.id demo_trip_refused)
                      (world (snd (scan_due_trips demo_env demo_broker 60
                                     {| world := settled demo_db_refused []; jobs := [] |}))))))
       !! Trip.id demo_trip_refused
     = Some (Trip.set_calc_state "error"
               (set_queued (plus_seconds (now demo_env) 60) demo_trip_refused))
  /\ ext_calls (snd (recalc_trip default_config demo_env (Trip.id demo_trip_refused)
                       (world (snd (scan_due_trips demo_env demo_broker 60
                                      {| world := settled demo_db_refused []; jobs := [] |})))))
     = ext_calls (world {| world := settled demo_db_refused []; jobs := [] |})
  /\ forall now', plus_seconds (now demo_env) 60 <= now' ->
       is_due now'
         (Trip.set_calc_state "error"
            (set_queued (plus_seconds (now demo_env) 60) demo_trip_refused))
       = true.
Proof.
  apply (invalid_trip_is_retried_at_every_scan default_config demo_env demo_broker 60 demo_env
           {| world := settled demo_db_refused []; jobs := [] |} demo_trip_refused).
  - exact keyed_demo_db_refused.
  - reflexivity.
  - reflexivity.
  - reflexivity.
  - vm_compute. left. reflexivity.
  - cbn [demo_trip_refused Trip.waypoints length]. lia.
Defined.

(** ** The scanner: whatever fails *)

(** The loop, whatever fails: the rows [done] are committed as queued, and
    the loop has gone through all the rows, or has stopped at an insert that
    failed, or at a job the queue refused. *)
Lemma scan_rows_prefix env broker interval rows : forall db calls js,
  exists done rest,
    rows = (done ++ rest)%list
    /\ committed (world (snd (scan_rows env broker interval rows (at_rest db calls js))))
       = queued_db (plus_seconds (now env) interval) done db
    /\ ext_calls (world (snd (scan_rows env broker interval rows (at_rest db calls js)))) = calls
    /\ ((fst (scan_rows env broker interval rows (at_rest db calls js)) = Ok tt
         /\ rest = []
         /\ jobs (snd (scan_rows env broker interval rows (at_rest db calls js)))
            = (js ++ map Trip.id done)%list)
        \/ (exists t rest',
              rest = t :: rest'
              /\ update_insert_fails env (scan_row t) = true
              /\ fst (scan_rows env broker interval rows (at_rest db calls js))
                 = Raised "insert into trip_updates failed"
              /\ jobs (snd (scan_rows env broker interval rows (at_rest db calls js)))
                 = (js ++ map Trip.id done)%list)
        \/ (exists before t,
              done = (before ++ [t])%list
              /\ send_task_fails broker (Trip.id t) = true
              /\ fst (scan_rows env broker interval rows (at_rest db calls js))
                 = Raised "send_task failed"
              /\ jobs (snd (scan_rows env broker interval rows (at_rest db calls js)))
                 = (js ++ map Trip.id before)%list)).
Proof.
  induction rows as [|t rows IH]; intros db calls js; cbn [scan_rows].
  - exists [], []. split; [reflexivity|]. split; [reflexivity|]. split; [reflexivity|].
    left. split; [reflexivity|]. split; [reflexivity|]. cbn. rewrite app_nil_r. reflexivity.
  - rewrite proc_bind_run. unfold at_rest. rewrite queue_trip_run.
    destruct (update_insert_fails env (scan_row t)) eqn:Fi.
    { exists [], (t :: rows). split; [reflexivity|]. split; [reflexivity|]. split; [reflexivity|].
      right. left. exists t, rows. split; [reflexivity|]. split; [exact Fi|].
      split; [reflexivity|]. cbn. rewrite app_nil_r. reflexivity. }
    destruct (send_task_fails broker (Trip.id t)) eqn:Fs.
    { exists [t], rows. split; [reflexivity|]. split; [reflexivity|]. split; [reflexivity|].
      right. right. exists [], t. split; [reflexivity|]. split; [exact Fs|].
      split; [reflexivity|]. cbn. rewrite app_nil_r. reflexivity. }
    destruct (IH (queued_db (plus_seconds (now env) interval) [t] db) calls
                (js ++ [Trip.id t])%list) as (done & rest & Hrows & Hdb & Hcalls & Hend).
    unfold at_rest in *.
    exists (t :: done), rest. split; [cbn; rewrite Hrows; reflexivity|].
    split; [rewrite queued_db_cons; exact Hdb|]. split; [exact Hcalls|].
    destruct Hend as [(Hok & Hrest & Hjobs) | [(x & rest' & Hrest & Hfail & Hr & Hjobs)
                                              | (before & x & Hdone & Hfail & Hr & Hjobs)]].
    + left. split; [exact Hok|]. split; [exact Hrest|].
      rewrite Hjobs. cbn [map]. rewrite <- app_assoc. reflexivity.
    + right. left. exists x, rest'. split; [exact Hrest|]. split; [exact Hfail|].
      split; [exact Hr|]. rewrite Hjobs. cbn [map]. rewrite <- app_assoc. reflexivity.
    + right. right. exists (t :: before), x. split; [rewrite Hdone; reflexivity|].
      split; [exact Hfail|]. split; [exact Hr|].
      rewrite Hjobs. cbn [map]. rewrite <- app_assoc. reflexivity.
Qed.

(** X29. Whatever fails, a scan stops at its first failure and commits
    trip by trip: what it leaves committed is the table with the first [done]
    trips of the selection queued and their [recalc_queued] events appended,
    nothing is left in flight, and each of these trips has its job but, when
    the queue has refused a job, the last.  The scan returns in the first
    case only, with every selected trip queued and dispatched; an insert that
    fails leaves its trip, and the trips after it, out of [done]. *)
Theorem scan_stops_at_the_first_failure env broker interval s :
  exists done rest,
    select_due (now env) (committed (world s)) = (done ++ rest)%list
    /\ committed (world (snd (scan_due_trips env broker interval s)))
       = queued_db (plus_seconds (now env) interval) done (committed (world s))
    /\ working (world (snd (scan_due_trips env broker interval s)))
       = committed (world (snd (scan_due_trips env broker interval s)))
    /\ trip_updates (committed (world (snd (scan_due_trips env broker interval s))))
       = (trip_updates (committed (world s)) ++ map scan_row done)%list
    /\ ext_calls (world (snd (scan_due_trips env broker interval s))) = ext_calls (world s)
    /\ ((fst (scan_due_trips env broker interval s)
         = Ok (JDict [("ok", JBool true);
                      ("queued",
                       JInt (Z.of_nat (length (select_due (now env) (committed (world s))))))])
         /\ rest = []
         /\ jobs (snd (scan_due_trips env broker interval s))
            = (jobs s ++ map Trip.id done)%list)
        \/ (exists t rest',
              rest = t :: rest'
              /\ update_insert_fails env (scan_row t) = true
              /\ fst (scan_due_trips env broker interval s)
                 = Raised "insert into trip_updates failed"
              /\ jobs (snd (scan_due_trips env broker interval s))
                 = (jobs s ++ map Trip.id done)%list)
        \/ (exists before t,
              done = (before ++ [t])%list
              /\ send_task_fails broker (Trip.id t) = true
              /\ fst (scan_due_trips env broker interval s) = Raised "send_task failed"
              /\ jobs (snd (scan_due_trips env broker interval s))
                 = (jobs s ++ map Trip.id before)%list)).
Proof.
  rewrite scan_due_trips_run. cbv zeta.
  destruct (scan_rows_prefix env broker interval (select_due (now env) (committed (world s)))
              (committed (world s)) (ext_calls (world s)) (jobs s))
    as (done & rest & Hrows & Hdb & Hcalls & Hend).
  unfold at_rest in *.
  destruct (scan_rows env broker interval _ _) as [[[]|e] s1]; cbn [fst snd] in *;
    cbn [world jobs committed working ext_calls settled].
  all: exists done, rest; split; [exact Hrows|]; split; [exact Hdb|]; split; [reflexivity|];
       split; [rewrite Hdb; apply queued_db_updates|]; split; [exact Hcalls|].
  - destruct Hend as [(_ & Hrest & Hjobs) | [(x & rest' & _ & _ & Hr & _)
                                            | (before & x & _ & _ & Hr & _)]];
      [|discriminate Hr|discriminate Hr].
    left. split; [reflexivity|]. split; [exact Hrest | exact Hjobs].
  - destruct Hend as [(Hok & _) | [(x & rest' & Hrest & Hfail & Hr & Hjobs)
                                  | (before & x & Hdone & Hfail & Hr & Hjobs)]];
      [discriminate Hok| |].
    + right. left. exists x, rest'.
      split; [exact Hrest|]. split; [exact Hfail|]. split; [inversion Hr; reflexivity | exact Hjobs].
    + right. right. exists before, x.
      split; [exact Hdone|]. split; [exact Hfail|]. split; [inversion Hr; reflexivity | exact Hjobs].
Qed.
